(** * Orchestration layer of the housing-market analysis service

    A shallow embedding of

      - [backend/app/services/rate_limiter.py]   (class [GeminiRateLimiter]),
      - [backend/app/services/ai_cache.py]       (class [AIResponseCache]),
      - [backend/app/services/property_analysis_service.py]
        (class [PropertyAnalysisService]),

    followed by the properties of the specification that were checked
    against it.

    Conventions of the embedding.

      - Python [float]s and [Decimal]s are exact rationals ([Q]); times are
        seconds since the epoch.  Comparisons go through [Qcompare], so two
        representations of the same rational behave alike.
      - Python [int]s are [Z].
      - An attribute or dictionary key that may hold [None] (a nullable
        column, an optional argument, a key that may be missing) is an
        [option]; where the code behaves differently on a missing key and
        on a key that holds [None], the key is a [slot].
      - [time.time()] reads a clock kept in the state; [asyncio.sleep d]
        moves this clock forward by [d] and is logged, so that a theorem can
        say whether a call waited.
      - A call that may raise returns a [py] value: [Return v] or
        [Raise e]. *)

From Stdlib Require Import ZArith QArith List String Ascii Bool Lia Lqa.
From Stdlib Require Import Permutation DecimalString.
Import ListNotations.

Set Implicit Arguments.
Local Open Scope Z_scope.

(** ** Python values shared by the three modules *)

(** The exception classes the modelled code raises or lets through.  All of
    them derive from [Exception], so [except Exception] catches each. *)
Inductive exn : Type :=
| Exception_ (msg : string)
| ValueError (msg : string)
| TypeError (msg : string)
| IndexError (msg : string)
| KeyError (msg : string)
| AttributeError (msg : string).

(** [str(e)] *)
Definition str (e : exn) : string :=
  match e with
  | Exception_ m | ValueError m | TypeError m | IndexError m | KeyError m
  | AttributeError m => m
  end.

Inductive py (A : Type) : Type :=
| Return (a : A)
| Raise (e : exn).
Arguments Return {A} a.
Arguments Raise {A} e.

(** Comparison of rationals as booleans, the way the code's [<], [>] and
    [>=] on floats are used in conditions. *)
Definition Qltb (x y : Q) : bool :=
  match (x ?= y)%Q with Lt => true | _ => false end.

Definition Qgtb (x y : Q) : bool := Qltb y x.

(** [int(x)] of a float: truncation towards zero. *)
Definition py_int (x : Q) : Z := Z.quot (Qnum x) (Zpos (Qden x)).

(** [str(n)] of an int, in decimal. *)
Definition str_int (n : Z) : string := NilZero.string_of_int (Z.to_int n).

(** [len(l)] *)
Definition len {A : Type} (l : list A) : Z := Z.of_nat (List.length l).

(** The clock and the log of the waits. *)
Record Clock : Type := mkClock {
  clock_now : Q;
  clock_slept : list Q
}.

(** [time.time()] *)
Definition time_time (w : Clock) : Q := clock_now w.

(** [await asyncio.sleep(d)] *)
Definition sleep (d : Q) (w : Clock) : Clock :=
  {| clock_now := (clock_now w + d)%Q; clock_slept := clock_slept w ++ [d] |}.

(** ** The rate limiter ([rate_limiter.py]) *)

Module RateLimiter.

Record t : Type := mk {
  max_per_minute : Z;
  max_per_day : Z;
  minute_window : Q;
  day_window : Q;
  minute_requests : list Q;
  day_requests : list Q
}.

(** [__init__]; the defaults are 15 and 1500. *)
Definition init (max_requests_per_minute max_requests_per_day : Z) : t :=
  {| max_per_minute := max_requests_per_minute;
     max_per_day := max_requests_per_day;
     minute_window := 60%Q;
     day_window := 86400%Q;
     minute_requests := [];
     day_requests := [] |}.

Definition default : t := init 15 1500.

Definition set_requests (self : t) (m d : list Q) : t :=
  {| max_per_minute := max_per_minute self;
     max_per_day := max_per_day self;
     minute_window := minute_window self;
     day_window := day_window self;
     minute_requests := m;
     day_requests := d |}.

(** [_cleanup_old_requests] *)
Definition _cleanup_old_requests (self : t) (current_time : Q) : t :=
  set_requests self
    (filter (fun t => Qltb (current_time - t)%Q (minute_window self))
            (minute_requests self))
    (filter (fun t => Qltb (current_time - t)%Q (day_window self))
            (day_requests self)).

(** The message of the exception raised when the daily quota is used up. *)
Definition quota_message (wait_time : Q) : string :=
  ("Daily API quota exceeded. Try again in "
     ++ str_int (py_int (wait_time / 60)%Q) ++ " minutes.")%string.

Definition QuotaExceeded (wait_time : Q) : exn :=
  Exception_ (quota_message wait_time).

(** The [while] loop of [acquire].  It yields the last reading of the clock
    ([now]), or raises [IndexError] when [minute_requests[0]] is taken on an
    empty list.  [None] stands for a loop that needs more than [fuel]
    iterations; [minute_loop_terminates] shows that [acquire] never sees
    it. *)
Fixpoint minute_loop (fuel : nat) (self : t) (now : Q) (w : Clock)
  : option (py Q * t * Clock) :=
  if len (minute_requests self) >=? max_per_minute self then
    match fuel with
    | O => None
    | S fuel' =>
        match minute_requests self with
        | [] => Some (Raise (IndexError "list index out of range"), self, w)
        | oldest_request :: _ =>
            let wait_time := (minute_window self - (now - oldest_request))%Q in
            if Qgtb wait_time 0%Q then
              let w1 := sleep (wait_time + (1 # 10))%Q w in
              let now1 := time_time w1 in
              minute_loop fuel' (_cleanup_old_requests self now1) now1 w1
            else
              Some (Return now, _cleanup_old_requests self now, w)
        end
    end
  else Some (Return now, self, w).

(** The part of [acquire] after the loop: the check of the day limit and the
    recording of the request. *)
Definition day_check_and_record (self : t) (now : Q) : py unit * t :=
  let record :=
    (Return tt,
     set_requests self (minute_requests self ++ [now])
                       (day_requests self ++ [now])) in
  if len (day_requests self) >=? max_per_day self then
    match day_requests self with
    | [] => (Raise (IndexError "list index out of range"), self)
    | oldest_request :: _ =>
        let wait_time := (day_window self - (now - oldest_request))%Q in
        if Qgtb wait_time 0%Q then (Raise (QuotaExceeded wait_time), self)
        else record
    end
  else record.

(** [acquire] *)
Definition acquire (self : t) (w : Clock) : py unit * t * Clock :=
  let now := time_time w in
  let self1 := _cleanup_old_requests self now in
  match minute_loop (S (List.length (minute_requests self1))) self1 now w with
  | None => (Return tt, self1, w)
  | Some (Raise e, self2, w2) => (Raise e, self2, w2)
  | Some (Return now2, self2, w2) =>
      let '(r, self3) := day_check_and_record self2 now2 in (r, self3, w2)
  end.

(** [get_requests_remaining]: used, remaining and limit of each window. *)
Definition get_requests_remaining (self : t) (w : Clock)
  : (Z * Z * Z) * (Z * Z * Z) * t :=
  let self1 := _cleanup_old_requests self (time_time w) in
  ((len (minute_requests self1),
    max_per_minute self1 - len (minute_requests self1),
    max_per_minute self1),
   (len (day_requests self1),
    max_per_day self1 - len (day_requests self1),
    max_per_day self1),
   self1).

(** [reset] *)
Definition reset (self : t) : t := set_requests self [] [].

End RateLimiter.

(** ** The response cache ([ai_cache.py]) *)

(** [part in key] on strings. *)
Fixpoint is_substring (part key : string) : bool :=
  String.prefix part key
  || match key with
     | EmptyString => false
     | String _ key' => is_substring part key'
     end.

(** [pattern.split(sep)] for a separator of one character: the pieces
    between the occurrences of [sep], empty pieces included. *)
Fixpoint split_on (sep : ascii) (pattern : string) : list string :=
  match pattern with
  | EmptyString => [EmptyString]
  | String c rest =>
      if Ascii.eqb c sep then EmptyString :: split_on sep rest
      else match split_on sep rest with
           | [] => [String c EmptyString]
           | piece :: pieces => String c piece :: pieces
           end
  end.

Module AICache.

Section WithData.

(** The type of the cached payloads ([Dict[str, Any]] in the source). *)
Variable V : Type.

(** One value of [self.cache]. *)
Record entry : Type := mkEntry {
  data : V;
  created_at : Q;
  last_accessed : Q;
  expires_at : Q
}.

(** A Python [dict] with string keys: the items in insertion order.  The
    order matters to [min] in [_evict_lru], which returns the first of the
    minimal keys. *)
Definition dict : Type := list (string * entry).

Record t : Type := mk {
  max_size : Z;
  default_ttl : Z;
  cache : dict
}.

(** [__init__]; the defaults are 500 and 3600. *)
Definition init (max_size_ default_ttl_ : Z) : t :=
  {| max_size := max_size_; default_ttl := default_ttl_; cache := [] |}.

Definition set_cache (self : t) (d : dict) : t :=
  {| max_size := max_size self; default_ttl := default_ttl self; cache := d |}.

(** [d[k]], [None] when [k not in d] *)
Fixpoint dict_get (k : string) (d : dict) : option entry :=
  match d with
  | [] => None
  | (k', e) :: d' => if String.eqb k k' then Some e else dict_get k d'
  end.

(** [k in d] *)
Definition dict_mem (k : string) (d : dict) : bool :=
  match dict_get k d with Some _ => true | None => false end.

(** [del d[k]] *)
Definition dict_del (k : string) (d : dict) : dict :=
  filter (fun p => negb (String.eqb k (fst p))) d.

(** The value of an existing key is replaced where it stands. *)
Fixpoint dict_replace (k : string) (e : entry) (d : dict) : dict :=
  match d with
  | [] => []
  | (k', e') :: d' =>
      if String.eqb k k' then (k', e) :: d'
      else (k', e') :: dict_replace k e d'
  end.

(** [d[k] = e]: a new key goes last. *)
Definition dict_set (k : string) (e : entry) (d : dict) : dict :=
  if dict_mem k d then dict_replace k e d else d ++ [(k, e)].

Definition dict_keys (d : dict) : list string := map fst d.

(** [get] at the time [now] read by [time.time()] *)
Definition get (self : t) (now : Q) (cache_key : string) : option V * t :=
  match dict_get cache_key (cache self) with
  | None => (None, self)
  | Some entry_ =>
      if Qgtb now (expires_at entry_) then
        (None, set_cache self (dict_del cache_key (cache self)))
      else
        (Some (data entry_),
         set_cache self
           (dict_replace cache_key
              {| data := data entry_;
                 created_at := created_at entry_;
                 last_accessed := now;
                 expires_at := expires_at entry_ |}
              (cache self)))
  end.

(** [min(d.keys(), key=lambda k: d[k]["last_accessed"])] from a first
    candidate on: a later key wins only when strictly older. *)
Fixpoint min_last_accessed (best : string * entry) (rest : dict) : string :=
  match rest with
  | [] => fst best
  | p :: rest' =>
      if Qltb (last_accessed (snd p)) (last_accessed (snd best))
      then min_last_accessed p rest'
      else min_last_accessed best rest'
  end.

(** [_evict_lru] *)
Definition _evict_lru (self : t) : t :=
  match cache self with
  | [] => self
  | first :: rest =>
      let lru_key := min_last_accessed first rest in
      set_cache self (dict_del lru_key (cache self))
  end.

(** [ttl or self.default_ttl] *)
Definition ttl_or_default (self : t) (ttl : option Z) : Z :=
  match ttl with
  | None => default_ttl self
  | Some n => if n =? 0 then default_ttl self else n
  end.

(** [set] at the time [now] read by [time.time()] *)
Definition set (self : t) (now : Q) (cache_key : string) (data_ : V)
    (ttl : option Z) : t :=
  let ttl := ttl_or_default self ttl in
  let self1 :=
    if len (cache self) >=? max_size self then _evict_lru self else self in
  set_cache self1
    (dict_set cache_key
       {| data := data_;
          created_at := now;
          last_accessed := now;
          expires_at := (now + inject_Z ttl)%Q |}
       (cache self1)).

(** [invalidate] *)
Definition invalidate (self : t) (cache_key : string) : bool * t :=
  if dict_mem cache_key (cache self)
  then (true, set_cache self (dict_del cache_key (cache self)))
  else (false, self).

(** [all(part in key for part in pattern_parts)] *)
Definition matches_pattern (pattern key : string) : bool :=
  forallb (fun part => is_substring part key) (split_on "*"%char pattern).

(** [invalidate_pattern] *)
Definition invalidate_pattern (self : t) (pattern : string) : Z * t :=
  let keys_to_delete :=
    filter (matches_pattern pattern) (dict_keys (cache self)) in
  (len keys_to_delete,
   set_cache self
     (fold_left (fun d key => dict_del key d) keys_to_delete (cache self))).

(** [clear] *)
Definition clear (self : t) : t := set_cache self [].

(** [len(self.cache)], the [size] of [get_stats] *)
Definition size (self : t) : Z := len (cache self).

(** What happens through an alias of a cached payload: the pipelines keep
    the dictionary they stored (or got back) and assign to one of its keys
    afterwards, which changes the entry held by the cache as well. *)
Definition mutate_data (self : t) (cache_key : string) (f : V -> V) : t :=
  set_cache self
    (map (fun p : string * entry =>
            if String.eqb cache_key (fst p)
            then (fst p,
                  {| data := f (data (snd p));
                     created_at := created_at (snd p);
                     last_accessed := last_accessed (snd p);
                     expires_at := expires_at (snd p) |})
            else p)
         (cache self)).

(** The operations of the class as data, to speak of sequences of calls;
    each carries the reading of the clock at the call. *)
Inductive op : Type :=
| OpGet (now : Q) (cache_key : string)
| OpSet (now : Q) (cache_key : string) (data_ : V) (ttl : option Z)
| OpInvalidate (cache_key : string)
| OpInvalidatePattern (pattern : string)
| OpClear.

Definition step (self : t) (o : op) : t :=
  match o with
  | OpGet now k => snd (get self now k)
  | OpSet now k v ttl => set self now k v ttl
  | OpInvalidate k => snd (invalidate self k)
  | OpInvalidatePattern p => snd (invalidate_pattern self p)
  | OpClear => clear self
  end.

Definition run (self : t) (ops : list op) : t := fold_left step ops self.

End WithData.

End AICache.

(** ** The analysis service ([property_analysis_service.py]) *)

(** *** Sequencing of calls that may raise *)

Definition bind {A B : Type} (m : py A) (k : A -> py B) : py B :=
  match m with
  | Return a => k a
  | Raise e => Raise e
  end.

Notation "x <- m ;; k" := (bind m (fun x => k))
  (at level 61, m at next level, right associativity).

(** [[f(x) for x in l]] where [f] may raise *)
Fixpoint map_py {A B : Type} (f : A -> py B) (l : list A) : py (list B) :=
  match l with
  | [] => Return []
  | x :: l' => y <- f x ;; ys <- map_py f l' ;; Return (y :: ys)
  end.

(** *** Records of the storage collaborator *)

(** The columns of [models/property.py] that the modelled code reads.
    [address] and [price] are not nullable. *)
Record Property : Type := mkProperty {
  id : Z;
  address : string;
  city : option string;
  price : Q;
  beds : option Z;
  baths : option Q;
  sqft : option Z;
  price_per_sqft : option Q;
  total_monthly_cost : option Q;
  days_on_market : option Z
}.

(** Truth value of a nullable number: [None] and zero are false. *)
Definition truthy_Q (x : option Q) : bool :=
  match x with
  | Some q => negb (Qeq_bool q 0)
  | None => false
  end.

Definition truthy_Z (x : option Z) : bool :=
  match x with
  | Some n => negb (n =? 0)
  | None => false
  end.

(** Truth value of a nullable string: [None] and [""] are false. *)
Definition truthy_str (x : option string) : bool :=
  match x with
  | Some EmptyString | None => false
  | Some _ => true
  end.

(** [float(x)] of a nullable integer column *)
Definition float_Z (x : option Z) : option Q := option_map inject_Z x.

(** [s.lower()] on ASCII letters *)
Definition lower_ascii (c : ascii) : ascii :=
  let n := nat_of_ascii c in
  if (65 <=? n)%nat && (n <=? 90)%nat then ascii_of_nat (n + 32) else c.

Fixpoint lower (s : string) : string :=
  match s with
  | EmptyString => EmptyString
  | String c s' => String (lower_ascii c) (lower s')
  end.

(** *** The scoring engine ([_score_properties]) *)

(** A key of a dictionary handed in by the caller, where the code tells a
    missing key from one that holds [None]: the key is missing, it holds
    [None] (as every field left out of a request does in the dictionary the
    router makes with [request.dict()]), or it holds a value. *)
Inductive slot (A : Type) : Type :=
| Absent
| Null
| Value (a : A).
Arguments Absent {A}.
Arguments Null {A}.
Arguments Value {A} a.

(** [criteria["priorities"]], with its keys [monthly_cost], [location],
    [value] and [space]. *)
Record Priorities : Type := mkPriorities {
  w_monthly_cost : slot Q;
  w_location : slot Q;
  w_value : slot Q;
  w_space : slot Q
}.

(** The [criteria] dictionary.  The keys [budget_max], [beds_min] and
    [baths_min] are only read under the test ["k" in criteria and
    criteria["k"]], for which a missing key and [None] are the same: [None]
    stands for both.  [lifestyle] is read by the text builders alone. *)
Record Criteria : Type := mkCriteria {
  budget_max : option Q;
  beds_min : option Z;
  baths_min : option Q;
  priorities : slot Priorities;
  lifestyle : option string;
  city_preference : slot string
}.

(** [max(l)] and [min(l)]: the first of the extremal elements;
    [ValueError] on an empty sequence. *)
Definition py_max (l : list Q) : py Q :=
  match l with
  | [] => Raise (ValueError "max() arg is an empty sequence")
  | x :: l' => Return (fold_left (fun m y => if Qgtb y m then y else m) l' x)
  end.

Definition py_min (l : list Q) : py Q :=
  match l with
  | [] => Raise (ValueError "min() arg is an empty sequence")
  | x :: l' => Return (fold_left (fun m y => if Qltb y m then y else m) l' x)
  end.

(** [[float(p.f) for p in properties if p.f]] *)
Fixpoint truthy_values (f : Property -> option Q) (properties : list Property)
  : list Q :=
  match properties with
  | [] => []
  | p :: ps =>
      match f p with
      | Some x => if truthy_Q (Some x) then x :: truthy_values f ps
                  else truthy_values f ps
      | None => truthy_values f ps
      end
  end.

(** The [scores] dictionary of one candidate.  A key that the code leaves
    unset is [None]. *)
Record Scores : Type := mkScores {
  s_monthly_cost : option Q;
  s_value : option Q;
  s_space : option Q;
  s_location : option Q
}.

(** Monthly cost score (lower is better). *)
Definition monthly_cost_score (properties : list Property) (prop : Property)
  : py (option Q) :=
  match total_monthly_cost prop with
  | Some x =>
      if truthy_Q (Some x) then
        max_monthly <- py_max (truthy_values total_monthly_cost properties) ;;
        min_monthly <- py_min (truthy_values total_monthly_cost properties) ;;
        if Qgtb max_monthly min_monthly then
          Return (Some (100 * (1 - (x - min_monthly)
                                    / (max_monthly - min_monthly)))%Q)
        else Return (Some 100%Q)
      else Return (Some 50%Q)
  | None => Return (Some 50%Q)
  end.

(** Value score (price per sqft, lower is better). *)
Definition value_score (properties : list Property) (prop : Property)
  : py (option Q) :=
  match price_per_sqft prop with
  | Some x =>
      if truthy_Q (Some x) then
        let price_sqfts := truthy_values price_per_sqft properties in
        match price_sqfts with
        | [] => Return None
        | _ :: _ =>
            max_psf <- py_max price_sqfts ;;
            min_psf <- py_min price_sqfts ;;
            if Qgtb max_psf min_psf then
              Return (Some (100 * (1 - (x - min_psf) / (max_psf - min_psf)))%Q)
            else Return (Some 100%Q)
        end
      else Return (Some 50%Q)
  | None => Return (Some 50%Q)
  end.

(** Space score (sqft, higher is better). *)
Definition space_score (properties : list Property) (prop : Property)
  : py (option Q) :=
  match float_Z (sqft prop) with
  | Some x =>
      if truthy_Q (Some x) then
        let sqfts := truthy_values (fun p => float_Z (sqft p)) properties in
        match sqfts with
        | [] => Return None
        | _ :: _ =>
            max_sqft <- py_max sqfts ;;
            min_sqft <- py_min sqfts ;;
            if Qgtb max_sqft min_sqft then
              Return (Some (100 * (x - min_sqft) / (max_sqft - min_sqft))%Q)
            else Return (Some 100%Q)
        end
      else Return (Some 50%Q)
  | None => Return (Some 50%Q)
  end.

(** Location score (city preference match).  [criteria.get(
    "city_preference", "").lower()] has no [lower] to call when the key
    holds [None]. *)
Definition location_score (criteria : Criteria) (prop : Property) : py Q :=
  city_pref <-
    match city_preference criteria with
    | Absent => Return (lower "")
    | Null =>
        Raise (AttributeError "'NoneType' object has no attribute 'lower'")
    | Value s => Return (lower s)
    end ;;
  match city prop with
  | Some c =>
      if truthy_str (Some city_pref) && truthy_str (Some c)
         && is_substring city_pref (lower c)
      then Return 100%Q
      else if truthy_str (Some c) then Return 60%Q else Return 50%Q
  | None => Return 50%Q
  end.

(** [float(priorities.get(k, 25))] for [priorities =
    criteria.get("priorities", {})]: a missing key counts 25, whereas
    [None] under ["priorities"] has no [get] and [None] under [k] is no
    number. *)
Definition weight (priorities_ : slot Priorities)
    (k : Priorities -> slot Q) : py Q :=
  match priorities_ with
  | Absent => Return 25%Q
  | Null => Raise (AttributeError "'NoneType' object has no attribute 'get'")
  | Value p =>
      match k p with
      | Absent => Return 25%Q
      | Null =>
          Raise (TypeError
                   "float() argument must be a string or a real number, not 'NoneType'")
      | Value w => Return w
      end
  end.

(** The divisor of the weights: their sum, or 100 when the sum is zero. *)
Definition total_weight
    (monthly_cost_weight location_weight value_weight space_weight : Q) : Q :=
  let s := (monthly_cost_weight + location_weight + value_weight
            + space_weight)%Q in
  if Qeq_bool s 0 then 100%Q else s.

(** [scores[k]] *)
Definition scores_get (k : string) (x : option Q) : py Q :=
  match x with
  | Some v => Return v
  | None => Raise (KeyError k)
  end.

(** [round(x)] of a rational to the nearest integer, ties to even. *)
Definition round_half_even (x : Q) : Z :=
  let n := Qnum x in
  let d := Zpos (Qden x) in
  match (2 * (n mod d) ?= d) with
  | Lt => n / d
  | Gt => n / d + 1
  | Eq => if Z.even (n / d) then n / d else n / d + 1
  end.

(** [round(x, 1)], on the exact rational: the code rounds the binary float
    nearest to it, which can fall on the other side of a tie. *)
Definition round1 (x : Q) : Q := round_half_even (x * 10)%Q # 10.

(** One element of the list [scored]. *)
Record Scored : Type := mkScored {
  property : Property;
  score : Q;
  scores : Scores
}.

(** The body of the [for prop in properties] loop, for the weights and
    the divisor computed before the loop. *)
Definition score_one (properties : list Property) (criteria : Criteria)
    (monthly_cost_weight location_weight value_weight space_weight
       total_weight_ : Q)
    (prop : Property) : py Scored :=
  mc <- monthly_cost_score properties prop ;;
  va <- value_score properties prop ;;
  sp <- space_score properties prop ;;
  lo <- location_score criteria prop ;;
  let scores_ :=
    {| s_monthly_cost := mc; s_value := va; s_space := sp;
       s_location := Some lo |} in
  a <- scores_get "monthly_cost" (s_monthly_cost scores_) ;;
  b <- scores_get "value" (s_value scores_) ;;
  c <- scores_get "space" (s_space scores_) ;;
  d <- scores_get "location" (s_location scores_) ;;
  let total_score :=
    (a * (monthly_cost_weight / total_weight_)
     + b * (value_weight / total_weight_)
     + c * (space_weight / total_weight_)
     + d * (location_weight / total_weight_))%Q in
  Return {| property := prop; score := round1 total_score;
            scores := scores_ |}.

(** [scored.sort(key=lambda x: x["score"], reverse=True)]: a stable sort,
    highest score first. *)
Fixpoint insert_desc (x : Scored) (l : list Scored) : list Scored :=
  match l with
  | [] => [x]
  | y :: l' =>
      if Qgtb (score y) (score x) then y :: insert_desc x l'
      else x :: y :: l'
  end.

Definition sort_desc (l : list Scored) : list Scored :=
  fold_right insert_desc [] l.

(** [_score_properties] *)
Definition _score_properties (properties : list Property)
    (criteria : Criteria) : py (list Scored) :=
  let priorities_ := priorities criteria in
  monthly_cost_weight <- weight priorities_ w_monthly_cost ;;
  location_weight <- weight priorities_ w_location ;;
  value_weight <- weight priorities_ w_value ;;
  space_weight <- weight priorities_ w_space ;;
  let total_weight_ :=
    total_weight monthly_cost_weight location_weight value_weight
      space_weight in
  scored <- map_py (score_one properties criteria monthly_cost_weight
                      location_weight value_weight space_weight
                      total_weight_) properties ;;
  Return (sort_desc scored).

(** *** Days on market ([_analyze_dom_distribution]) *)

Record DomDistribution : Type := mkDom {
  avg_dom : Q;
  fast_moving : Z;
  moderate : Z;
  slow_moving : Z;
  fast_moving_pct : option Q;
  market_temperature : string;
  total_analyzed : option Z
}.

(** [[p.days_on_market for p in properties if p.days_on_market is not None]] *)
Fixpoint dom_values_of (properties : list Property) : list Z :=
  match properties with
  | [] => []
  | p :: ps =>
      match days_on_market p with
      | Some d => d :: dom_values_of ps
      | None => dom_values_of ps
      end
  end.

Definition sum_Z (l : list Z) : Z := fold_left Z.add l 0.

(** The percentage of fast-moving listings. *)
Definition fast_pct_of (fast_moving_ total : Z) : Q :=
  if total >? 0 then (inject_Z fast_moving_ / inject_Z total * 100)%Q
  else 0%Q.

(** The [if]/[elif] chain on [fast_pct]. *)
Definition temperature_of (fast_pct : Q) : string :=
  if Qgtb fast_pct 60 then "hot"
  else if Qgtb fast_pct 40 then "warm"
  else if Qgtb fast_pct 20 then "cool"
  else "cold".

Definition _analyze_dom_distribution (properties : list Property)
  : DomDistribution :=
  let dom_values := dom_values_of properties in
  match dom_values with
  | [] =>
      {| avg_dom := 0; fast_moving := 0; moderate := 0; slow_moving := 0;
         fast_moving_pct := None; market_temperature := "unknown";
         total_analyzed := None |}
  | _ :: _ =>
      let fast_moving_ := len (filter (fun d => d <=? 14) dom_values) in
      let moderate_ :=
        len (filter (fun d => (14 <? d) && (d <=? 45)) dom_values) in
      let slow_moving_ := len (filter (fun d => d >? 45) dom_values) in
      let total := len dom_values in
      let fast_pct := fast_pct_of fast_moving_ total in
      {| avg_dom := (inject_Z (sum_Z dom_values) / inject_Z (len dom_values))%Q;
         fast_moving := fast_moving_;
         moderate := moderate_;
         slow_moving := slow_moving_;
         fast_moving_pct := Some fast_pct;
         market_temperature := temperature_of fast_pct;
         total_analyzed := Some total |}
  end.

(** *** Payloads *)

(** JSON values, as [json.loads] returns them and as the results carry
    them. *)
#[warnings="-register-all"]
Inductive json : Type :=
| JNull
| JBool (b : bool)
| JNum (q : Q)
| JStr (s : string)
| JArr (items : list json)
| JObj (members : list (string * json)).

(** [parsed.get(k, default)] *)
Fixpoint json_get (k : string) (members : list (string * json))
    (default : json) : json :=
  match members with
  | [] => default
  | (k', v) :: rest => if String.eqb k k' then v else json_get k rest default
  end.

(** [k in parsed] *)
Fixpoint json_mem (k : string) (members : list (string * json)) : bool :=
  match members with
  | [] => false
  | (k', _) :: rest => String.eqb k k' || json_mem k rest
  end.

(** One element of the [properties] list of a comparison. *)
Record PropertyDetail : Type := mkDetail {
  property_id : Z;
  property_letter : string;
  pd_address : string;
  pd_city : option string;
  pd_price : Q;
  pd_monthly_cost : option Q;
  pd_sqft : option Z;
  pd_price_per_sqft : option Q
}.

(** The dictionary a pipeline returns.  The keys the checked properties
    speak of have a field of their own; [fields] holds the other keys.  A
    key that is not set is [None]. *)
Record Result : Type := mkResult {
  fields : list (string * json);
  properties : option (list PropertyDetail);
  confidence : string;
  error : option string;
  from_cache : option bool
}.

(** [result["error"] = msg] *)
Definition set_error (msg : string) (r : Result) : Result :=
  {| fields := fields r; properties := properties r;
     confidence := confidence r; error := Some msg;
     from_cache := from_cache r |}.

(** [result["from_cache"] = b] *)
Definition set_from_cache (b : bool) (r : Result) : Result :=
  {| fields := fields r; properties := properties r;
     confidence := confidence r; error := error r;
     from_cache := Some b |}.

(** *** The service object and its collaborators *)

(** The [filters] dictionary of [_fetch_properties]. *)
Record Filters : Type := mkFilters {
  f_price_min : option Q;
  f_price_max : option Q;
  f_beds : option Z;
  f_baths : option Q;
  f_city : option string
}.

Definition no_filters : Filters := mkFilters None None None None None.

(** The keyword arguments from which a cache key is made. *)
Inductive CacheParams : Type :=
| SummaryParams (filters : Filters) (max_properties : Z)
| RecommendParams (criteria : Criteria)
| CompareParams (property_ids : list Z) (aspects : list string)
| MarketParams (region time_period focus : string).

(** What a request meets outside the service: the table of properties, the
    filtered and ordered query of [_fetch_properties], and the generative
    model ([generate_content(prompt).text], which may raise). *)
Record Env : Type := mkEnv {
  db_properties : list Property;
  fetch_properties : Filters -> Z -> list Property;
  generate_content : string -> py string
}.

(** The state of a [PropertyAnalysisService] together with the clock.
    [acquired] is a log, not an attribute of the object: the outcome of every
    call of [rate_limiter.acquire] the pipelines made, oldest first. *)
Record Service : Type := mkService {
  cache : AICache.t Result;
  rate_limiter : RateLimiter.t;
  clock : Clock;
  acquired : list (py unit)
}.

(** [__init__]: a cache of 500 entries and the limits 15 and 1500. *)
Definition new_service (now : Q) : Service :=
  {| cache := AICache.init Result 500 3600;
     rate_limiter := RateLimiter.default;
     clock := mkClock now [];
     acquired := [] |}.

Definition with_cache (s : Service) (c : AICache.t Result) : Service :=
  {| cache := c; rate_limiter := rate_limiter s; clock := clock s;
     acquired := acquired s |}.

(** Computations on the service: they read and change its state and may
    raise.  What was changed before an exception stays changed. *)
Definition M (A : Type) : Type := Service -> py A * Service.

Definition ret {A : Type} (a : A) : M A := fun s => (Return a, s).

Definition raise {A : Type} (e : exn) : M A := fun s => (Raise e, s).

Definition lift {A : Type} (m : py A) : M A := fun s => (m, s).

Definition bindM {A B : Type} (m : M A) (k : A -> M B) : M B :=
  fun s =>
    match m s with
    | (Return a, s') => k a s'
    | (Raise e, s') => (Raise e, s')
    end.

(** [try: m except Exception as e: handler(e)] *)
Definition try_except {A : Type} (m : M A) (handler : exn -> M A) : M A :=
  fun s =>
    match m s with
    | (Return a, s') => (Return a, s')
    | (Raise e, s') => handler e s'
    end.

Notation "x <<- m ;; k" := (bindM m (fun x => k))
  (at level 61, m at next level, right associativity).

(** [await self.cache.get(key)] *)
Definition cache_get (cache_key : string) : M (option Result) :=
  fun s =>
    let '(r, c) := AICache.get (cache s) (time_time (clock s)) cache_key in
    (Return r, with_cache s c).

(** [await self.cache.set(key, result, ttl=ttl)] *)
Definition cache_set (cache_key : string) (result : Result) (ttl : Z)
  : M unit :=
  fun s =>
    (Return tt,
     with_cache s
       (AICache.set (cache s) (time_time (clock s)) cache_key result
          (Some ttl))).

(** The assignment [d["from_cache"] = b] to a dictionary [d] that is also
    the payload of the cache entry [cache_key]. *)
Definition alias_from_cache (cache_key : string) (b : bool) : M unit :=
  fun s =>
    (Return tt,
     with_cache s
       (AICache.mutate_data (cache s) cache_key (set_from_cache b))).

(** [await self.rate_limiter.acquire()] *)
Definition rate_limiter_acquire : M unit :=
  fun s =>
    let '(r, rl, w) := RateLimiter.acquire (rate_limiter s) (clock s) in
    (r, {| cache := cache s; rate_limiter := rl; clock := w;
           acquired := acquired s ++ [r] |}).

(** *** Helpers of the pipelines with no state *)

(** [sorted(ids)] *)
Fixpoint insert_asc (x : Z) (l : list Z) : list Z :=
  match l with
  | [] => [x]
  | y :: l' => if y <? x then y :: insert_asc x l' else x :: y :: l'
  end.

Definition sorted (l : list Z) : list Z := fold_right insert_asc [] l.

(** [l[:n]] *)
Definition slice_to {A : Type} (n : Z) (l : list A) : list A :=
  if n <? 0 then firstn (List.length l - Z.to_nat (- n)) l
  else firstn (Z.to_nat n) l.

(** [chr(65 + i)] as a string of one character *)
Definition letter (i : nat) : string := String (ascii_of_nat (65 + i)) "".

(** [re.search(r'\{.*\}', text, re.DOTALL)]: from the first opening brace to
    the last closing brace after it. *)
Fixpoint from_first_open (s : string) : option string :=
  match s with
  | EmptyString => None
  | String c rest =>
      if Ascii.eqb c "{" then Some s else from_first_open rest
  end.

Fixpoint upto_last_close (s : string) : option string :=
  match s with
  | EmptyString => None
  | String c rest =>
      match upto_last_close rest with
      | Some t => Some (String c t)
      | None => if Ascii.eqb c "}" then Some (String c "") else None
      end
  end.

Definition search_braces (text : string) : option string :=
  match from_first_open text with
  | Some s => upto_last_close s
  | None => None
  end.

(** [x if x else None] after [float] *)
Definition float_if_truthy (x : option Q) : option Q :=
  if truthy_Q x then x else None.

(** The comprehension that builds [property_details]. *)
Fixpoint property_details_from (i : nat) (properties_ : list Property)
  : list PropertyDetail :=
  match properties_ with
  | [] => []
  | prop :: rest =>
      {| property_id := id prop;
         property_letter := letter i;
         pd_address := address prop;
         pd_city := city prop;
         pd_price := price prop;
         pd_monthly_cost := float_if_truthy (total_monthly_cost prop);
         pd_sqft := sqft prop;
         pd_price_per_sqft := float_if_truthy (price_per_sqft prop) |}
      :: property_details_from (S i) rest
  end.

(** [enumerate(l)] *)
Definition enumerate {A : Type} (l : list A) : list (nat * A) :=
  combine (seq 0 (List.length l)) l.

(** The sort key [x if x else float('inf')]; [None] is infinity. *)
Definition or_inf (x : option Q) : option Q := float_if_truthy x.

Definition lt_inf (a b : option Q) : bool :=
  match a, b with
  | Some x, Some y => Qltb x y
  | Some _, None => true
  | None, _ => false
  end.

(** [min(enumerate(properties), key=...)]: the first of the minimal items. *)
Definition min_by_key (key : Property -> option Q)
    (items : list (nat * Property)) : py (nat * Property) :=
  match items with
  | [] => Raise (ValueError "min() arg is an empty sequence")
  | first :: rest =>
      Return (fold_left
                (fun best x =>
                   if lt_inf (key (snd x)) (key (snd best)) then x else best)
                rest first)
  end.

(** A number under a format specification such as [,.0f]; [None] has no
    such format. *)
Definition format_spec (fmt : Q -> string) (x : option Q) : py string :=
  match x with
  | Some v => Return (fmt v)
  | None =>
      Raise (TypeError
               "unsupported format string passed to NoneType.__format__")
  end.

(** *** The four pipelines *)

(** Library functions and text builders that are taken as given: the digest
    of the serialised parameters ([hashlib.md5] of [json.dumps] with sorted
    keys, in hexadecimal), [json.loads] on a text that starts with an opening
    brace ([None] for [JSONDecodeError]), the two number formats ([,.0f] and
    [.2f]), and the methods of the service that only build text or
    statistics.  Those that run before or inside the [try] block may raise.
    The fallback generators of the summary, the recommendations and the
    market analysis format numbers that are always present and return; the
    one of the comparison is modelled below, as it can raise. *)
Record Library : Type := mkLibrary {
  hexdigest : CacheParams -> string;
  json_loads : string -> option (list (string * json));
  format_money : Q -> string;
  format_2f : Q -> string;

  _calculate_statistics : list Property -> py json;
  _format_properties_as_context : list Property -> py string;
  _build_summary_prompt : string -> Z -> json -> py string;
  _parse_summary_response : string -> json -> Z -> py Result;
  _generate_fallback_summary : list Property -> json -> Result;

  _format_recommendations_context : list Scored -> Criteria -> py string;
  _build_recommendation_prompt : string -> Criteria -> Z -> py string;
  _parse_recommendation_response : string -> list Scored -> py Result;
  _generate_fallback_recommendations : list Scored -> Result;

  _format_comparison_context : list Property -> py string;
  _build_comparison_prompt : string -> Z -> option (list string) -> py string;

  _calculate_market_stats : list Property -> py json;
  _format_market_context :
    list Property -> json -> DomDistribution -> py string;
  _build_market_analysis_prompt :
    string -> Z -> string -> string -> option string -> py string;
  _parse_market_analysis_response :
    string -> json -> DomDistribution -> py Result;
  _generate_fallback_market_analysis :
    list Property -> json -> DomDistribution -> Result
}.

Section Pipelines.

Variable lib : Library.

(** [AIResponseCache.generate_key] *)
Definition generate_key (analysis_type : string) (params : CacheParams)
  : string :=
  ("ai:" ++ analysis_type ++ ":" ++ hexdigest lib params)%string.

(** The lines that open each of the four methods:
    [cached = await self.cache.get(cache_key)], then, [if cached:],
    [cached["from_cache"] = True] and [return cached].  A cached dictionary
    is never empty, so [if cached:] holds whenever the lookup returns one.
    [miss] is the rest of the method. *)
Definition cached_or (cache_key : string) (miss : M Result) : M Result :=
  cached <<- cache_get cache_key ;;
  match cached with
  | Some cached_ =>
      _ <<- alias_from_cache cache_key true ;;
      ret (set_from_cache true cached_)
  | None => miss
  end.

(** The lines that close each of the four methods: the [try] block
    ([await self.rate_limiter.acquire()], [generate_content(prompt)],
    [response.text], the parser of the method), its clause
    [except Exception as e] (the fallback generator of the method, then
    [result["error"] = str(e)]), [await self.cache.set(cache_key, result,
    ttl=...)], [result["from_cache"] = False] and [return result].  The
    methods differ in the parser, the fallback generator and the [ttl]. *)
Definition call_or_fallback (env : Env) (cache_key : string)
    (prompt : string) (parse : string -> py Result) (fallback : py Result)
    (ttl : Z) : M Result :=
  result <<- try_except
               (_ <<- rate_limiter_acquire ;;
                ai_text <<- lift (generate_content env prompt) ;;
                lift (parse ai_text))
               (fun e =>
                  result <<- lift fallback ;;
                  ret (set_error (str e) result)) ;;
  _ <<- cache_set cache_key result ttl ;;
  _ <<- alias_from_cache cache_key false ;;
  ret (set_from_cache false result).

(** [summarize_properties] *)
Definition summarize_properties (env : Env) (filters : option Filters)
    (max_properties : Z) : M Result :=
  let filters_ := match filters with Some f => f | None => no_filters end in
  let cache_key :=
    generate_key "summary" (SummaryParams filters_ max_properties) in
  cached_or cache_key
    (let properties_ := fetch_properties env filters_ max_properties in
     match properties_ with
     | [] =>
         ret {| fields :=
                  [("summary"%string,
                    JStr "No properties found matching your criteria.");
                   ("key_insights"%string, JArr []);
                   ("statistics"%string, JObj []);
                   ("properties_analyzed"%string, JNum 0)];
                properties := None;
                confidence := "low";
                error := None;
                from_cache := Some false |}
     | _ :: _ =>
         statistics <<- lift (_calculate_statistics lib properties_) ;;
         context <<- lift (_format_properties_as_context lib properties_) ;;
         prompt <<- lift (_build_summary_prompt lib context (len properties_)
                            statistics) ;;
         call_or_fallback env cache_key prompt
           (fun ai_text =>
              _parse_summary_response lib ai_text statistics (len properties_))
           (Return (_generate_fallback_summary lib properties_ statistics))
           3600
     end).

(** [recommend_properties] *)
Definition recommend_properties (env : Env) (criteria : Criteria)
    (max_recommendations : Z) : M Result :=
  let cache_key := generate_key "recommend" (RecommendParams criteria) in
  cached_or cache_key
    (let filters :=
       {| f_price_min := None;
          f_price_max :=
            if truthy_Q (budget_max criteria) then budget_max criteria
            else None;
          f_beds :=
            if truthy_Z (beds_min criteria) then beds_min criteria else None;
          f_baths :=
            if truthy_Q (baths_min criteria) then baths_min criteria
            else None;
          f_city :=
            match city_preference criteria with
            | Value c => if truthy_str (Some c) then Some c else None
            | _ => None
            end |} in
     let properties_ := fetch_properties env filters 20 in
     match properties_ with
     | [] =>
         ret {| fields :=
                  [("recommendations"%string, JArr []);
                   ("message"%string,
                    JStr "No properties found matching your criteria.")];
                properties := None;
                confidence := "low";
                error := None;
                from_cache := Some false |}
     | _ :: _ =>
         scored_properties <<- lift (_score_properties properties_ criteria) ;;
         let top_properties :=
           slice_to max_recommendations scored_properties in
         context <<- lift (_format_recommendations_context lib top_properties
                             criteria) ;;
         prompt <<- lift (_build_recommendation_prompt lib context criteria
                            (len properties_)) ;;
         call_or_fallback env cache_key prompt
           (fun ai_text =>
              _parse_recommendation_response lib ai_text top_properties)
           (Return (_generate_fallback_recommendations lib top_properties))
           1800
     end).

(** [_generate_fallback_comparison] *)
Definition _generate_fallback_comparison (properties_ : list Property)
  : py Result :=
  let property_details := property_details_from 0 properties_ in
  monthly_winner <-
    min_by_key (fun p => or_inf (total_monthly_cost p))
               (enumerate properties_) ;;
  value_winner <-
    min_by_key (fun p => or_inf (price_per_sqft p)) (enumerate properties_) ;;
  monthly_text <-
    format_spec (format_money lib)
      (total_monthly_cost (snd monthly_winner)) ;;
  value_text <-
    format_spec (format_2f lib) (price_per_sqft (snd value_winner)) ;;
  let monthly_budget :=
    JObj [("property_letter"%string, JStr (letter (fst monthly_winner)));
          ("reason"%string,
           JStr ("Lowest monthly cost at $" ++ monthly_text))] in
  let space_value :=
    JObj [("property_letter"%string, JStr (letter (fst value_winner)));
          ("reason"%string,
           JStr ("Best value at $" ++ value_text ++ "/sqft"))] in
  Return
    {| fields :=
         [("summary"%string,
           JStr ("Comparing " ++ str_int (len properties_)
                 ++ " properties based on available data."));
          ("winners"%string,
           JObj [("monthly_budget"%string, monthly_budget);
                 ("space_value"%string, space_value)]);
          ("overall_recommendation"%string, monthly_budget)];
       properties := Some property_details;
       confidence := "low";
       error := None;
       from_cache := None |}.

(** [_parse_comparison_response] *)
Definition _parse_comparison_response (ai_text : string)
    (properties_ : list Property) : py Result :=
  let build (parsed : list (string * json)) : py Result :=
    Return
      {| fields :=
           [("summary"%string,
             json_get "summary" parsed
               (JStr "Comparison of selected properties"));
            ("winners"%string, json_get "winners" parsed (JObj []));
            ("overall_recommendation"%string,
             json_get "overall_recommendation" parsed (JObj []))];
         properties := Some (property_details_from 0 properties_);
         confidence := if json_mem "winners" parsed then "high" else "medium";
         error := None;
         from_cache := None |} in
  match search_braces ai_text with
  | Some json_match =>
      match json_loads lib json_match with
      | Some parsed => build parsed
      | None => _generate_fallback_comparison properties_
      end
  | None => build []
  end.

(** [properties_dict[pid]] for the dictionary
    [{p.id: p for p in properties}], where a later row replaces an earlier
    one with the same id. *)
Definition properties_dict_get (properties_ : list Property) (pid : Z)
  : py Property :=
  match find (fun p => id p =? pid) (rev properties_) with
  | Some p => Return p
  | None => Raise (KeyError (str_int pid))
  end.

(** [compare_properties] *)
Definition compare_properties (env : Env) (property_ids : list Z)
    (aspects : option (list string)) : M Result :=
  if len property_ids <? 2 then
    raise (ValueError "At least 2 properties required for comparison")
  else if len property_ids >? 5 then
    raise (ValueError "Maximum 5 properties can be compared at once")
  else
    let cache_key :=
      generate_key "compare"
        (CompareParams (sorted property_ids)
           (match aspects with Some (a :: l) => a :: l | _ => [] end)) in
    cached_or cache_key
      (let fetched :=
         filter (fun p => existsb (Z.eqb (id p)) property_ids)
                (db_properties env) in
       if negb (len fetched =? len property_ids) then
         raise (ValueError "One or more properties not found")
       else
         properties_ <<-
           lift (map_py (properties_dict_get fetched) property_ids) ;;
         context <<- lift (_format_comparison_context lib properties_) ;;
         prompt <<- lift (_build_comparison_prompt lib context (len properties_)
                            aspects) ;;
         call_or_fallback env cache_key prompt
           (fun ai_text => _parse_comparison_response ai_text properties_)
           (_generate_fallback_comparison properties_)
           7200).

(** [x or default] on strings *)
Definition str_or (x : option string) (default : string) : string :=
  match x with
  | Some (String c s) => String c s
  | _ => default
  end.

(** [analyze_market_trends] *)
Definition analyze_market_trends (env : Env) (region : option string)
    (time_period : string) (focus : option string) : M Result :=
  let cache_key :=
    generate_key "market_analysis"
      (MarketParams (str_or region "all") time_period
         (str_or focus "general")) in
  cached_or cache_key
    (let filters :=
       {| f_price_min := None; f_price_max := None; f_beds := None;
          f_baths := None;
          f_city := if truthy_str region then region else None |} in
     let properties_ := fetch_properties env filters 200 in
     match properties_ with
     | [] =>
         ret {| fields :=
                  [("analysis"%string,
                    JStr "No properties found in the specified region.");
                   ("trends"%string, JArr []);
                   ("statistics"%string, JObj [])];
                properties := None;
                confidence := "low";
                error := None;
                from_cache := Some false |}
     | _ :: _ =>
         stats <<- lift (_calculate_market_stats lib properties_) ;;
         let dom_distribution := _analyze_dom_distribution properties_ in
         market_context <<-
           lift (_format_market_context lib properties_ stats
                   dom_distribution) ;;
         prompt <<-
           lift (_build_market_analysis_prompt lib market_context
                   (len properties_) (str_or region "Salt Lake Valley")
                   time_period focus) ;;
         call_or_fallback env cache_key prompt
           (fun ai_text =>
              _parse_market_analysis_response lib ai_text stats
                dom_distribution)
           (Return (_generate_fallback_market_analysis lib properties_ stats
                      dom_distribution))
           14400
     end).

(** The four entry points as one: what a caller can ask of the service. *)
Inductive Request : Type :=
| Summarize (filters : option Filters) (max_properties : Z)
| Recommend (criteria : Criteria) (max_recommendations : Z)
| Compare (property_ids : list Z) (aspects : option (list string))
| AnalyzeMarket (region : option string) (time_period : string)
    (focus : option string).

Definition handle (env : Env) (req : Request) : M Result :=
  match req with
  | Summarize filters max_properties =>
      summarize_properties env filters max_properties
  | Recommend criteria max_recommendations =>
      recommend_properties env criteria max_recommendations
  | Compare property_ids aspects =>
      compare_properties env property_ids aspects
  | AnalyzeMarket region time_period focus =>
      analyze_market_trends env region time_period focus
  end.

(** The states a service can be in: a new one, one in which time has
    passed, one that has served a request.  In the table met by a request
    no two rows have the same [id], which is the primary key. *)
Inductive reachable : Service -> Prop :=
| reach_new (now : Q) : reachable (new_service now)
| reach_wait (s : Service) (d : Q) :
    reachable s -> (0 <= d)%Q ->
    reachable {| cache := cache s; rate_limiter := rate_limiter s;
                 clock := mkClock (clock_now (clock s) + d)%Q
                                  (clock_slept (clock s));
                 acquired := acquired s |}
| reach_handle (s : Service) (env : Env) (req : Request) :
    reachable s -> NoDup (map id (db_properties env)) ->
    reachable (snd (handle env req s)).

End Pipelines.

(** ** Notions used to state the properties *)

(** [x] is the value of field [f] of candidate [p]: present and not zero,
    which is what the tests [if prop.f:] of the scoring engine ask. *)
Definition has_value (f : Property -> option Q) (p : Property) (x : Q)
  : Prop :=
  f p = Some x /\ ~ (x == 0)%Q.

(** The least and the greatest value of a field across a pool. *)
Definition pool_min (f : Property -> option Q) (pool : list Property)
    (m : Q) : Prop :=
  (exists p, In p pool /\ has_value f p m)
  /\ forall p x, In p pool -> has_value f p x -> (m <= x)%Q.

Definition pool_max (f : Property -> option Q) (pool : list Property)
    (m : Q) : Prop :=
  (exists p, In p pool /\ has_value f p m)
  /\ forall p x, In p pool -> has_value f p x -> (x <= m)%Q.

(** What the specification asks of one dimension score: the normalised
    position of the candidate's value between the pool's extremes, 100 when
    the extremes coincide, 50 when the candidate has no value. *)
Definition normalised (lower_is_better : bool) (x mn mx : Q) : Q :=
  if lower_is_better then (100 * (1 - (x - mn) / (mx - mn)))%Q
  else (100 * (x - mn) / (mx - mn))%Q.

Definition dimension_spec (lower_is_better : bool)
    (f : Property -> option Q) (pool : list Property) (prop : Property)
    (result : py (option Q)) : Prop :=
  (forall x, has_value f prop x ->
     exists mn mx,
       pool_min f pool mn /\ pool_max f pool mx
       /\ ((mn < mx)%Q ->
           result = Return (Some (normalised lower_is_better x mn mx)))
       /\ ((mx == mn)%Q -> result = Return (Some 100%Q)))
  /\ (f prop = None -> result = Return (Some 50%Q))
  /\ (forall x, f prop = Some x -> (x == 0)%Q -> result = Return (Some 50%Q)).

(** The digest tells two lists of ids apart (no collision). *)
Definition digest_separates_ids (lib : Library) : Prop :=
  forall ids a ids' a',
    hexdigest lib (CompareParams ids a) = hexdigest lib (CompareParams ids' a')
    -> ids = ids'.

(** A cache key that, if it is the key of a comparison, is the key of a
    list of distinct ids. *)
Definition key_ok (lib : Library) (key : string) : Prop :=
  forall ids a,
    key = generate_key lib "compare" (CompareParams ids a) -> NoDup ids.

(** All the keys of the cache of a service are such. *)
Definition compare_keys_distinct (lib : Library) (s : Service) : Prop :=
  forall key,
    In key (AICache.dict_keys (AICache.cache (cache s))) -> key_ok lib key.

(** A computation that leaves this so. *)
Definition keeps {A : Type} (lib : Library) (m : M A) : Prop :=
  forall s, compare_keys_distinct lib s ->
            compare_keys_distinct lib (snd (m s)).

(** ** Concrete inputs of the examples *)

Definition listing (i : Z) (cost : option Q) : Property :=
  {| id := i; address := "1 Main St"; city := Some "Sandy"%string;
     price := 300000%Q; beds := Some 3; baths := Some 2%Q;
     sqft := Some 1500; price_per_sqft := Some 200%Q;
     total_monthly_cost := cost; days_on_market := Some 10 |}.

Definition cheapest : Property := listing 1 (Some 1000%Q).
Definition middle : Property := listing 2 (Some 1500%Q).
Definition dearest : Property := listing 3 (Some 2000%Q).

(** A pool given dearest first. *)
Definition pool_of_three : list Property := [dearest; middle; cheapest].

Definition criteria_with (p : slot Priorities) : Criteria :=
  {| budget_max := None; beds_min := None; baths_min := None;
     priorities := p; lifestyle := None; city_preference := Absent |}.

Definition zero_weights : Criteria :=
  criteria_with
    (Value (mkPriorities (Value 0%Q) (Value 0%Q) (Value 0%Q) (Value 0%Q))).

Definition equal_weights : Criteria :=
  criteria_with
    (Value (mkPriorities (Value 25%Q) (Value 25%Q) (Value 25%Q)
              (Value 25%Q))).

(** A limiter that has let a request through every four seconds, 1500 of them:
    fifteen in every minute, and the 1500 of the day. *)
Definition every_four_seconds (n : nat) : list Q :=
  map (fun i => inject_Z (4 * Z.of_nat i)) (seq 0 n).

Definition busy_limiter : RateLimiter.t :=
  RateLimiter.set_requests RateLimiter.default
    (skipn 1485 (every_four_seconds 1500)) (every_four_seconds 1500).

(** A service with this limiter and an empty cache, at time [now]. *)
Definition busy_service (now : Q) : Service :=
  {| cache := AICache.init Result 500 3600;
     rate_limiter := busy_limiter;
     clock := mkClock now [];
     acquired := [] |}.

(** A digest that tells any two lists of ids apart: each id in unary, with
    a terminator. *)
Fixpoint unary (n : nat) (rest : string) : string :=
  match n with
  | O => String "0" rest
  | S n' => String "1" (unary n' rest)
  end.

Definition zigzag (z : Z) : nat :=
  Z.to_nat (if z <? 0 then - 2 * z - 1 else 2 * z).

Fixpoint encode_ids (ids : list Z) : string :=
  match ids with
  | [] => EmptyString
  | z :: rest => unary (zigzag z) (encode_ids rest)
  end.

Definition demo_result (confidence_ : string) : Result :=
  {| fields := []; properties := None; confidence := confidence_;
     error := None; from_cache := None |}.

(** Collaborators for the examples: a digest of the ids, a [json.loads]
    that reads every text as the empty object, and text builders that
    return fixed answers. *)
Definition demo_lib : Library :=
  {| hexdigest :=
       fun p => match p with
                | CompareParams ids _ => encode_ids ids
                | _ => EmptyString
                end;
     json_loads := fun _ => Some [];
     format_money := fun _ => "0"%string;
     format_2f := fun _ => "0.00"%string;
     _calculate_statistics := fun _ => Return (JObj []);
     _format_properties_as_context := fun _ => Return EmptyString;
     _build_summary_prompt := fun _ _ _ => Return "summarize"%string;
     _parse_summary_response := fun _ _ _ => Return (demo_result "high");
     _generate_fallback_summary := fun _ _ => demo_result "low";
     _format_recommendations_context := fun _ _ => Return EmptyString;
     _build_recommendation_prompt := fun _ _ _ => Return "recommend"%string;
     _parse_recommendation_response := fun _ _ => Return (demo_result "high");
     _generate_fallback_recommendations := fun _ => demo_result "medium";
     _format_comparison_context := fun _ => Return EmptyString;
     _build_comparison_prompt := fun _ _ _ => Return "compare"%string;
     _calculate_market_stats := fun _ => Return (JObj []);
     _format_market_context := fun _ _ _ => Return EmptyString;
     _build_market_analysis_prompt :=
       fun _ _ _ _ _ => Return "analyze"%string;
     _parse_market_analysis_response :=
       fun _ _ _ => Return (demo_result "high");
     _generate_fallback_market_analysis := fun _ _ _ => demo_result "medium"
  |}.

(** A table with the properties 7 and 42 and a model that answers with an
    empty JSON object. *)
Definition demo_env : Env :=
  {| db_properties := [listing 7 (Some 1800%Q); listing 42 (Some 1200%Q)];
     fetch_properties :=
       fun _ _ => [listing 7 (Some 1800%Q); listing 42 (Some 1200%Q)];
     generate_content := fun _ => Return "{}"%string |}.

(** The letter given to each id in the [properties] of a result. *)
Definition letter_mapping (out : py Result) : option (list (Z * string)) :=
  match out with
  | Return r =>
      option_map (map (fun d => (property_id d, property_letter d)))
                 (properties r)
  | Raise _ => None
  end.

(** A full cache of two entries, ["a"] the least recently used. *)
Definition full_cache : AICache.t string :=
  {| AICache.max_size := 2;
     AICache.default_ttl := 3600;
     AICache.cache :=
       [("a"%string, AICache.mkEntry "A"%string 1 1 3601);
        ("b"%string, AICache.mkEntry "B"%string 2 2 3602)] |}.

(** ** Notions used by the further properties *)

(** The test of [_cleanup_old_requests]: the request made at [t] is still
    inside the window at [now]. *)
Definition fresh (window now t : Q) : bool := Qltb (now - t)%Q window.

(** Time passes outside the limiter. *)
Definition tick (d : Q) (w : Clock) : Clock :=
  {| clock_now := (clock_now w + d)%Q; clock_slept := clock_slept w |}.

(** A caller that, for each delay in turn, lets the delay pass and calls
    [acquire]; [granted] collects the times at which a call returned. *)
Fixpoint acquire_all (delays : list Q) (self : RateLimiter.t) (w : Clock)
    (granted : list Q) : RateLimiter.t * Clock * list Q :=
  match delays with
  | [] => (self, w, granted)
  | d :: delays' =>
      let '(r, self', w') := RateLimiter.acquire self (tick d w) in
      acquire_all delays' self' w'
        (match r with
         | Return _ => granted ++ [clock_now w']
         | Raise _ => granted
         end)
  end.

(** The limits are respected by a sequence of granted calls: at each grant,
    the grants so far that fall in the window ending at it, itself included,
    are no more than the window allows. *)
Definition grants_within (self : RateLimiter.t) (granted : list Q) : Prop :=
  forall pre a post,
    granted = pre ++ a :: post ->
    len (filter (fresh (RateLimiter.minute_window self) a) (pre ++ [a]))
      <= RateLimiter.max_per_minute self
    /\ len (filter (fresh (RateLimiter.day_window self) a) (pre ++ [a]))
       <= RateLimiter.max_per_day self.

(** The limiter remembers every grant that can still matter: from the time
    of the clock on, a purge of its windows and a purge of the grants leave
    the same. *)
Definition windows_agree (self : RateLimiter.t) (w : Clock)
    (granted : list Q) : Prop :=
  forall c,
    (clock_now w <= c)%Q ->
    filter (fresh (RateLimiter.minute_window self) c)
           (RateLimiter.minute_requests self)
    = filter (fresh (RateLimiter.minute_window self) c) granted
    /\ filter (fresh (RateLimiter.day_window self) c)
              (RateLimiter.day_requests self)
       = filter (fresh (RateLimiter.day_window self) c) granted.

(** A ranking: no element is followed by one with a higher score. *)
Fixpoint descending (l : list Scored) : Prop :=
  match l with
  | [] => True
  | x :: l' =>
      (forall y, In y l' -> (score y <= score x)%Q) /\ descending l'
  end.

(** A dimension score that is set and lies between 0 and 100. *)
Definition in_range (x : option Q) : Prop :=
  exists v, x = Some v /\ (0 <= v <= 100)%Q.

(** ** Notions used by the further properties of the pipelines *)

(** The service [d] seconds later, nothing having been asked of it in
    between. *)
Definition later (d : Q) (s : Service) : Service :=
  {| cache := cache s; rate_limiter := rate_limiter s;
     clock := tick d (clock s); acquired := acquired s |}.

(** The cache key each method makes of its arguments. *)
Definition request_key (lib : Library) (req : Request) : string :=
  match req with
  | Summarize filters max_properties =>
      generate_key lib "summary"
        (SummaryParams
           (match filters with Some f => f | None => no_filters end)
           max_properties)
  | Recommend criteria _ =>
      generate_key lib "recommend" (RecommendParams criteria)
  | Compare property_ids aspects =>
      generate_key lib "compare"
        (CompareParams (sorted property_ids)
           (match aspects with Some (a :: l) => a :: l | _ => [] end))
  | AnalyzeMarket region time_period focus =>
      generate_key lib "market_analysis"
        (MarketParams (str_or region "all") time_period
           (str_or focus "general"))
  end.

(** The [ttl] each method passes to [cache.set], in seconds. *)
Definition ttl_of (req : Request) : Z :=
  match req with
  | Summarize _ _ => 3600
  | Recommend _ _ => 1800
  | Compare _ _ => 7200
  | AnalyzeMarket _ _ _ => 14400
  end.

(** The cache of [s] holds [r] under [key], to expire [ttl] seconds after
    the present reading of the clock. *)
Definition stored (key : string) (ttl : Z) (r : Result) (s : Service)
  : Prop :=
  exists e,
    AICache.dict_get key (AICache.cache (cache s)) = Some e
    /\ AICache.data e = r
    /\ AICache.expires_at e = (clock_now (clock s) + inject_Z ttl)%Q.

(** The table and the query of the examples with a model that fails. *)
Definition failing_env (e : exn) : Env :=
  {| db_properties := db_properties demo_env;
     fetch_properties := fetch_properties demo_env;
     generate_content := fun _ => Raise e |}.

(** The table of the examples behind a query that selects by city. *)
Definition city_env : Env :=
  {| db_properties := db_properties demo_env;
     fetch_properties :=
       fun filters _ =>
         match f_city filters with
         | Some c =>
             filter (fun p => match city p with
                              | Some c' => is_substring (lower c) (lower c')
                              | None => false
                              end)
                    (db_properties demo_env)
         | None => db_properties demo_env
         end;
     generate_content := generate_content demo_env |}.

(** An empty table. *)
Definition empty_env : Env :=
  {| db_properties := [];
     fetch_properties := fun _ _ => [];
     generate_content := generate_content demo_env |}.

(** Field [f] gives the fallback comparison no number to print: the first
    property has [None] there, and no other has a value that counts (one
    that is neither [None] nor zero). *)
Definition no_number (f : Property -> option Q) (properties_ : list Property)
  : Prop :=
  match properties_ with
  | [] => False
  | p :: rest => f p = None /\ forall q, In q rest -> or_inf (f q) = None
  end.

(** The rows a request works on once the cache has nothing for it: the
    answer of the query for a summary, for recommendations and for a market
    analysis; for a comparison the rows of the requested ids, in the order
    of the request. *)
Definition selection (env : Env) (req : Request) : py (list Property) :=
  match req with
  | Summarize filters max_properties =>
      Return (fetch_properties env
                (match filters with Some f => f | None => no_filters end)
                max_properties)
  | Recommend criteria _ =>
      Return (fetch_properties env
                {| f_price_min := None;
                   f_price_max :=
                     if truthy_Q (budget_max criteria)
                     then budget_max criteria else None;
                   f_beds :=
                     if truthy_Z (beds_min criteria)
                     then beds_min criteria else None;
                   f_baths :=
                     if truthy_Q (baths_min criteria)
                     then baths_min criteria else None;
                   f_city :=
                     match city_preference criteria with
                     | Value c => if truthy_str (Some c) then Some c else None
                     | _ => None
                     end |}
                20)
  | Compare property_ids _ =>
      let fetched :=
        filter (fun p => existsb (Z.eqb (id p)) property_ids)
               (db_properties env) in
      if negb (len fetched =? len property_ids) then
        Raise (ValueError "One or more properties not found")
      else map_py (properties_dict_get fetched) property_ids
  | AnalyzeMarket region _ _ =>
      Return (fetch_properties env
                {| f_price_min := None; f_price_max := None; f_beds := None;
                   f_baths := None;
                   f_city := if truthy_str region then region else None |}
                200)
  end.

(** The prompt a request has built when it enters its [try] block. *)
Definition prompt_of (lib : Library) (env : Env) (req : Request)
  : py string :=
  properties_ <- selection env req ;;
  match req with
  | Summarize _ _ =>
      statistics <- _calculate_statistics lib properties_ ;;
      context <- _format_properties_as_context lib properties_ ;;
      _build_summary_prompt lib context (len properties_) statistics
  | Recommend criteria max_recommendations =>
      scored_properties <- _score_properties properties_ criteria ;;
      context <- _format_recommendations_context lib
                   (slice_to max_recommendations scored_properties)
                   criteria ;;
      _build_recommendation_prompt lib context criteria (len properties_)
  | Compare _ aspects =>
      context <- _format_comparison_context lib properties_ ;;
      _build_comparison_prompt lib context (len properties_) aspects
  | AnalyzeMarket region time_period focus =>
      stats <- _calculate_market_stats lib properties_ ;;
      market_context <-
        _format_market_context lib properties_ stats
          (_analyze_dom_distribution properties_) ;;
      _build_market_analysis_prompt lib market_context (len properties_)
        (str_or region "Salt Lake Valley") time_period focus
  end.

(** The deterministic answer of a request: what the fallback generator of
    its method makes of the rows the request works on. *)
Definition fallback_of (lib : Library) (env : Env) (req : Request)
  : py Result :=
  properties_ <- selection env req ;;
  match req with
  | Summarize _ _ =>
      statistics <- _calculate_statistics lib properties_ ;;
      Return (_generate_fallback_summary lib properties_ statistics)
  | Recommend criteria max_recommendations =>
      scored_properties <- _score_properties properties_ criteria ;;
      Return (_generate_fallback_recommendations lib
                (slice_to max_recommendations scored_properties))
  | Compare _ _ => _generate_fallback_comparison lib properties_
  | AnalyzeMarket _ _ _ =>
      stats <- _calculate_market_stats lib properties_ ;;
      Return (_generate_fallback_market_analysis lib properties_ stats
                (_analyze_dom_distribution properties_))
  end.

(** How a request ends when an exception [e] was raised in its [try]
    block: with the deterministic answer of this very request, to which the
    message of [e] was added under [error] and [False] under [from_cache];
    or, for a comparison alone, with the [TypeError] of its fallback
    generator, which has no number to print for one of its winners. *)
Definition absorbed (lib : Library) (env : Env) (req : Request) (e : exn)
    (out : py Result) : Prop :=
  (exists r,
     fallback_of lib env req = Return r
     /\ out = Return (set_from_cache false (set_error (str e) r)))
  \/ (exists property_ids aspects properties_,
        req = Compare property_ids aspects
        /\ selection env req = Return properties_
        /\ (no_number total_monthly_cost properties_
            \/ no_number price_per_sqft properties_)
        /\ out = Raise (TypeError
                    "unsupported format string passed to NoneType.__format__")).

(** What the part of a method that follows a failed lookup does.  Either it
    leaves the service as it is, and what it returns is marked as not from
    the cache; or it calls the limiter once, what it returns is marked so
    and stored under the key of the request for its time to live, and an
    exception of the limiter, or of the model once the limiter has let the
    call through, is absorbed. *)
Definition after_lookup (lib : Library) (env : Env) (req : Request)
    (m : M Result) : Prop :=
  forall s,
    (snd (m s) = s
     /\ forall r, fst (m s) = Return r -> from_cache r = Some false)
    \/ (exists a,
          acquired (snd (m s)) = acquired s ++ [a]
          /\ (forall r, fst (m s) = Return r ->
                stored (request_key lib req) (ttl_of req) r (snd (m s))
                /\ from_cache r = Some false)
          /\ (forall e, a = Raise e -> absorbed lib env req e (fst (m s)))
          /\ (a = Return tt ->
              forall prompt e,
                prompt_of lib env req = Return prompt ->
                generate_content env prompt = Raise e ->
                absorbed lib env req e (fst (m s)))).


(** ** The statistics of a selection ([_calculate_statistics] and
    [_calculate_market_stats]), on their own *)

Module Statistics.

(** [sum(l)] of floats *)
Definition sum_Q (l : list Q) : Q := fold_left Qplus l 0%Q.

(** [sorted(l)] of floats: stable, ascending. *)
Fixpoint insert_Q (x : Q) (l : list Q) : list Q :=
  match l with
  | [] => [x]
  | y :: l' => if Qltb y x then y :: insert_Q x l' else x :: y :: l'
  end.

Definition sorted_Q (l : list Q) : list Q := fold_right insert_Q [] l.

(** [l[i]], with Python's negative indices and [IndexError]. *)
Definition getitem {A : Type} (l : list A) (i : Z) : py A :=
  let j := if i <? 0 then len l + i else i in
  if j <? 0 then Raise (IndexError "list index out of range")
  else
    match nth_error l (Z.to_nat j) with
    | Some x => Return x
    | None => Raise (IndexError "list index out of range")
    end.

(** [sum(l) / len(l) if l else 0], as the exact quotient of the exact sum;
    the code computes both in binary floating point, so that its average can
    differ from this one in the last digits (and the average of equal prices
    need not be that price).  Nothing is stated below of the averages. *)
Definition mean (l : list Q) : Q :=
  match l with
  | [] => 0%Q
  | _ :: _ => (sum_Q l / inject_Z (len l))%Q
  end.

(** [sorted(l)[len(l) // 2] if l else 0] *)
Definition median (l : list Q) : py Q :=
  match l with
  | [] => Return 0%Q
  | _ :: _ => getitem (sorted_Q l) (len l / 2)
  end.

(** [min(l) if l else 0] and [max(l) if l else 0] *)
Definition min_or_0 (l : list Q) : py Q :=
  match l with
  | [] => Return 0%Q
  | _ :: _ => py_min l
  end.

Definition max_or_0 (l : list Q) : py Q :=
  match l with
  | [] => Return 0%Q
  | _ :: _ => py_max l
  end.

(** [[float(p.price) for p in properties if p.price]] *)
Definition prices_of (properties_ : list Property) : list Q :=
  truthy_values (fun p => Some (price p)) properties_.

(** [d[k] = d.get(k, 0) + 1] on a dictionary of counts, the keys in
    insertion order. *)
Fixpoint count_up (k : string) (d : list (string * Z)) : list (string * Z) :=
  match d with
  | [] => [(k, 1)]
  | (k', n) :: d' =>
      if String.eqb k k' then (k', n + 1) :: d'
      else (k', n) :: count_up k d'
  end.

(** [max(d.items(), key=lambda x: x[1])]: the first of the items with the
    greatest count. *)
Definition max_by_count (items : list (string * Z)) : py (string * Z) :=
  match items with
  | [] => Raise (ValueError "max() arg is an empty sequence")
  | first :: rest =>
      Return (fold_left
                (fun best x => if snd x >? snd best then x else best)
                rest first)
  end.

(** The dictionary [_calculate_statistics] returns for a selection that is
    not empty. *)
Record t : Type := mk {
  count : Z;
  avg_price : Q;
  median_price : Q;
  min_price : Q;
  max_price : Q;
  avg_monthly_cost : Q;
  avg_price_per_sqft : Q;
  most_common_city : option string;
  cities : list string
}.

(** The loop that fills [city_counts]: properties without a city are
    passed over. *)
Definition city_counts_of (properties_ : list Property)
  : list (string * Z) :=
  fold_left
    (fun d p =>
       match city p with
       | Some c => if truthy_str (Some c) then count_up c d else d
       | None => d
       end)
    properties_ [].

(** [_calculate_statistics]; [None] stands for the empty dictionary
    returned for an empty selection. *)
Definition _calculate_statistics (properties_ : list Property)
  : py (option t) :=
  match properties_ with
  | [] => Return None
  | _ :: _ =>
      let prices := prices_of properties_ in
      let monthly_costs := truthy_values total_monthly_cost properties_ in
      let price_per_sqft_ := truthy_values price_per_sqft properties_ in
      let city_counts := city_counts_of properties_ in
      most_common_city_ <-
        match city_counts with
        | [] => Return None
        | _ :: _ => c <- max_by_count city_counts ;; Return (Some (fst c))
        end ;;
      median_price_ <- median prices ;;
      min_price_ <- min_or_0 prices ;;
      max_price_ <- max_or_0 prices ;;
      Return
        (Some {| count := len properties_;
                 avg_price := mean prices;
                 median_price := median_price_;
                 min_price := min_price_;
                 max_price := max_price_;
                 avg_monthly_cost := mean monthly_costs;
                 avg_price_per_sqft := mean price_per_sqft_;
                 most_common_city := most_common_city_;
                 cities := map fst city_counts |})
  end.

(** The number of the properties of a selection that lie in city [c]. *)
Definition in_city (c : string) (properties_ : list Property) : Z :=
  len (filter (fun p => match city p with
                        | Some c' => String.eqb c' c
                        | None => false
                        end) properties_).

(** [d.get(k, 0)] *)
Fixpoint count_of (k : string) (d : list (string * Z)) : Z :=
  match d with
  | [] => 0
  | (k', n) :: d' => if String.eqb k k' then n else count_of k d'
  end.

End Statistics.

Module MarketStatistics.

(** The dictionary [_calculate_market_stats] returns. *)
Record t : Type := mk {
  total_properties : Z;
  avg_price : Q;
  median_price : Q;
  min_price : Q;
  max_price : Q;
  avg_monthly_cost : Q;
  avg_price_per_sqft : Q;
  avg_days_on_market : Q;
  median_days_on_market : Z;
  city_distribution : list (string * Z)
}.

(** [_calculate_market_stats] *)
Definition _calculate_market_stats (properties_ : list Property) : py t :=
  let prices := Statistics.prices_of properties_ in
  let monthly_costs := truthy_values total_monthly_cost properties_ in
  let price_per_sqft_ := truthy_values price_per_sqft properties_ in
  let dom := dom_values_of properties_ in
  median_price_ <- Statistics.median prices ;;
  min_price_ <- Statistics.min_or_0 prices ;;
  max_price_ <- Statistics.max_or_0 prices ;;
  median_dom <-
    match dom with
    | [] => Return 0
    | _ :: _ => Statistics.getitem (sorted dom) (len dom / 2)
    end ;;
  let city_counts :=
    fold_left
      (fun d prop => Statistics.count_up (str_or (city prop) "Unknown") d)
      properties_ [] in
  Return
    {| total_properties := len properties_;
       avg_price := Statistics.mean prices;
       median_price := median_price_;
       min_price := min_price_;
       max_price := max_price_;
       avg_monthly_cost := Statistics.mean monthly_costs;
       avg_price_per_sqft := Statistics.mean price_per_sqft_;
       avg_days_on_market :=
         match dom with
         | [] => 0%Q
         | _ :: _ => (inject_Z (sum_Z dom) / inject_Z (len dom))%Q
         end;
       median_days_on_market := median_dom;
       city_distribution := city_counts |}.

(** The properties of a selection filed under the label [c]: those of city
    [c], or, for ["Unknown"], also those without a city. *)
Definition filed_under (c : string) (properties_ : list Property) : Z :=
  len (filter (fun p => String.eqb (str_or (city p) "Unknown") c)
              properties_).

End MarketStatistics.

(** Figures that fit the prices of a selection: all zero when no property
    has a price that counts; otherwise the least price, the greatest, and
    one of the prices between them. *)
Definition fit_prices (properties_ : list Property) (mn md mx : Q) : Prop :=
  ((forall p, In p properties_ -> (price p == 0)%Q)
   /\ mn = 0%Q /\ md = 0%Q /\ mx = 0%Q)
  \/ (pool_min (fun p => Some (price p)) properties_ mn
      /\ pool_max (fun p => Some (price p)) properties_ mx
      /\ (exists p, In p properties_
                    /\ has_value (fun p => Some (price p)) p md)
      /\ (mn <= md <= mx)%Q).

(** * Properties *)

(** ** Comparisons of rationals *)

Lemma Qltb_lt (x y : Q) : Qltb x y = true <-> (x < y)%Q.
Proof.
  unfold Qltb. rewrite Qlt_alt.
  destruct (x ?= y)%Q; split; congruence.
Qed.

Lemma Qltb_ge (x y : Q) : Qltb x y = false <-> (y <= x)%Q.
Proof.
  split; intros H.
  - apply Qnot_lt_le. intros L. apply Qltb_lt in L. congruence.
  - destruct (Qltb x y) eqn:E; [|reflexivity].
    apply Qltb_lt in E. exfalso. exact (Qlt_not_le _ _ E H).
Qed.

Lemma len_nonneg {A : Type} (l : list A) : 0 <= len l.
Proof. unfold len. lia. Qed.

Lemma len_filter_le {A : Type} (f : A -> bool) (l : list A) :
  len (filter f l) <= len l.
Proof. unfold len. pose proof (filter_length_le f l). lia. Qed.

(** ** The rate limiter *)

Module RateLimiterFacts.

Import RateLimiter.

(** After the wait computed from its first element, the minute window has
    lost that element. *)
Lemma head_purged_after_wait (self : t) (w : Clock) (oldest : Q) (rest : list Q) :
  minute_requests self = oldest :: rest ->
  (List.length
     (minute_requests
        (_cleanup_old_requests self
           (time_time
              (sleep
                 (minute_window self - (time_time w - oldest) + (1 # 10))%Q
                 w))))
   <= List.length rest)%nat.
Proof.
  intros E. unfold _cleanup_old_requests. simpl. rewrite E. simpl.
  match goal with |- context [Qltb ?a ?b] => assert (F : Qltb a b = false) end.
  { apply Qltb_ge. unfold time_time. lra. }
  rewrite F. apply filter_length_le.
Qed.

(** The loop of [acquire] ends within one iteration per recorded request,
    plus one. *)
Lemma minute_loop_terminates (fuel : nat) :
  forall (self : t) (w : Clock),
    (List.length (minute_requests self) < fuel)%nat ->
    minute_loop fuel self (time_time w) w <> None.
Proof.
  induction fuel as [|fuel IH]; intros self w Hlen; [lia|].
  cbn [minute_loop].
  destruct (len (minute_requests self) >=? max_per_minute self);
    [|discriminate].
  destruct (minute_requests self) as [|oldest rest] eqn:E; [discriminate|].
  cbv zeta. destruct (Qgtb _ _); [|discriminate].
  apply IH.
  pose proof (head_purged_after_wait self w E) as Hp.
  cbn [List.length] in Hlen. lia.
Qed.

(** So [acquire] always gets its loop's result: the branch for an exhausted
    count of iterations is never taken. *)
Lemma acquire_loop_result (self : t) (w : Clock) :
  exists r,
    minute_loop
      (S (List.length
            (minute_requests (_cleanup_old_requests self (time_time w)))))
      (_cleanup_old_requests self (time_time w)) (time_time w) w = Some r.
Proof.
  destruct (minute_loop _ _ _ _) as [r|] eqn:E; [now exists r|].
  exfalso. revert E. apply minute_loop_terminates. lia.
Qed.

(** Whatever survived a purge at [now] is younger than the window. *)
Lemma day_head_young (self : t) (now oldest : Q) (rest : list Q) :
  day_requests (_cleanup_old_requests self now) = oldest :: rest ->
  (0 < day_window self - (now - oldest))%Q.
Proof.
  unfold _cleanup_old_requests. simpl. intros E.
  assert (I : In oldest (oldest :: rest)) by (left; reflexivity).
  rewrite <- E in I. apply filter_In in I. destruct I as [_ I].
  apply Qltb_lt in I. lra.
Qed.

(** C5 (as amended).  When, after the purge, the day window is at its
    capacity (of at least one request) and the minute window is below its
    own, [acquire] raises the daily-quota exception at once: nothing is
    slept, nothing is recorded, and the message carries the whole minutes
    left until the first entry of the day window leaves it. *)
Theorem acquire_day_quota_immediate (self : t) (w : Clock) :
  0 < max_per_day self ->
  len (minute_requests (_cleanup_old_requests self (time_time w)))
    < max_per_minute self ->
  max_per_day self
    <= len (day_requests (_cleanup_old_requests self (time_time w))) ->
  exists oldest rest,
    day_requests (_cleanup_old_requests self (time_time w)) = oldest :: rest
    /\ (0 < day_window self - (time_time w - oldest))%Q
    /\ acquire self w
       = (Raise (Exception_
                   (quota_message
                      (day_window self - (time_time w - oldest)))),
          _cleanup_old_requests self (time_time w), w).
Proof.
  intros Hpos Hmin Hday.
  destruct (day_requests (_cleanup_old_requests self (time_time w)))
    as [|oldest rest] eqn:E.
  { unfold len in Hday. simpl in Hday. lia. }
  exists oldest, rest. split; [reflexivity|].
  pose proof (day_head_young self (time_time w) E) as Hw.
  split; [exact Hw|].
  unfold acquire. cbn [minute_loop].
  replace (max_per_minute (_cleanup_old_requests self (time_time w)))
    with (max_per_minute self) by reflexivity.
  destruct (len _ >=? max_per_minute self) eqn:C; [lia|].
  unfold day_check_and_record.
  replace (max_per_day (_cleanup_old_requests self (time_time w)))
    with (max_per_day self) by reflexivity.
  rewrite E.
  destruct (len (oldest :: rest) >=? max_per_day self) eqn:D; [|lia].
  replace (day_window (_cleanup_old_requests self (time_time w)))
    with (day_window self) by reflexivity.
  unfold Qgtb. apply Qltb_lt in Hw. rewrite Hw. reflexivity.
Qed.

Lemma acquire_day_quota_immediate_witness :
  exists oldest rest,
    day_requests (_cleanup_old_requests (set_requests (init 15 1) [] [100%Q]) 160)
    = oldest :: rest
    /\ (0 < 86400 - (160 - oldest))%Q
    /\ acquire (set_requests (init 15 1) [] [100%Q]) (mkClock 160 [])
       = (Raise (Exception_ (quota_message (86400 - (160 - oldest)))),
          _cleanup_old_requests (set_requests (init 15 1) [] [100%Q]) 160,
          mkClock 160 []).
Proof.
  apply (acquire_day_quota_immediate
           (set_requests (init 15 1) [] [100%Q]) (mkClock 160 []));
    vm_compute; solve [reflexivity | discriminate].
Defined.

(** C5, the claim as written fails.  The limiter has its 1500 requests of
    the day and its 15 of the minute.  At the capacity of the day window
    after the purge, [acquire] still waits 3.1 seconds for the minute window
    first, and raises the quota exception only then. *)
Lemma acquire_waits_before_day_check :
  max_per_day busy_limiter
    <= len (day_requests (_cleanup_old_requests busy_limiter 5997))
  /\ fst (fst (acquire busy_limiter (mkClock 5997 [])))
     = Raise (Exception_
                "Daily API quota exceeded. Try again in 1339 minutes.")
  /\ map Qred (clock_slept (snd (acquire busy_limiter (mkClock 5997 []))))
     = [31 # 10]
  /\ Qred (clock_now (snd (acquire busy_limiter (mkClock 5997 []))))
     = 60001 # 10.
Proof.
  split; [vm_compute; discriminate|].
  repeat split; vm_compute; reflexivity.
Qed.

End RateLimiterFacts.

(** ** The response cache *)

Module AICacheFacts.

Import AICache.

Section WithData.

Variable V : Type.


Lemma dict_get_replace_same (k : string) (e e' : entry V) (d : dict V) :
  dict_get k d = Some e -> dict_get k (dict_replace k e' d) = Some e'.
Proof.
  induction d as [|[k0 e0] d IH]; simpl; [discriminate|].
  destruct (String.eqb k k0) eqn:E; simpl; rewrite E; auto.
Qed.

Lemma dict_get_replace_other (k k' : string) (e' : entry V) (d : dict V) :
  k' <> k -> dict_get k' (dict_replace k e' d) = dict_get k' d.
Proof.
  intros N. induction d as [|[k0 e0] d IH]; simpl; [reflexivity|].
  destruct (String.eqb k k0) eqn:E; simpl.
  - apply String.eqb_eq in E. subst k0.
    destruct (String.eqb k' k) eqn:E'; [|reflexivity].
    apply String.eqb_eq in E'. contradiction.
  - rewrite IH. reflexivity.
Qed.

Lemma dict_get_del_same (k : string) (d : dict V) :
  dict_get k (dict_del k d) = None.
Proof.
  unfold dict_del.
  induction d as [|[k0 e0] d IH]; simpl; [reflexivity|].
  destruct (String.eqb k k0) eqn:E; simpl; [exact IH|].
  rewrite E. exact IH.
Qed.

Lemma dict_get_del_other (k k' : string) (d : dict V) :
  k' <> k -> dict_get k' (dict_del k d) = dict_get k' d.
Proof.
  intros N. unfold dict_del.
  induction d as [|[k0 e0] d IH]; simpl; [reflexivity|].
  destruct (String.eqb k k0) eqn:E; simpl.
  - apply String.eqb_eq in E. subst k0.
    destruct (String.eqb k' k) eqn:E'; [|exact IH].
    apply String.eqb_eq in E'. contradiction.
  - rewrite IH. reflexivity.
Qed.

Lemma dict_keys_replace (k : string) (e : entry V) (d : dict V) :
  dict_keys (dict_replace k e d) = dict_keys d.
Proof.
  unfold dict_keys.
  induction d as [|[k0 e0] d IH]; simpl; [reflexivity|].
  destruct (String.eqb k k0); simpl; [reflexivity|].
  rewrite IH. reflexivity.
Qed.

Lemma dict_replace_length (k : string) (e : entry V) (d : dict V) :
  List.length (dict_replace k e d) = List.length d.
Proof.
  rewrite <- (length_map fst), <- (length_map fst d).
  change (map fst (dict_replace k e d)) with (dict_keys (dict_replace k e d)).
  rewrite dict_keys_replace. reflexivity.
Qed.

Lemma dict_del_length_le (k : string) (d : dict V) :
  (List.length (dict_del k d) <= List.length d)%nat.
Proof. apply filter_length_le. Qed.

Lemma dict_del_length_lt (k : string) (d : dict V) :
  In k (dict_keys d) -> (List.length (dict_del k d) < List.length d)%nat.
Proof.
  unfold dict_del, dict_keys.
  induction d as [|[k0 e0] d IH]; simpl; [tauto|].
  intros [E|I].
  - subst k0. rewrite String.eqb_refl. simpl.
    pose proof (filter_length_le
                  (fun p : string * entry V => negb (String.eqb k (fst p))) d).
    lia.
  - specialize (IH I).
    destruct (String.eqb k k0); simpl; lia.
Qed.

Lemma dict_set_length_le (k : string) (e : entry V) (d : dict V) :
  (List.length (dict_set k e d) <= S (List.length d))%nat.
Proof.
  unfold dict_set. destruct (dict_mem k d).
  - rewrite dict_replace_length. lia.
  - rewrite length_app. simpl. lia.
Qed.

Lemma min_last_accessed_in (rest : dict V) :
  forall best, In (min_last_accessed best rest) (dict_keys (best :: rest)).
Proof.
  unfold dict_keys.
  induction rest as [|p rest IH]; intros best; simpl; [auto|].
  destruct (Qltb _ _).
  - right. apply (IH p).
  - destruct (IH best) as [H|H]; simpl in *; auto.
Qed.

(** What [get] does, case by case. *)

(** C6.  [get] returns the stored value exactly when the key is present and
    [now <= expires_at]; the entry's [last_accessed] then becomes [now] and
    nothing else changes.  When the entry is present but expired, [get]
    returns nothing and the entry is gone afterwards, the other entries
    staying.  When the key is absent, [get] returns nothing and the cache is
    unchanged. *)
Theorem get_hit_expired_absent (self : t V) (now : Q) (key : string) :
  (dict_get key (cache self) = None ->
     get self now key = (None, self))
  /\ (forall e, dict_get key (cache self) = Some e ->
        (now <= expires_at e)%Q ->
        fst (get self now key) = Some (data e)
        /\ dict_get key (cache (snd (get self now key)))
           = Some {| data := data e; created_at := created_at e;
                     last_accessed := now; expires_at := expires_at e |}
        /\ dict_keys (cache (snd (get self now key))) = dict_keys (cache self)
        /\ (forall k', k' <> key ->
              dict_get k' (cache (snd (get self now key)))
              = dict_get k' (cache self)))
  /\ (forall e, dict_get key (cache self) = Some e ->
        (expires_at e < now)%Q ->
        fst (get self now key) = None
        /\ dict_get key (cache (snd (get self now key))) = None
        /\ (forall k', k' <> key ->
              dict_get k' (cache (snd (get self now key)))
              = dict_get k' (cache self))).
Proof.
  unfold get. repeat split.
  - intros E. rewrite E. reflexivity.
  - rewrite H. apply Qltb_ge in H0. unfold Qgtb. rewrite H0. reflexivity.
  - rewrite H. apply Qltb_ge in H0. unfold Qgtb. rewrite H0. simpl.
    apply dict_get_replace_same with (e := e). exact H.
  - rewrite H. apply Qltb_ge in H0. unfold Qgtb. rewrite H0. simpl.
    apply dict_keys_replace.
  - intros k' N. rewrite H. apply Qltb_ge in H0. unfold Qgtb. rewrite H0.
    simpl. apply dict_get_replace_other. exact N.
  - rewrite H. apply Qltb_lt in H0. unfold Qgtb. rewrite H0. reflexivity.
  - rewrite H. apply Qltb_lt in H0. unfold Qgtb. rewrite H0. simpl.
    apply dict_get_del_same.
  - intros k' N. rewrite H. apply Qltb_lt in H0. unfold Qgtb. rewrite H0.
    simpl. apply dict_get_del_other. exact N.
Qed.

(** What [set] stores. *)

Lemma dict_get_append_other (k k' : string) (e : entry V) (d : dict V) :
  k' <> k -> dict_get k' (d ++ [(k, e)]) = dict_get k' d.
Proof.
  intros N. induction d as [|[k0 e0] d IH]; simpl.
  - destruct (String.eqb k' k) eqn:E; [|reflexivity].
    apply String.eqb_eq in E. contradiction.
  - rewrite IH. reflexivity.
Qed.

Lemma dict_get_append_same (k : string) (e : entry V) (d : dict V) :
  dict_get k d = None -> dict_get k (d ++ [(k, e)]) = Some e.
Proof.
  induction d as [|[k0 e0] d IH]; simpl.
  - rewrite String.eqb_refl. reflexivity.
  - destruct (String.eqb k k0); [discriminate|exact IH].
Qed.

Lemma dict_get_set_same (k : string) (e : entry V) (d : dict V) :
  dict_get k (dict_set k e d) = Some e.
Proof.
  unfold dict_set, dict_mem.
  destruct (dict_get k d) as [e0|] eqn:G.
  - apply dict_get_replace_same with (e := e0). exact G.
  - apply dict_get_append_same. exact G.
Qed.

Lemma dict_get_set_other (k k' : string) (e : entry V) (d : dict V) :
  k' <> k -> dict_get k' (dict_set k e d) = dict_get k' d.
Proof.
  intros N. unfold dict_set. destruct (dict_mem k d).
  - apply dict_get_replace_other. exact N.
  - apply dict_get_append_other. exact N.
Qed.

(** After [set] the key holds the value, created and last accessed at
    [now], expiring [ttl] seconds later, where a [ttl] of [None] or 0 stands
    for the default. *)
Lemma set_stores_entry (self : t V) (now : Q) (k : string) (v : V)
    (ttl : option Z) :
  dict_get k (cache (set self now k v ttl))
  = Some {| data := v; created_at := now; last_accessed := now;
            expires_at := (now + inject_Z (ttl_or_default self ttl))%Q |}.
Proof. unfold set. cbn [cache set_cache]. apply dict_get_set_same. Qed.

(** Below the capacity [set] evicts nothing. *)
Lemma set_below_capacity (self : t V) (now : Q) (k k' : string) (v : V)
    (ttl : option Z) :
  size self < max_size self -> k' <> k ->
  dict_get k' (cache (set self now k v ttl)) = dict_get k' (cache self).
Proof.
  intros Hlt N. unfold set. fold (size self).
  destruct (size self >=? max_size self) eqn:C; [lia|].
  cbn [cache set_cache]. apply dict_get_set_other. exact N.
Qed.

(** The size of the cache under each operation. *)

Lemma size_evict_lru (self : t V) :
  1 <= size self -> size (_evict_lru self) <= size self - 1.
Proof.
  unfold _evict_lru, size, len.
  destruct (cache self) as [|first rest] eqn:E; simpl List.length; [lia|].
  intros _. simpl cache.
  pose proof (@dict_del_length_lt (min_last_accessed first rest)
                (first :: rest) (min_last_accessed_in rest first)) as H.
  simpl List.length in H. lia.
Qed.

Lemma max_size_evict_lru (self : t V) :
  max_size (_evict_lru self) = max_size self.
Proof. unfold _evict_lru. destruct (cache self); reflexivity. Qed.

Lemma size_set (self : t V) (now : Q) (k : string) (v : V) (ttl : option Z) :
  1 <= max_size self -> size self <= max_size self ->
  size (set self now k v ttl) <= max_size self.
Proof.
  intros Hpos Hle. unfold set.
  set (e := {| data := v; created_at := now; last_accessed := now;
               expires_at := _ |}).
  fold (size self).
  destruct (size self >=? max_size self) eqn:C.
  - pose proof (@size_evict_lru self ltac:(lia)) as Hev.
    unfold size, len in *. simpl cache.
    pose proof (dict_set_length_le k e (cache (_evict_lru self))). lia.
  - unfold size, len in *. simpl cache.
    pose proof (dict_set_length_le k e (cache self)). lia.
Qed.

Lemma max_size_set (self : t V) (now : Q) (k : string) (v : V)
    (ttl : option Z) :
  max_size (set self now k v ttl) = max_size self.
Proof.
  unfold set. simpl. destruct (_ >=? _); [apply max_size_evict_lru|reflexivity].
Qed.

Lemma size_get (self : t V) (now : Q) (k : string) :
  size (snd (get self now k)) <= size self
  /\ max_size (snd (get self now k)) = max_size self.
Proof.
  unfold get, size, len.
  destruct (dict_get k (cache self)) as [e|]; [|simpl; lia].
  destruct (Qgtb now (expires_at e)); simpl.
  - pose proof (dict_del_length_le k (cache self)). lia.
  - rewrite dict_replace_length. lia.
Qed.

Lemma size_invalidate (self : t V) (k : string) :
  size (snd (invalidate self k)) <= size self
  /\ max_size (snd (invalidate self k)) = max_size self.
Proof.
  unfold invalidate, size, len.
  destruct (dict_mem k (cache self)); simpl; [|lia].
  pose proof (dict_del_length_le k (cache self)). lia.
Qed.

Lemma fold_dict_del_length (keys : list string) :
  forall d : dict V,
    (List.length (fold_left (fun d key => dict_del key d) keys d)
     <= List.length d)%nat.
Proof.
  induction keys as [|k keys IH]; intros d; simpl; [lia|].
  specialize (IH (dict_del k d)).
  pose proof (dict_del_length_le k d). lia.
Qed.

Lemma size_invalidate_pattern (self : t V) (pattern : string) :
  size (snd (invalidate_pattern self pattern)) <= size self
  /\ max_size (snd (invalidate_pattern self pattern)) = max_size self.
Proof.
  unfold invalidate_pattern, size, len. simpl.
  pose proof (fold_dict_del_length
                (filter (matches_pattern pattern) (dict_keys (cache self)))
                (cache self)).
  lia.
Qed.

Lemma size_step (self : t V) (o : op V) :
  1 <= max_size self -> size self <= max_size self ->
  size (step self o) <= max_size self
  /\ max_size (step self o) = max_size self.
Proof.
  intros Hpos Hle. destruct o as [now k|now k v ttl|k|p|]; cbn [step].
  - pose proof (size_get self now k). lia.
  - split; [exact (@size_set self now k v ttl Hpos Hle)|exact (@max_size_set self now k v ttl)].
  - pose proof (size_invalidate self k). lia.
  - pose proof (size_invalidate_pattern self p). lia.
  - unfold clear, size, len. simpl. lia.
Qed.

Lemma size_run (ops : list (op V)) :
  forall self : t V,
    1 <= max_size self -> size self <= max_size self ->
    size (run self ops) <= max_size self.
Proof.
  unfold run.
  induction ops as [|o ops IH]; intros self Hpos Hle; simpl; [exact Hle|].
  destruct (size_step self o Hpos Hle) as [Hs Hm].
  rewrite <- Hm. apply IH; rewrite Hm; assumption.
Qed.

(** C9.  A cache constructed with [max_size >= 1] never holds more than
    [max_size] entries, whatever sequence of [get], [set], [invalidate],
    [invalidate_pattern] and [clear] it has gone through. *)
Theorem size_never_exceeds_max_size (max_size_ default_ttl_ : Z)
    (ops : list (op V)) :
  1 <= max_size_ ->
  size (run (init V max_size_ default_ttl_) ops) <= max_size_.
Proof.
  intros Hpos.
  apply (size_run ops (init V max_size_ default_ttl_)); simpl; [exact Hpos|].
  unfold size, len. simpl. lia.
Qed.

End WithData.

Lemma size_never_exceeds_max_size_witness :
  size (run (init string 2 3600)
          [OpSet 0 "a" "x"%string None; OpSet 1 "b" "y"%string (Some 60);
           OpGet string 2 "a"; OpSet 3 "c" "z"%string None;
           OpInvalidatePattern string "ai:*";
           OpSet 4 "a" "w"%string (Some 0)])
  <= 2.
Proof.
  apply (@size_never_exceeds_max_size string 2 3600). lia.
Defined.

(** C3, the defect.  The cache is full with the keys ["a"] and ["b"].
    Setting ["b"], which is present, still evicts: ["a"], the least recently
    used entry, is lost although no room was needed.  And a [ttl] of 0 is
    replaced by the default of 3600 seconds: the entry set at time 10
    expires at 3610, not at 10. *)
Theorem set_on_full_cache_evicts_for_present_key :
  size full_cache = max_size full_cache
  /\ dict_keys (cache full_cache) = ["a"%string; "b"%string]
  /\ dict_keys (cache (set full_cache 10 "b" "B2"%string (Some 60)))
     = ["b"%string]
  /\ option_map (fun e => Qred (expires_at e))
       (dict_get "c" (cache (set full_cache 10 "c" "C"%string (Some 0))))
     = Some 3610%Q.
Proof. repeat split; vm_compute; reflexivity. Qed.

End AICacheFacts.

(** ** The keys of the cache *)

Module AICacheKeys.

Import AICache.

Section WithData.

Variable V : Type.

Lemma keys_del_incl (k : string) (d : dict V) :
  incl (dict_keys (dict_del k d)) (dict_keys d).
Proof.
  unfold dict_keys, dict_del. intros x H.
  apply in_map_iff in H. destruct H as [p [E I]].
  apply filter_In in I. apply in_map_iff. exists p. tauto.
Qed.

Lemma keys_dict_set_incl (k : string) (e : entry V) (d : dict V) :
  incl (dict_keys (dict_set k e d)) (k :: dict_keys d).
Proof.
  unfold dict_set. destruct (dict_mem k d).
  - rewrite AICacheFacts.dict_keys_replace. apply incl_tl, incl_refl.
  - unfold dict_keys. rewrite map_app. simpl. intros x H.
    apply in_app_or in H. destruct H as [H|[H|[]]]; [right|left]; auto.
Qed.

Lemma keys_get_incl (self : t V) (now : Q) (k : string) :
  incl (dict_keys (cache (snd (get self now k)))) (dict_keys (cache self)).
Proof.
  unfold get. destruct (dict_get k (cache self)) as [e|]; [|apply incl_refl].
  destruct (Qgtb now (expires_at e)); cbn [snd cache set_cache].
  - apply keys_del_incl.
  - rewrite AICacheFacts.dict_keys_replace. apply incl_refl.
Qed.

Lemma keys_evict_incl (self : t V) :
  incl (dict_keys (cache (_evict_lru self))) (dict_keys (cache self)).
Proof.
  unfold _evict_lru. destruct (cache self) as [|first rest] eqn:E.
  - rewrite E. apply incl_refl.
  - cbn [cache set_cache]. apply keys_del_incl.
Qed.

Lemma keys_set_incl (self : t V) (now : Q) (k : string) (v : V)
    (ttl : option Z) :
  incl (dict_keys (cache (set self now k v ttl))) (k :: dict_keys (cache self)).
Proof.
  unfold set. cbn [cache set_cache].
  eapply incl_tran; [apply keys_dict_set_incl|].
  apply incl_cons; [left; reflexivity|]. apply incl_tl.
  destruct (_ >=? _); [apply keys_evict_incl|apply incl_refl].
Qed.

Lemma keys_mutate (self : t V) (k : string) (f : V -> V) :
  dict_keys (cache (mutate_data self k f)) = dict_keys (cache self).
Proof.
  unfold mutate_data, dict_keys. cbn [cache set_cache].
  rewrite map_map. apply map_ext. intros p.
  destruct (String.eqb k (fst p)); reflexivity.
Qed.

Lemma dict_get_not_in (k : string) (d : dict V) :
  ~ In k (dict_keys d) -> dict_get k d = None.
Proof.
  unfold dict_keys. induction d as [|[k0 e0] d IH]; simpl; [reflexivity|].
  intros N. destruct (String.eqb k k0) eqn:E.
  - apply String.eqb_eq in E. subst. tauto.
  - apply IH. tauto.
Qed.

End WithData.

End AICacheKeys.

(** ** Comparisons of lists with a repeated id *)

Lemma insert_asc_perm (x : Z) (l : list Z) :
  Permutation (insert_asc x l) (x :: l).
Proof.
  induction l as [|y l IH]; simpl; [reflexivity|].
  destruct (y <? x); [|reflexivity].
  rewrite IH. apply perm_swap.
Qed.

Lemma sorted_perm (l : list Z) : Permutation (sorted l) l.
Proof.
  unfold sorted. induction l as [|x l IH]; simpl; [reflexivity|].
  rewrite insert_asc_perm. constructor. exact IH.
Qed.

(** A selection of rows with distinct ids has distinct ids. *)
Lemma selected_ids_distinct (keep : Property -> bool) (db : list Property) :
  NoDup (map id db) -> NoDup (map id (filter keep db)).
Proof.
  intros Hdb. induction db as [|row db IH]; cbn [filter map]; [constructor|].
  cbn [map] in Hdb. apply NoDup_cons_iff in Hdb. destruct Hdb as [Hrow Hdb].
  destruct (keep row); cbn [map]; [|exact (IH Hdb)].
  apply NoDup_cons; [|exact (IH Hdb)].
  intros Hin. apply Hrow. apply in_map_iff in Hin.
  destruct Hin as [other [Eid Hother]]. apply filter_In in Hother.
  apply in_map_iff. exists other. tauto.
Qed.

(** Rows with distinct ids, all among the requested ids and as many as
    these: then the requested ids are distinct. *)
Lemma fetched_all_distinct (db : list Property) (property_ids : list Z) :
  NoDup (map id db) ->
  len (filter (fun p => existsb (Z.eqb (id p)) property_ids) db)
  = len property_ids ->
  NoDup property_ids.
Proof.
  intros Hdb Hlen.
  set (fetched := filter (fun p => existsb (Z.eqb (id p)) property_ids) db)
    in *.
  apply NoDup_incl_NoDup with (l := map id fetched).
  - apply selected_ids_distinct. exact Hdb.
  - rewrite length_map. unfold len in Hlen. lia.
  - intros x H. apply in_map_iff in H. destruct H as [p [E I]].
    apply filter_In in I. destruct I as [_ I].
    apply existsb_exists in I. destruct I as [y [Iy Ey]].
    apply Z.eqb_eq in Ey. congruence.
Qed.

Section Keys.

Variable lib : Library.

Hypothesis digest_ok : digest_separates_ids lib.

Lemma key_ok_summary (p : CacheParams) : key_ok lib (generate_key lib "summary" p).
Proof. intros ids a H. unfold generate_key in H. simpl in H. discriminate. Qed.

Lemma key_ok_recommend (p : CacheParams) :
  key_ok lib (generate_key lib "recommend" p).
Proof. intros ids a H. unfold generate_key in H. simpl in H. discriminate. Qed.

Lemma key_ok_market (p : CacheParams) :
  key_ok lib (generate_key lib "market_analysis" p).
Proof. intros ids a H. unfold generate_key in H. simpl in H. discriminate. Qed.

Lemma key_ok_compare (property_ids : list Z) (aspects : list string) :
  NoDup property_ids ->
  key_ok lib
    (generate_key lib "compare" (CompareParams (sorted property_ids) aspects)).
Proof.
  intros Hnd ids a H. unfold generate_key in H. simpl in H.
  injection H as H. apply digest_ok in H. subst ids.
  apply (Permutation_NoDup (Permutation_sym (sorted_perm property_ids))).
  exact Hnd.
Qed.

Lemma keeps_ret {A : Type} (a : A) : keeps lib (ret a).
Proof. intros s H. exact H. Qed.

Lemma keeps_raise {A : Type} (e : exn) : keeps lib (@raise A e).
Proof. intros s H. exact H. Qed.

Lemma keeps_lift {A : Type} (m : py A) : keeps lib (lift m).
Proof. intros s H. exact H. Qed.

Lemma keeps_cache_get (key : string) : keeps lib (cache_get key).
Proof.
  intros s H k Hk. apply H. unfold cache_get in Hk.
  pose proof (@AICacheKeys.keys_get_incl Result (cache s)
                (time_time (clock s)) key) as Hincl.
  destruct (AICache.get (cache s) (time_time (clock s)) key) as [r c].
  apply Hincl. exact Hk.
Qed.

Lemma keeps_cache_set (key : string) (r : Result) (ttl : Z) :
  key_ok lib key -> keeps lib (cache_set key r ttl).
Proof.
  intros Hkey s H k Hk. unfold cache_set in Hk. cbn [snd cache with_cache] in Hk.
  apply AICacheKeys.keys_set_incl in Hk. destruct Hk as [<-|Hk]; auto.
Qed.

Lemma keeps_alias (key : string) (b : bool) :
  keeps lib (alias_from_cache key b).
Proof.
  intros s H k Hk. unfold alias_from_cache in Hk.
  cbn [snd cache with_cache] in Hk.
  rewrite AICacheKeys.keys_mutate in Hk. auto.
Qed.

Lemma keeps_acquire : keeps lib rate_limiter_acquire.
Proof.
  intros s H k Hk. unfold rate_limiter_acquire in Hk.
  destruct (RateLimiter.acquire (rate_limiter s) (clock s)) as [[r rl] w].
  auto.
Qed.

Lemma keeps_bind {A B : Type} (m : M A) (k : A -> M B) :
  keeps lib m -> (forall a, keeps lib (k a)) -> keeps lib (bindM m k).
Proof.
  intros Hm Hk s H. unfold bindM. specialize (Hm s H).
  destruct (m s) as [[a|e] s']; [apply Hk|]; exact Hm.
Qed.

Lemma keeps_try {A : Type} (m : M A) (h : exn -> M A) :
  keeps lib m -> (forall e, keeps lib (h e)) -> keeps lib (try_except m h).
Proof.
  intros Hm Hh s H. unfold try_except. specialize (Hm s H).
  destruct (m s) as [[a|e] s']; [|apply Hh]; exact Hm.
Qed.

Lemma keeps_cached_or (key : string) (miss : M Result) :
  keeps lib miss -> keeps lib (cached_or key miss).
Proof.
  intros Hm. unfold cached_or. apply keeps_bind; [apply keeps_cache_get|].
  intros [cached_|]; [|exact Hm].
  apply keeps_bind; [apply keeps_alias|]. intros _. apply keeps_ret.
Qed.

Lemma keeps_call_or_fallback (env : Env) (key prompt : string)
    (parse : string -> py Result) (fallback : py Result) (ttl : Z) :
  key_ok lib key ->
  keeps lib (call_or_fallback env key prompt parse fallback ttl).
Proof.
  intros Hkey. unfold call_or_fallback.
  apply keeps_bind.
  - apply keeps_try.
    + apply keeps_bind; [apply keeps_acquire|]. intros _.
      apply keeps_bind; [apply keeps_lift|]. intros ai_text.
      apply keeps_lift.
    + intros e. apply keeps_bind; [apply keeps_lift|]. intros r.
      apply keeps_ret.
  - intros r. apply keeps_bind; [apply keeps_cache_set; exact Hkey|].
    intros _. apply keeps_bind; [apply keeps_alias|]. intros _.
    apply keeps_ret.
Qed.

Ltac keeps_lifts :=
  repeat (apply keeps_bind; [apply keeps_lift|]; intro).

Lemma keeps_handle (env : Env) (req : Request) :
  NoDup (map id (db_properties env)) -> keeps lib (handle lib env req).
Proof.
  intros Hdb. destruct req as [filters mp|criteria mr|ids aspects|region tp focus];
    cbn [handle].
  - unfold summarize_properties. apply keeps_cached_or.
    destruct (fetch_properties env _ mp); [apply keeps_ret|].
    keeps_lifts. apply keeps_call_or_fallback, key_ok_summary.
  - unfold recommend_properties. apply keeps_cached_or.
    destruct (fetch_properties env _ 20); [apply keeps_ret|].
    keeps_lifts. apply keeps_call_or_fallback, key_ok_recommend.
  - unfold compare_properties.
    destruct (len ids <? 2); [apply keeps_raise|].
    destruct (len ids >? 5); [apply keeps_raise|].
    apply keeps_cached_or.
    destruct (len _ =? len ids) eqn:L; cbn [negb]; [|apply keeps_raise].
    keeps_lifts. apply keeps_call_or_fallback, key_ok_compare.
    apply fetched_all_distinct with (db := db_properties env);
      [exact Hdb|]. apply Z.eqb_eq. exact L.
  - unfold analyze_market_trends. apply keeps_cached_or.
    destruct (fetch_properties env _ 200); [apply keeps_ret|].
    keeps_lifts. apply keeps_call_or_fallback, key_ok_market.
Qed.

(** In every state a service can be in, the comparisons in its cache are
    comparisons of distinct ids. *)
Lemma reachable_keys_distinct (s : Service) :
  reachable lib s -> compare_keys_distinct lib s.
Proof.
  induction 1 as [now|s d Hs IH Hd|s env req Hs IH Hdb].
  - intros k [].
  - exact IH.
  - apply keeps_handle; assumption.
Qed.


End Keys.

(** ** The scoring engine *)

Lemma fold_max_spec (l : list Q) :
  forall x,
    In (fold_left (fun m y => if Qgtb y m then y else m) l x) (x :: l)
    /\ forall v, In v (x :: l) ->
         (v <= fold_left (fun m y => if Qgtb y m then y else m) l x)%Q.
Proof.
  induction l as [|y l IH]; intros x; simpl.
  - split; [auto|]. intros v [E|[]]. subst. apply Qle_refl.
  - destruct (Qgtb y x) eqn:C; unfold Qgtb in C.
    + apply Qltb_lt in C. destruct (IH y) as [I B]. split.
      * right. exact I.
      * intros v [E|H]; [subst v|exact (B v H)].
        apply Qle_trans with y; [lra|]. apply B. left. reflexivity.
    + apply Qltb_ge in C. destruct (IH x) as [I B]. split.
      * destruct I as [E|I]; [left; exact E|right; right; exact I].
      * intros v [E|[E|H]].
        -- subst v. apply B. left. reflexivity.
        -- subst v. apply Qle_trans with x; [exact C|].
           apply B. left. reflexivity.
        -- apply B. right. exact H.
Qed.

Lemma fold_min_spec (l : list Q) :
  forall x,
    In (fold_left (fun m y => if Qltb y m then y else m) l x) (x :: l)
    /\ forall v, In v (x :: l) ->
         (fold_left (fun m y => if Qltb y m then y else m) l x <= v)%Q.
Proof.
  induction l as [|y l IH]; intros x; simpl.
  - split; [auto|]. intros v [E|[]]. subst. apply Qle_refl.
  - destruct (Qltb y x) eqn:C.
    + apply Qltb_lt in C. destruct (IH y) as [I B]. split.
      * right. exact I.
      * intros v [E|H]; [subst v|exact (B v H)].
        apply Qle_trans with y; [|lra]. apply B. left. reflexivity.
    + apply Qltb_ge in C. destruct (IH x) as [I B]. split.
      * destruct I as [E|I]; [left; exact E|right; right; exact I].
      * intros v [E|[E|H]].
        -- subst v. apply B. left. reflexivity.
        -- subst v. apply Qle_trans with x; [|exact C].
           apply B. left. reflexivity.
        -- apply B. right. exact H.
Qed.

Lemma truthy_Q_true (x : Q) : truthy_Q (Some x) = true <-> ~ (x == 0)%Q.
Proof.
  simpl. destruct (Qeq_bool x 0) eqn:E; simpl.
  - apply Qeq_bool_eq in E. split; [discriminate|tauto].
  - split; [|reflexivity]. intros _ H. apply Qeq_eq_bool in H. congruence.
Qed.

Lemma truthy_Q_false (x : Q) : truthy_Q (Some x) = false <-> (x == 0)%Q.
Proof.
  simpl. destruct (Qeq_bool x 0) eqn:E; simpl.
  - apply Qeq_bool_eq in E. tauto.
  - split; [discriminate|]. intros H. apply Qeq_eq_bool in H. congruence.
Qed.

(** The list of values the code takes the extremes of holds exactly the
    values of the pool. *)
Lemma truthy_values_spec (f : Property -> option Q) (pool : list Property)
    (x : Q) :
  In x (truthy_values f pool) <-> exists p, In p pool /\ has_value f p x.
Proof.
  unfold has_value. induction pool as [|p pool IH]; simpl.
  - split; [tauto|]. intros [p [[] _]].
  - destruct (f p) as [y|] eqn:E.
    + destruct (negb (Qeq_bool y 0)) eqn:T.
      * simpl. rewrite IH. split.
        -- intros [H|[q [I H]]].
           ++ subst y. exists p. split; [auto|]. split; [exact E|].
              apply truthy_Q_true. exact T.
           ++ exists q. auto.
        -- intros [q [[H|I] [F N]]].
           ++ subst q. left. congruence.
           ++ right. exists q. auto.
      * rewrite IH. split.
        -- intros [q [I H]]. exists q. auto.
        -- intros [q [[H|I] [F N]]].
           ++ subst q. exfalso. apply N. apply truthy_Q_false.
              replace x with y by congruence. exact T.
           ++ exists q. auto.
    + rewrite IH. split.
      * intros [q [I H]]. exists q. auto.
      * intros [q [[H|I] [F N]]]; [subst q; congruence|exists q; auto].
Qed.

Lemma py_max_spec (f : Property -> option Q) (pool : list Property)
    (prop : Property) (x : Q) :
  In prop pool -> has_value f prop x ->
  exists mx, py_max (truthy_values f pool) = Return mx /\ pool_max f pool mx.
Proof.
  intros I H.
  assert (Hx : In x (truthy_values f pool)).
  { apply truthy_values_spec. exists prop. auto. }
  destruct (truthy_values f pool) as [|v l] eqn:E; [destruct Hx|].
  simpl. eexists. split; [reflexivity|].
  destruct (fold_max_spec l v) as [Hin Hb]. split.
  - apply truthy_values_spec. rewrite E. exact Hin.
  - intros p y Ip Hy. apply Hb. rewrite <- E.
    apply truthy_values_spec. exists p. auto.
Qed.

Lemma py_min_spec (f : Property -> option Q) (pool : list Property)
    (prop : Property) (x : Q) :
  In prop pool -> has_value f prop x ->
  exists mn, py_min (truthy_values f pool) = Return mn /\ pool_min f pool mn.
Proof.
  intros I H.
  assert (Hx : In x (truthy_values f pool)).
  { apply truthy_values_spec. exists prop. auto. }
  destruct (truthy_values f pool) as [|v l] eqn:E; [destruct Hx|].
  simpl. eexists. split; [reflexivity|].
  destruct (fold_min_spec l v) as [Hin Hb]. split.
  - apply truthy_values_spec. rewrite E. exact Hin.
  - intros p y Ip Hy. apply Hb. rewrite <- E.
    apply truthy_values_spec. exists p. auto.
Qed.

Lemma monthly_cost_score_spec (pool : list Property) (prop : Property) :
  In prop pool ->
  dimension_spec true total_monthly_cost pool prop
    (monthly_cost_score pool prop).
Proof.
  intros I. unfold dimension_spec, monthly_cost_score. repeat split.
  - intros x [F N].
    destruct (@py_max_spec total_monthly_cost pool prop x I (conj F N))
      as [mx [Emx Hmx]].
    destruct (@py_min_spec total_monthly_cost pool prop x I (conj F N))
      as [mn [Emn Hmn]].
    exists mn, mx. split; [exact Hmn|]. split; [exact Hmx|].
    rewrite F. apply truthy_Q_true in N. rewrite N, Emx, Emn. simpl bind.
    split; intros C.
    + apply Qltb_lt in C. unfold Qgtb. rewrite C. reflexivity.
    + assert (C' : Qltb mn mx = false) by (apply Qltb_ge; lra).
      unfold Qgtb. rewrite C'. reflexivity.
  - intros F. rewrite F. reflexivity.
  - intros x F Z. rewrite F. apply truthy_Q_false in Z. rewrite Z.
    reflexivity.
Qed.

Lemma value_score_spec (pool : list Property) (prop : Property) :
  In prop pool ->
  dimension_spec true price_per_sqft pool prop (value_score pool prop).
Proof.
  intros I. unfold dimension_spec, value_score. repeat split.
  - intros x [F N].
    destruct (@py_max_spec price_per_sqft pool prop x I (conj F N))
      as [mx [Emx Hmx]].
    destruct (@py_min_spec price_per_sqft pool prop x I (conj F N))
      as [mn [Emn Hmn]].
    exists mn, mx. split; [exact Hmn|]. split; [exact Hmx|].
    rewrite F. apply truthy_Q_true in N. rewrite N.
    destruct (truthy_values price_per_sqft pool) as [|v l] eqn:E;
      [discriminate|].
    rewrite Emx, Emn. simpl bind.
    split; intros C.
    + apply Qltb_lt in C. unfold Qgtb. rewrite C. reflexivity.
    + assert (C' : Qltb mn mx = false) by (apply Qltb_ge; lra).
      unfold Qgtb. rewrite C'. reflexivity.
  - intros F. rewrite F. reflexivity.
  - intros x F Z. rewrite F. apply truthy_Q_false in Z. rewrite Z.
    reflexivity.
Qed.

Lemma space_score_spec (pool : list Property) (prop : Property) :
  In prop pool ->
  dimension_spec false (fun p => float_Z (sqft p)) pool prop
    (space_score pool prop).
Proof.
  intros I. unfold dimension_spec, space_score. repeat split.
  - intros x [F N].
    destruct (@py_max_spec (fun p => float_Z (sqft p)) pool prop x I (conj F N))
      as [mx [Emx Hmx]].
    destruct (@py_min_spec (fun p => float_Z (sqft p)) pool prop x I (conj F N))
      as [mn [Emn Hmn]].
    exists mn, mx. split; [exact Hmn|]. split; [exact Hmx|].
    rewrite F. apply truthy_Q_true in N. rewrite N.
    destruct (truthy_values (fun p => float_Z (sqft p)) pool) as [|v l] eqn:E;
      [discriminate|].
    rewrite Emx, Emn. simpl bind.
    split; intros C.
    + apply Qltb_lt in C. unfold Qgtb. rewrite C. reflexivity.
    + assert (C' : Qltb mn mx = false) by (apply Qltb_ge; lra).
      unfold Qgtb. rewrite C'. reflexivity.
  - intros F. rewrite F. reflexivity.
  - intros x F Z. rewrite F. apply truthy_Q_false in Z. rewrite Z.
    reflexivity.
Qed.

(** The [scores] of a scored candidate are these three dimension scores
    and the location score. *)
Lemma pool_min_le_max (f : Property -> option Q) (pool : list Property)
    (mn mx : Q) :
  pool_min f pool mn -> pool_max f pool mx -> (mn <= mx)%Q.
Proof.
  intros [_ Hmn] [[p [I H]] _]. exact (Hmn p mx I H).
Qed.

(** Every candidate of the pool gets its three dimension scores: none of
    the lookups of an extreme fails, no key is left unset. *)
Lemma dimension_returns (b : bool) (f : Property -> option Q)
    (pool : list Property) (prop : Property) (r : py (option Q)) :
  dimension_spec b f pool prop r -> exists v, r = Return (Some v).
Proof.
  intros [Hv [Hn Hz]].
  destruct (f prop) as [x|] eqn:F; [|eexists; apply Hn; reflexivity].
  destruct (Qeq_dec x 0) as [Z|N]; [eexists; exact (Hz x eq_refl Z)|].
  assert (Hx : has_value f prop x) by (split; assumption).
  destruct (Hv x Hx) as [mn [mx [Hmn [Hmx [Hlt Heq]]]]].
  pose proof (pool_min_le_max Hmn Hmx) as Hle.
  destruct (Qlt_le_dec mn mx) as [L|G].
  - eexists. exact (Hlt L).
  - eexists. apply Heq. apply Qle_antisym; assumption.
Qed.

(** The location score is 50, 60 or 100, unless the preferred city is
    [None]. *)
Lemma location_score_returns (criteria : Criteria) (prop : Property) :
  city_preference criteria <> Null ->
  exists lo,
    location_score criteria prop = Return lo /\ (0 <= lo <= 100)%Q.
Proof.
  intros N. unfold location_score.
  destruct (city_preference criteria) as [| |pref]; [|contradiction|];
    cbn [bind]; (destruct (city prop) as [c|];
                 [|exists 50%Q; split; [reflexivity|lra]]);
    (destruct (_ && _);
     [exists 100%Q; split; [reflexivity|lra]|]);
    (destruct (truthy_str (Some c));
     [exists 60%Q|exists 50%Q]; split; try reflexivity; lra).
Qed.

Lemma location_score_null (criteria : Criteria) (prop : Property) :
  city_preference criteria = Null ->
  location_score criteria prop
  = Raise (AttributeError "'NoneType' object has no attribute 'lower'").
Proof. intros E. unfold location_score. rewrite E. reflexivity. Qed.

(** What one pass of the loop has stored when it returns. *)
Lemma score_one_scores (pool : list Property) (criteria : Criteria)
    (wm wl wv ws tw : Q) (prop : Property) (s : Scored) :
  score_one pool criteria wm wl wv ws tw prop = Return s ->
  property s = prop
  /\ monthly_cost_score pool prop = Return (s_monthly_cost (scores s))
  /\ value_score pool prop = Return (s_value (scores s))
  /\ space_score pool prop = Return (s_space (scores s))
  /\ exists lo,
       location_score criteria prop = Return lo
       /\ s_location (scores s) = Some lo.
Proof.
  unfold score_one.
  destruct (monthly_cost_score pool prop) as [mc|e]; cbn [bind];
    [|discriminate].
  destruct (value_score pool prop) as [va|e]; cbn [bind]; [|discriminate].
  destruct (space_score pool prop) as [sp|e]; cbn [bind]; [|discriminate].
  destruct (location_score criteria prop) as [lo|e]; cbn [bind];
    [|discriminate].
  cbn [s_monthly_cost s_value s_space s_location].
  destruct mc as [a|]; cbn [scores_get bind]; [|discriminate].
  destruct va as [b|]; cbn [scores_get bind]; [|discriminate].
  destruct sp as [c|]; cbn [scores_get bind]; [|discriminate].
  intros H. injection H as <-. cbn [property scores s_monthly_cost s_value
    s_space s_location]. repeat split. exists lo. split; reflexivity.
Qed.

Lemma score_one_returns (pool : list Property) (criteria : Criteria)
    (wm wl wv ws tw : Q) (prop : Property) :
  city_preference criteria <> Null ->
  In prop pool ->
  exists s,
    score_one pool criteria wm wl wv ws tw prop = Return s
    /\ property s = prop.
Proof.
  intros N I.
  destruct (dimension_returns (@monthly_cost_score_spec pool prop I))
    as [mc Emc].
  destruct (dimension_returns (@value_score_spec pool prop I)) as [va Eva].
  destruct (dimension_returns (@space_score_spec pool prop I)) as [sp Esp].
  destruct (@location_score_returns criteria prop N) as [lo [Elo _]].
  unfold score_one. rewrite Emc, Eva, Esp, Elo.
  cbn [bind scores_get s_monthly_cost s_value s_space s_location].
  eexists. split; reflexivity.
Qed.

Lemma map_py_elements {A B : Type} (f : A -> py B) (l : list A) :
  forall r,
    map_py f l = Return r ->
    List.length r = List.length l
    /\ forall y, In y r -> exists x, In x l /\ f x = Return y.
Proof.
  induction l as [|x l IH]; intros r; cbn [map_py].
  - intros H. injection H as <-. split; [reflexivity|]. intros y [].
  - destruct (f x) as [y0|e] eqn:Fx; cbn [bind]; [|discriminate].
    destruct (map_py f l) as [ys|e]; cbn [bind]; [|discriminate].
    intros H. injection H as <-. destruct (IH ys eq_refl) as [L E].
    split; [cbn [List.length]; rewrite L; reflexivity|].
    intros y [<-|Hy].
    + exists x. split; [left; reflexivity|exact Fx].
    + destruct (E y Hy) as [x' [Hx' Fx']]. exists x'.
      split; [right; exact Hx'|exact Fx'].
Qed.

Lemma map_score_one_properties (pool : list Property) (criteria : Criteria)
    (wm wl wv ws tw : Q) (l : list Property) :
  forall scored,
    map_py (score_one pool criteria wm wl wv ws tw) l = Return scored ->
    map property scored = l.
Proof.
  induction l as [|p l IH]; intros scored; cbn [map_py].
  - intros H. injection H as <-. reflexivity.
  - destruct (score_one pool criteria wm wl wv ws tw p) as [s|e] eqn:E;
      cbn [bind]; [|discriminate].
    destruct (map_py _ l) as [ss|e]; cbn [bind]; [|discriminate].
    intros H. injection H as <-. cbn [map].
    rewrite (IH ss eq_refl).
    destruct (score_one_scores _ _ _ _ _ _ _ _ E) as [-> _]. reflexivity.
Qed.

Lemma insert_desc_perm (x : Scored) (l : list Scored) :
  Permutation (insert_desc x l) (x :: l).
Proof.
  induction l as [|y l IH]; cbn [insert_desc]; [reflexivity|].
  destruct (Qgtb (score y) (score x)); [|reflexivity].
  rewrite IH. apply perm_swap.
Qed.

Lemma sort_desc_perm (l : list Scored) : Permutation (sort_desc l) l.
Proof.
  unfold sort_desc. induction l as [|x l IH]; cbn [fold_right];
    [reflexivity|].
  rewrite insert_desc_perm. constructor. exact IH.
Qed.

(** What [_score_properties] has done when it returns: it has read the
    four weights, and its result holds every candidate of the pool once,
    with what the loop has stored for it. *)
Lemma score_properties_inv (pool : list Property) (criteria : Criteria)
    (scored : list Scored) :
  _score_properties pool criteria = Return scored ->
  exists wm wl wv ws,
    weight (priorities criteria) w_monthly_cost = Return wm
    /\ weight (priorities criteria) w_location = Return wl
    /\ weight (priorities criteria) w_value = Return wv
    /\ weight (priorities criteria) w_space = Return ws
    /\ Permutation (map property scored) pool
    /\ forall s, In s scored ->
         In (property s) pool
         /\ score_one pool criteria wm wl wv ws (total_weight wm wl wv ws)
              (property s) = Return s.
Proof.
  unfold _score_properties. cbv zeta.
  destruct (weight (priorities criteria) w_monthly_cost) as [wm|e];
    cbn [bind]; [|discriminate].
  destruct (weight (priorities criteria) w_location) as [wl|e];
    cbn [bind]; [|discriminate].
  destruct (weight (priorities criteria) w_value) as [wv|e];
    cbn [bind]; [|discriminate].
  destruct (weight (priorities criteria) w_space) as [ws|e];
    cbn [bind]; [|discriminate].
  destruct (map_py _ pool) as [l|e] eqn:E; cbn [bind]; [|discriminate].
  intros H. injection H as <-.
  exists wm, wl, wv, ws. repeat (split; [reflexivity|]).
  pose proof (map_score_one_properties _ _ _ _ _ _ _ _ E) as Hp.
  split.
  - rewrite <- Hp. apply Permutation_map. apply sort_desc_perm.
  - intros s Hs. apply (Permutation_in _ (sort_desc_perm l)) in Hs.
    destruct (map_py_elements _ _ E) as [_ Hel].
    destruct (Hel s Hs) as [x [Hx Fx]].
    destruct (score_one_scores _ _ _ _ _ _ _ _ Fx) as [Px _].
    rewrite Px. split; [exact Hx|exact Fx].
Qed.

(** C7 (as amended).  In the result of [_score_properties] every
    candidate of the pool stands once, and the three normalised dimension
    scores stored for it are these: when its field has a value that counts
    (one that is neither missing nor zero), for the monthly cost and for the
    price per square foot [100 * (1 - (x - min) / (max - min))], for the
    surface [100 * (x - min) / (max - min)], where [min] and [max] are the
    least and the greatest of the values that count in the pool, and 100
    when these coincide; 50 when the field is missing or zero.  In a pool of
    three candidates with monthly costs 1000, 1500 and 2000 the first scores
    100 and the last scores 0 on the monthly cost. *)
Theorem dimension_scores_normalised (pool : list Property)
    (criteria : Criteria) (scored : list Scored) (s : Scored) :
  _score_properties pool criteria = Return scored ->
  In s scored ->
  Permutation (map property scored) pool
  /\ In (property s) pool
  /\ dimension_spec true total_monthly_cost pool (property s)
       (Return (s_monthly_cost (scores s)))
  /\ dimension_spec true price_per_sqft pool (property s)
       (Return (s_value (scores s)))
  /\ dimension_spec false (fun p => float_Z (sqft p)) pool (property s)
       (Return (s_space (scores s)))
  /\ forall p1 p2 p3,
       pool = [p1; p2; p3] ->
       total_monthly_cost p1 = Some 1000%Q ->
       total_monthly_cost p2 = Some 1500%Q ->
       total_monthly_cost p3 = Some 2000%Q ->
       (property s = p1 ->
        exists v, s_monthly_cost (scores s) = Some v /\ (v == 100)%Q)
       /\ (property s = p3 ->
           exists v, s_monthly_cost (scores s) = Some v /\ (v == 0)%Q).
Proof.
  intros R Hs.
  destruct (score_properties_inv _ _ R)
    as [wm [wl [wv [ws [_ [_ [_ [_ [Hperm Hel]]]]]]]]].
  destruct (Hel s Hs) as [I E].
  destruct (score_one_scores _ _ _ _ _ _ _ _ E) as [_ [M [V [S _]]]].
  split; [exact Hperm|]. split; [exact I|].
  split; [rewrite <- M; apply monthly_cost_score_spec; exact I|].
  split; [rewrite <- V; apply value_score_spec; exact I|].
  split; [rewrite <- S; apply space_score_spec; exact I|].
  intros p1 p2 p3 -> H1 H2 H3. split; intros P; rewrite P in M;
    unfold monthly_cost_score in M; cbn [truthy_values] in M;
    rewrite H1, H2, H3 in M; cbn in M; injection M as <-;
    eexists; (split; [reflexivity|reflexivity]).
Qed.

Lemma dimension_scores_normalised_witness :
  exists scored s,
    _score_properties [cheapest; middle; dearest] equal_weights
    = Return scored
    /\ In s scored
    /\ property s = cheapest
    /\ dimension_spec true total_monthly_cost [cheapest; middle; dearest]
         cheapest (Return (s_monthly_cost (scores s)))
    /\ exists v, s_monthly_cost (scores s) = Some v /\ (v == 100)%Q.
Proof.
  eexists. eexists.
  split; [vm_compute; reflexivity|].
  split; [left; reflexivity|].
  split; [reflexivity|].
  destruct (@dimension_scores_normalised [cheapest; middle; dearest]
              equal_weights _ _ eq_refl (or_introl eq_refl))
    as [_ [_ [D [_ [_ X]]]]].
  split; [exact D|].
  destruct (X cheapest middle dearest eq_refl eq_refl eq_refl eq_refl)
    as [X1 _].
  exact (X1 eq_refl).
Defined.

(** C7, the claim as written fails on a field that is zero.  Of two
    candidates with the monthly costs 0 and 1000 the claim's formula, with
    the least cost 0 and the greatest 1000, gives 100 to the first and 0 to
    the second; the engine passes over the zero as it does over a missing
    cost: the first gets 50, and the second, alone with a cost that counts,
    gets 100. *)
Lemma zero_cost_scores_as_missing :
  (r <- _score_properties
          [listing 1 (Some 0%Q); listing 2 (Some 1000%Q)] equal_weights ;;
   Return (map (fun s => (id (property s),
                          option_map Qred (s_monthly_cost (scores s)))) r))
  = Return [(2, Some 100%Q); (1, Some 50%Q)]
  /\ (100 * (1 - (0 - 0) / (1000 - 0)) == 100)%Q
  /\ (100 * (1 - (1000 - 0) / (1000 - 0)) == 0)%Q.
Proof. split; [vm_compute; reflexivity|split; reflexivity]. Qed.

Lemma round1_zero (x : Q) : (x == 0)%Q -> round1 x = 0 # 10.
Proof.
  intros H. unfold round1, round_half_even.
  assert (E : Qnum (x * 10) = 0).
  { unfold Qeq in H. simpl in *. lia. }
  rewrite E. reflexivity.
Qed.

Lemma total_weight_zero_sum (wm wl wv ws : Q) :
  (wm + wl + wv + ws == 0)%Q -> total_weight wm wl wv ws = 100%Q.
Proof.
  intros H. unfold total_weight. apply Qeq_eq_bool in H. rewrite H.
  reflexivity.
Qed.

Lemma score_one_zero_weights (pool : list Property) (criteria : Criteria)
    (wm wl wv ws : Q) (prop : Property) :
  city_preference criteria <> Null ->
  In prop pool ->
  (wm == 0)%Q -> (wl == 0)%Q -> (wv == 0)%Q -> (ws == 0)%Q ->
  exists s,
    score_one pool criteria wm wl wv ws (total_weight wm wl wv ws) prop
    = Return s
    /\ property s = prop /\ score s = 0 # 10.
Proof.
  intros N I Wm Wl Wv Ws.
  destruct (dimension_returns (@monthly_cost_score_spec pool prop I))
    as [mc Emc].
  destruct (dimension_returns (@value_score_spec pool prop I)) as [va Eva].
  destruct (dimension_returns (@space_score_spec pool prop I)) as [sp Esp].
  destruct (@location_score_returns criteria prop N) as [lo [Elo _]].
  unfold score_one. rewrite Emc, Eva, Esp, Elo.
  cbn [bind scores_get s_monthly_cost s_value s_space s_location].
  eexists. split; [reflexivity|]. split; [reflexivity|].
  cbn [score]. apply round1_zero.
  rewrite total_weight_zero_sum by (rewrite Wm, Wl, Wv, Ws; reflexivity).
  rewrite Wm, Wl, Wv, Ws. field.
Qed.

Lemma map_score_one_zero_weights (pool : list Property) (criteria : Criteria)
    (wm wl wv ws : Q) :
  city_preference criteria <> Null ->
  (wm == 0)%Q -> (wl == 0)%Q -> (wv == 0)%Q -> (ws == 0)%Q ->
  forall l, incl l pool ->
    exists scored,
      map_py (score_one pool criteria wm wl wv ws
                (total_weight wm wl wv ws)) l = Return scored
      /\ map property scored = l
      /\ Forall (fun s => score s = 0 # 10) scored.
Proof.
  intros N Wm Wl Wv Ws. induction l as [|p l IH]; intros Hincl.
  - exists []. repeat split. constructor.
  - destruct (@score_one_zero_weights pool criteria wm wl wv ws p N
                (Hincl p (or_introl eq_refl)) Wm Wl Wv Ws)
      as [s [Es [Ps Ss]]].
    destruct IH as [scored [El [Pl Fl]]].
    { intros q Hq. apply Hincl. right. exact Hq. }
    exists (s :: scored). cbn [map_py]. rewrite Es, El. cbn [bind map].
    split; [reflexivity|]. split; [congruence|].
    constructor; assumption.
Qed.

(** A stable sort leaves a list of equal scores as it is. *)
Lemma sort_desc_equal_scores (l : list Scored) :
  Forall (fun s => score s = 0 # 10) l -> sort_desc l = l.
Proof.
  unfold sort_desc. induction 1 as [|x l Hx Hl IH]; [reflexivity|].
  cbn [fold_right]. rewrite IH.
  destruct l as [|y l']; [reflexivity|].
  cbn [insert_desc]. inversion Hl as [|? ? Hy _]; subst.
  rewrite Hx, Hy. reflexivity.
Qed.

(** C4 (as amended).  When the four weights given by the caller are not
    negative and add up to zero, and the preferred city is not [None], the
    divisor of the weights is 100 and the weights themselves stay zero:
    every candidate gets the total score 0 and the pool keeps the order it
    came in. *)
Theorem zero_weights_score_zero (pool : list Property) (criteria : Criteria)
    (a b c d : Q) :
  priorities criteria
  = Value (mkPriorities (Value a) (Value b) (Value c) (Value d)) ->
  city_preference criteria <> Null ->
  (0 <= a)%Q -> (0 <= b)%Q -> (0 <= c)%Q -> (0 <= d)%Q ->
  (a + b + c + d == 0)%Q ->
  total_weight a b c d = 100%Q
  /\ exists scored,
       _score_properties pool criteria = Return scored
       /\ map property scored = pool
       /\ Forall (fun s => (score s == 0)%Q) scored.
Proof.
  intros P N Ha Hb Hc Hd Hsum.
  assert (Wm : (a == 0)%Q) by lra. assert (Wl : (b == 0)%Q) by lra.
  assert (Wv : (c == 0)%Q) by lra. assert (Ws : (d == 0)%Q) by lra.
  split.
  - apply total_weight_zero_sum. exact Hsum.
  - destruct (@map_score_one_zero_weights pool criteria a b c d N
                Wm Wl Wv Ws pool (incl_refl pool)) as [scored [E [Pr F]]].
    exists scored. unfold _score_properties. rewrite P.
    cbn [weight w_monthly_cost w_location w_value w_space bind].
    rewrite E. cbn [bind].
    rewrite (sort_desc_equal_scores F).
    split; [reflexivity|]. split; [exact Pr|].
    eapply Forall_impl; [|exact F]. intros s Hs. rewrite Hs. reflexivity.
Qed.

Lemma zero_weights_score_zero_witness :
  total_weight 0 0 0 0 = 100%Q
  /\ exists scored,
       _score_properties pool_of_three zero_weights = Return scored
       /\ map property scored = pool_of_three
       /\ Forall (fun s => (score s == 0)%Q) scored.
Proof.
  apply (@zero_weights_score_zero pool_of_three zero_weights 0 0 0 0);
    solve [reflexivity | vm_compute; discriminate | discriminate].
Defined.

(** C4, the claim as written fails: with four zero weights the candidates
    all score 0 and stay in the order of the pool, whereas under equal
    weights (25 each) the same pool is ranked by cost, with totals 90, 77.5
    and 65. *)
Lemma zero_weights_differ_from_equal_weights :
  (r <- _score_properties pool_of_three zero_weights ;;
   Return (map (fun s => (id (property s), Qred (score s))) r))
  = Return [(3, 0%Q); (2, 0%Q); (1, 0%Q)]
  /\ (r <- _score_properties pool_of_three equal_weights ;;
      Return (map (fun s => (id (property s), Qred (score s))) r))
     = Return [(1, 90%Q); (2, 155 # 2); (3, 65%Q)].
Proof. split; vm_compute; reflexivity. Qed.

(** ** Days on market *)

(** The percentage computed by the code against a whole number, in
    integers. *)
Lemma fast_pct_gt (k fast total : Z) :
  0 < total ->
  Qgtb (fast_pct_of fast total) (inject_Z k) = true
  <-> k * total < 100 * fast.
Proof.
  intros Ht. unfold Qgtb, fast_pct_of. rewrite Qltb_lt.
  destruct (total >? 0) eqn:C; [|lia].
  destruct total as [|t|t]; try lia.
  unfold Qlt, Qdiv, Qinv, inject_Z. cbn [Qnum Qden Qmult].
  rewrite ?Pos.mul_1_r, ?Pos.mul_1_l, ?Z.mul_1_r. lia.
Qed.

Lemma temperature_cases (fast total : Z) :
  0 < total ->
  (temperature_of (fast_pct_of fast total) = "hot"%string
   <-> 60 * total < 100 * fast)
  /\ (temperature_of (fast_pct_of fast total) = "warm"%string
      <-> 40 * total < 100 * fast <= 60 * total)
  /\ (temperature_of (fast_pct_of fast total) = "cool"%string
      <-> 20 * total < 100 * fast <= 40 * total)
  /\ (temperature_of (fast_pct_of fast total) = "cold"%string
      <-> 100 * fast <= 20 * total).
Proof.
  intros Ht. unfold temperature_of.
  pose proof (fast_pct_gt 60 fast Ht) as H60.
  pose proof (fast_pct_gt 40 fast Ht) as H40.
  pose proof (fast_pct_gt 20 fast Ht) as H20.
  change (inject_Z 60) with 60%Q in H60.
  change (inject_Z 40) with 40%Q in H40.
  change (inject_Z 20) with 20%Q in H20.
  destruct (Qgtb (fast_pct_of fast total) 60);
    destruct (Qgtb (fast_pct_of fast total) 40);
    destruct (Qgtb (fast_pct_of fast total) 20);
    repeat split; intros; try discriminate; try reflexivity;
    try (exfalso; lia); try lia;
    try (destruct H60 as [H60a H60b]; destruct H40 as [H40a H40b];
         destruct H20 as [H20a H20b];
         try (specialize (H60a eq_refl)); try (specialize (H40a eq_refl));
         try (specialize (H20a eq_refl));
         try (assert (~ 60 * total < 100 * fast)
                by (intros X; specialize (H60b X); discriminate));
         try (assert (~ 40 * total < 100 * fast)
                by (intros X; specialize (H40b X); discriminate));
         try (assert (~ 20 * total < 100 * fast)
                by (intros X; specialize (H20b X); discriminate));
         lia).
Qed.

Lemma filter_ext_len {A : Type} (f g : A -> bool) (l : list A) :
  (forall x, f x = g x) -> len (filter f l) = len (filter g l).
Proof. intros H. rewrite (filter_ext f g H). reflexivity. Qed.

Lemma buckets_partition (l : list Z) :
  len (filter (fun d => d <=? 14) l)
  + len (filter (fun d => (14 <? d) && (d <=? 45)) l)
  + len (filter (fun d => d >? 45) l)
  = len l.
Proof.
  unfold len. induction l as [|d l IH]; [reflexivity|].
  cbn [filter].
  destruct (d <=? 14) eqn:A; destruct (14 <? d) eqn:B;
    destruct (d <=? 45) eqn:C; destruct (d >? 45) eqn:D;
    cbn [andb List.length]; lia.
Qed.

(** C8.  For a pool with at least one days-on-market value, the values are
    split into fast (at most 14 days), moderate (15 to 45 days) and slow
    (more than 45 days), every value falling in one bucket; the temperature
    is hot when more than 60% of the values are fast, warm when more than
    40%, cool when more than 20%, cold otherwise.  So 70% of fast values
    give hot and 10% give cold. *)
Theorem market_temperature_thresholds (pool : list Property) :
  dom_values_of pool <> [] ->
  fast_moving (_analyze_dom_distribution pool)
    = len (filter (fun d => d <=? 14) (dom_values_of pool))
  /\ moderate (_analyze_dom_distribution pool)
     = len (filter (fun d => (15 <=? d) && (d <=? 45)) (dom_values_of pool))
  /\ slow_moving (_analyze_dom_distribution pool)
     = len (filter (fun d => 45 <? d) (dom_values_of pool))
  /\ fast_moving (_analyze_dom_distribution pool)
     + moderate (_analyze_dom_distribution pool)
     + slow_moving (_analyze_dom_distribution pool)
     = len (dom_values_of pool)
  /\ (market_temperature (_analyze_dom_distribution pool) = "hot"%string
      <-> 60 * len (dom_values_of pool)
          < 100 * fast_moving (_analyze_dom_distribution pool))
  /\ (market_temperature (_analyze_dom_distribution pool) = "warm"%string
      <-> 40 * len (dom_values_of pool)
          < 100 * fast_moving (_analyze_dom_distribution pool)
          <= 60 * len (dom_values_of pool))
  /\ (market_temperature (_analyze_dom_distribution pool) = "cool"%string
      <-> 20 * len (dom_values_of pool)
          < 100 * fast_moving (_analyze_dom_distribution pool)
          <= 40 * len (dom_values_of pool))
  /\ (market_temperature (_analyze_dom_distribution pool) = "cold"%string
      <-> 100 * fast_moving (_analyze_dom_distribution pool)
          <= 20 * len (dom_values_of pool))
  /\ (100 * fast_moving (_analyze_dom_distribution pool)
      = 70 * len (dom_values_of pool) ->
      market_temperature (_analyze_dom_distribution pool) = "hot"%string)
  /\ (100 * fast_moving (_analyze_dom_distribution pool)
      = 10 * len (dom_values_of pool) ->
      market_temperature (_analyze_dom_distribution pool) = "cold"%string).
Proof.
  intros Hne. unfold _analyze_dom_distribution.
  destruct (dom_values_of pool) as [|d0 l] eqn:E; [contradiction|].
  cbn [fast_moving moderate slow_moving market_temperature].
  set (vals := d0 :: l).
  assert (Ht : 0 < len vals) by (unfold len, vals; simpl; lia).
  destruct (temperature_cases (len (filter (fun d => d <=? 14) vals)) Ht)
    as [Hhot [Hwarm [Hcool Hcold]]].
  split; [reflexivity|].
  split.
  { apply filter_ext_len. intros x.
    destruct (14 <? x) eqn:A; destruct (15 <=? x) eqn:B; try reflexivity; lia. }
  split.
  { apply filter_ext_len. intros x.
    destruct (x >? 45) eqn:A; destruct (45 <? x) eqn:B; try reflexivity; lia. }
  split; [apply buckets_partition|].
  split; [exact Hhot|]. split; [exact Hwarm|]. split; [exact Hcool|].
  split; [exact Hcold|].
  split; intros H; [apply Hhot|apply Hcold]; lia.
Qed.

Lemma market_temperature_thresholds_witness :
  market_temperature (_analyze_dom_distribution pool_of_three) = "hot"%string
  <-> 60 * len (dom_values_of pool_of_three)
      < 100 * fast_moving (_analyze_dom_distribution pool_of_three).
Proof.
  assert (N : dom_values_of pool_of_three <> []) by (vm_compute; discriminate).
  exact (proj1 (proj2 (proj2 (proj2 (proj2
           (market_temperature_thresholds pool_of_three N)))))).
Defined.

(** ** Helpers of the pipelines *)

Section Absorption.

Variable lib : Library.

Lemma acquire_logged (s : Service) :
  acquired (snd (rate_limiter_acquire s))
  = acquired s ++ [fst (rate_limiter_acquire s)].
Proof.
  unfold rate_limiter_acquire.
  destruct (RateLimiter.acquire (rate_limiter s) (clock s)) as [[r rl] w].
  reflexivity.
Qed.

Lemma map_py_length {A B : Type} (f : A -> py B) (l : list A) :
  forall r, map_py f l = Return r -> List.length r = List.length l.
Proof.
  induction l as [|x l IH]; intros r; cbn [map_py].
  - intros H. injection H as <-. reflexivity.
  - destruct (f x) as [y|e]; cbn [bind]; [|discriminate].
    destruct (map_py f l) as [ys|e]; cbn [bind]; [|discriminate].
    intros H. injection H as <-. cbn [List.length]. rewrite (IH ys eq_refl).
    reflexivity.
Qed.

(** The fallback generator of the comparison can only fail on the format
    of a missing number. *)
Lemma fallback_comparison_raises (properties_ : list Property) (e : exn) :
  properties_ <> [] ->
  _generate_fallback_comparison lib properties_ = Raise e ->
  e = TypeError "unsupported format string passed to NoneType.__format__".
Proof.
  intros Hne. unfold _generate_fallback_comparison.
  destruct properties_ as [|p ps]; [contradiction|].
  unfold enumerate. cbn [List.length seq combine min_by_key bind].
  unfold format_spec.
  destruct (total_monthly_cost _); cbn [bind];
    [|intros H; injection H as <-; reflexivity].
  destruct (price_per_sqft _); cbn [bind];
    [discriminate|intros H; injection H as <-; reflexivity].
Qed.

End Absorption.

(** ** The letters of a comparison *)

Lemma property_details_letters (properties_ : list Property) :
  forall i,
    map (fun d => (property_id d, property_letter d))
        (property_details_from i properties_)
    = combine (map id properties_)
              (map letter (seq i (List.length properties_))).
Proof.
  induction properties_ as [|p ps IH]; intros i; [reflexivity|].
  cbn [property_details_from map List.length seq combine property_id
       property_letter].
  rewrite IH. reflexivity.
Qed.

Lemma properties_dict_get_id (fetched : list Property) (pid : Z)
    (p : Property) :
  properties_dict_get fetched pid = Return p -> id p = pid.
Proof.
  unfold properties_dict_get.
  destruct (find _ _) as [q|] eqn:F; [|discriminate].
  intros H. injection H as <-. apply find_some in F.
  apply Z.eqb_eq. tauto.
Qed.

(** The list handed to the prompt and to the parsers follows the request. *)
Lemma properties_in_request_order (fetched : list Property) (ids : list Z) :
  forall properties_,
    map_py (properties_dict_get fetched) ids = Return properties_ ->
    map id properties_ = ids.
Proof.
  induction ids as [|pid ids IH]; intros properties_; cbn [map_py].
  - intros H. injection H as <-. reflexivity.
  - destruct (properties_dict_get fetched pid) as [p|e] eqn:E; cbn [bind];
      [|discriminate].
    destruct (map_py (properties_dict_get fetched) ids) as [ps|e]; cbn [bind];
      [|discriminate].
    intros H. injection H as <-. cbn [map].
    rewrite (IH ps eq_refl), (properties_dict_get_id _ _ E). reflexivity.
Qed.

Section Letters.

Variable lib : Library.

Lemma fallback_comparison_details (properties_ : list Property) (r : Result) :
  _generate_fallback_comparison lib properties_ = Return r ->
  properties r = Some (property_details_from 0 properties_).
Proof.
  unfold _generate_fallback_comparison.
  destruct (min_by_key _ _) as [mw|e]; cbn [bind]; [|discriminate].
  destruct (min_by_key _ _) as [vw|e]; cbn [bind]; [|discriminate].
  destruct (format_spec _ _) as [mt|e]; cbn [bind]; [|discriminate].
  destruct (format_spec _ _) as [vt|e]; cbn [bind]; [|discriminate].
  intros H. injection H as <-. reflexivity.
Qed.

Lemma parse_comparison_details (ai_text : string)
    (properties_ : list Property) (r : Result) :
  _parse_comparison_response lib ai_text properties_ = Return r ->
  properties r = Some (property_details_from 0 properties_).
Proof.
  unfold _parse_comparison_response.
  destruct (search_braces ai_text) as [m|].
  - destruct (json_loads lib m) as [parsed|].
    + intros H. injection H as <-. reflexivity.
    + apply fallback_comparison_details.
  - intros H. injection H as <-. reflexivity.
Qed.

(** What the model call or its fallback puts under [properties] is what
    the request returns. *)
Lemma call_or_fallback_details (env : Env) (key prompt : string)
    (parse : string -> py Result) (fallback : py Result) (ttl : Z)
    (details : list PropertyDetail) (s : Service) (r : Result) :
  (forall t r', parse t = Return r' -> properties r' = Some details) ->
  (forall r', fallback = Return r' -> properties r' = Some details) ->
  fst (call_or_fallback env key prompt parse fallback ttl s) = Return r ->
  properties r = Some details.
Proof.
  intros Hp Hf.
  destruct (call_or_fallback env key prompt parse fallback ttl s)
    as [out s'] eqn:E.
  cbv beta iota delta [call_or_fallback bindM try_except lift ret cache_set
                         alias_from_cache] in E.
  destruct (rate_limiter_acquire s) as [[[]|e] s1].
  - destruct (generate_content env prompt) as [ai_text|e1];
      [destruct (parse ai_text) as [r0|e2] eqn:P|];
      try destruct fallback as [r'|e3];
      injection E as <- <-; cbn [fst]; intros H; try discriminate;
      injection H as <-; cbn [properties set_from_cache set_error]; eauto.
  - destruct fallback as [r'|e3]; injection E as <- <-; cbn [fst];
      intros H; try discriminate.
    injection H as <-. cbn [properties set_from_cache set_error]. eauto.
Qed.

(** On a cache miss, on the path through the model as on the fallback
    path, the letters A, B, C... go to the ids in the order of the
    request. *)
Lemma compare_miss_letters (env : Env) (property_ids : list Z)
    (aspects : option (list string)) (s : Service) (r : Result) :
  fst (cache_get
         (generate_key lib "compare"
            (CompareParams (sorted property_ids)
               (match aspects with Some (a :: l) => a :: l | _ => [] end)))
         s) = Return None ->
  fst (compare_properties lib env property_ids aspects s) = Return r ->
  letter_mapping (Return r)
  = Some (combine property_ids
            (map letter (seq 0 (List.length property_ids)))).
Proof.
  intros Hmiss. unfold compare_properties.
  destruct (len property_ids <? 2); [discriminate|].
  destruct (len property_ids >? 5); [discriminate|].
  unfold cached_or. unfold bindM at 1.
  destruct (cache_get _ s) as [[c|e] s0]; cbn [fst] in Hmiss;
    [|discriminate].
  injection Hmiss as ->.
  destruct (negb _); [discriminate|].
  unfold bindM at 1. unfold lift at 1.
  destruct (map_py _ property_ids) as [properties_|e] eqn:Hp;
    [|discriminate].
  unfold bindM at 1. unfold lift at 1.
  destruct (_format_comparison_context lib properties_) as [context|e];
    [|discriminate].
  unfold bindM at 1. unfold lift at 1.
  destruct (_build_comparison_prompt lib context _ aspects) as [prompt|e];
    [|discriminate].
  intros H.
  apply call_or_fallback_details
    with (details := property_details_from 0 properties_) in H.
  - unfold letter_mapping. rewrite H. cbn [option_map].
    rewrite property_details_letters.
    pose proof (map_py_length _ _ Hp) as Hl.
    rewrite (properties_in_request_order _ _ Hp), Hl. reflexivity.
  - intros t r'. apply parse_comparison_details.
  - intros r'. apply fallback_comparison_details.
Qed.

End Letters.

(** C2, the defect.  A new service asked to compare [42; 7] names 42 as A
    and 7 as B.  Asked first to compare [7; 42] and then [42; 7], it answers
    the second request from the cache, whose key is made of the sorted ids:
    7 is A and 42 is B, against the order of the request. *)
Theorem compare_cache_hit_keeps_earlier_letters :
  letter_mapping
    (fst (compare_properties demo_lib demo_env [42; 7] None (new_service 0)))
  = Some [(42, "A"%string); (7, "B"%string)]
  /\ letter_mapping
       (fst (compare_properties demo_lib demo_env [42; 7] None
               (snd (compare_properties demo_lib demo_env [7; 42] None
                       (new_service 0)))))
     = Some [(7, "A"%string); (42, "B"%string)]
  /\ option_map from_cache
       (match fst (compare_properties demo_lib demo_env [42; 7] None
                     (snd (compare_properties demo_lib demo_env [7; 42] None
                             (new_service 0)))) with
        | Return r => Some r
        | Raise _ => None
        end)
     = Some (Some true).
Proof. repeat split; vm_compute; reflexivity. Qed.

(** The digest of the examples tells lists of ids apart. *)
Lemma unary_inj (n : nat) :
  forall m r r', unary n r = unary m r' -> n = m /\ r = r'.
Proof.
  induction n as [|n IH]; intros [|m] r r' H; simpl in H;
    try discriminate.
  - injection H as ->. auto.
  - injection H as H. destruct (IH m r r' H) as [-> ->]. auto.
Qed.

Lemma zigzag_inj (x y : Z) : zigzag x = zigzag y -> x = y.
Proof.
  unfold zigzag. destruct (x <? 0) eqn:X; destruct (y <? 0) eqn:Y; lia.
Qed.

Lemma encode_ids_inj (ids : list Z) :
  forall ids', encode_ids ids = encode_ids ids' -> ids = ids'.
Proof.
  induction ids as [|x ids IH]; intros [|y ids'] H; simpl in H.
  - reflexivity.
  - destruct (zigzag y); discriminate.
  - destruct (zigzag x); discriminate.
  - apply unary_inj in H. destruct H as [Hz Hr].
    apply zigzag_inj in Hz. rewrite (IH ids' Hr), Hz. reflexivity.
Qed.

Lemma demo_digest_separates_ids : digest_separates_ids demo_lib.
Proof. intros ids a ids' a' H. apply encode_ids_inj. exact H. Qed.


(** * Further properties *)

(** ** The rate limiter, continued *)

Module RateLimiterMore.

Import RateLimiter.

Lemma filter_all_true {A : Type} (f : A -> bool) (l : list A) :
  Forall (fun x => f x = true) l -> filter f l = l.
Proof.
  induction 1 as [|x l Hx Hl IH]; [reflexivity|].
  cbn [filter]. rewrite Hx, IH. reflexivity.
Qed.

Lemma filter_gives_all_true {A : Type} (f : A -> bool) (l : list A) :
  Forall (fun x => f x = true) (filter f l).
Proof.
  apply Forall_forall. intros x H. apply filter_In in H. tauto.
Qed.

Lemma fresh_later (window c1 c2 t : Q) :
  (c1 <= c2)%Q -> fresh window c2 t = true -> fresh window c1 t = true.
Proof.
  unfold fresh. intros Hc H. apply Qltb_lt in H. apply Qltb_lt. lra.
Qed.

(** A purge at a later time makes an earlier purge redundant. *)
Lemma purge_later (window c1 c2 : Q) (l : list Q) :
  (c1 <= c2)%Q ->
  filter (fresh window c2) (filter (fresh window c1) l)
  = filter (fresh window c2) l.
Proof.
  intros Hc. induction l as [|t l IH]; [reflexivity|].
  cbn [filter]. destruct (fresh window c1 t) eqn:F1.
  - cbn [filter]. rewrite IH. reflexivity.
  - rewrite IH. destruct (fresh window c2 t) eqn:F2; [|reflexivity].
    rewrite (fresh_later _ _ Hc F2) in F1. discriminate.
Qed.

Lemma cleanup_minute (self : t) (now : Q) :
  minute_requests (_cleanup_old_requests self now)
  = filter (fresh (minute_window self) now) (minute_requests self).
Proof. reflexivity. Qed.

Lemma cleanup_day (self : t) (now : Q) :
  day_requests (_cleanup_old_requests self now)
  = filter (fresh (day_window self) now) (day_requests self).
Proof. reflexivity. Qed.

Lemma cleanup_purged (self : t) (now : Q) :
  Forall (fun t => fresh (minute_window self) now t = true)
         (minute_requests self) ->
  Forall (fun t => fresh (day_window self) now t = true)
         (day_requests self) ->
  _cleanup_old_requests self now = self.
Proof.
  intros Hm Hd. destruct self as [mm md wm wd lm ld].
  unfold _cleanup_old_requests, set_requests. cbn in *.
  f_equal; apply filter_all_true; assumption.
Qed.

Lemma cleanup_later (self : t) (c1 c2 : Q) :
  (c1 <= c2)%Q ->
  _cleanup_old_requests (_cleanup_old_requests self c1) c2
  = _cleanup_old_requests self c2.
Proof.
  intros Hc. unfold _cleanup_old_requests, set_requests. cbn.
  f_equal; apply purge_later; exact Hc.
Qed.

(** What the loop of [acquire] does to a limiter purged at the time of the
    clock. *)
Lemma minute_loop_effect (fuel : nat) :
  forall (self : t) (w : Clock) (r : py Q) (self' : t) (w' : Clock),
    Forall (fun t => fresh (minute_window self) (clock_now w) t = true)
           (minute_requests self) ->
    Forall (fun t => fresh (day_window self) (clock_now w) t = true)
           (day_requests self) ->
    minute_loop fuel self (time_time w) w = Some (r, self', w') ->
    (clock_now w <= clock_now w')%Q
    /\ self' = _cleanup_old_requests self (clock_now w')
    /\ (exists more, clock_slept w' = clock_slept w ++ more)
    /\ match r with
       | Return now' =>
           now' = clock_now w'
           /\ len (minute_requests self') < max_per_minute self
       | Raise e =>
           e = IndexError "list index out of range"
           /\ minute_requests self' = [] /\ max_per_minute self <= 0
       end.
Proof.
  induction fuel as [|fuel IH]; intros self w r self' w' Hm Hd;
    pose proof (cleanup_purged self (clock_now w) Hm Hd) as Hp;
    cbn [minute_loop].
  - destruct (len (minute_requests self) >=? max_per_minute self) eqn:C;
      [discriminate|].
    intros H. injection H as <- <- <-.
    split; [apply Qle_refl|]. split; [symmetry; exact Hp|].
    split; [exists []; rewrite app_nil_r; reflexivity|].
    split; [reflexivity|lia].
  - destruct (len (minute_requests self) >=? max_per_minute self) eqn:C.
    + destruct (minute_requests self) as [|oldest rest] eqn:E.
      * intros H. injection H as <- <- <-.
        split; [apply Qle_refl|]. split; [symmetry; exact Hp|].
        split; [exists []; rewrite app_nil_r; reflexivity|].
        split; [reflexivity|]. split; [exact E|].
        unfold len in C. cbn in C. lia.
      * cbv zeta.
        assert (Hw : Qgtb (minute_window self - (time_time w - oldest)) 0
                     = true).
        { inversion Hm as [|? ? Ho _]; subst. unfold fresh in Ho.
          apply Qltb_lt in Ho. unfold Qgtb, time_time. apply Qltb_lt. lra. }
        rewrite Hw.
        set (d := (minute_window self - (time_time w - oldest) + (1 # 10))%Q).
        intros H.
        assert (Hd0 : (0 <= d)%Q).
        { unfold Qgtb in Hw. apply Qltb_lt in Hw. unfold d. lra. }
        assert (Hc0 : (clock_now w <= clock_now (sleep d w))%Q)
          by (cbn; lra).
        apply (IH (_cleanup_old_requests self (time_time (sleep d w)))
                  (sleep d w)) in H.
        -- destruct H as [Hc [Hs [[more Hl] Hr]]].
           split; [lra|]. split.
           ++ rewrite Hs. apply cleanup_later. exact Hc.
           ++ split.
              ** exists (d :: more). rewrite Hl. cbn [sleep clock_slept].
                 rewrite <- app_assoc. reflexivity.
              ** exact Hr.
        -- apply filter_gives_all_true.
        -- apply filter_gives_all_true.
    + intros H. injection H as <- <- <-.
      split; [apply Qle_refl|]. split; [symmetry; exact Hp|].
      split; [exists []; rewrite app_nil_r; reflexivity|].
      split; [reflexivity|lia].
Qed.

(** [acquire] as a whole: the clock only moves forward by the waits; the
    limiter ends purged at the final time, with this time recorded when the
    call returns and nothing recorded when it raises. *)
Lemma acquire_effect (self : t) (w : Clock) (r : py unit) (self' : t)
    (w' : Clock) :
  acquire self w = (r, self', w') ->
  (clock_now w <= clock_now w')%Q
  /\ (exists more, clock_slept w' = clock_slept w ++ more)
  /\ match r with
     | Return _ =>
         self'
         = set_requests self
             (minute_requests (_cleanup_old_requests self (clock_now w'))
              ++ [clock_now w'])
             (day_requests (_cleanup_old_requests self (clock_now w'))
              ++ [clock_now w'])
         /\ len (minute_requests (_cleanup_old_requests self (clock_now w')))
            < max_per_minute self
         /\ len (day_requests (_cleanup_old_requests self (clock_now w')))
            < max_per_day self
     | Raise e =>
         self' = _cleanup_old_requests self (clock_now w')
         /\ ((e = IndexError "list index out of range"
              /\ ((minute_requests self' = [] /\ max_per_minute self <= 0)
                  \/ (day_requests self' = [] /\ max_per_day self <= 0)))
             \/ (exists oldest rest,
                   day_requests self' = oldest :: rest
                   /\ max_per_day self <= len (day_requests self')
                   /\ e = QuotaExceeded
                           (day_window self - (clock_now w' - oldest))))
     end.
Proof.
  unfold acquire.
  destruct (RateLimiterFacts.acquire_loop_result self w) as [[[r0 s0] w0] E].
  rewrite E. intros H.
  apply minute_loop_effect in E;
    [|apply filter_gives_all_true|apply filter_gives_all_true].
  destruct E as [Hc [Hs [Hl Hr]]].
  rewrite cleanup_later in Hs by exact Hc.
  destruct r0 as [now'|e0].
  - destruct Hr as [-> Hmin].
    unfold day_check_and_record in H.
    replace (max_per_minute (_cleanup_old_requests self (time_time w)))
      with (max_per_minute self) in Hmin by reflexivity.
    replace (max_per_day s0) with (max_per_day self) in H
      by (rewrite Hs; reflexivity).
    replace (day_window s0) with (day_window self) in H
      by (rewrite Hs; reflexivity).
    destruct (len (day_requests s0) >=? max_per_day self) eqn:D.
    + destruct (day_requests s0) as [|oldest rest] eqn:Ed.
      * injection H as <- <- <-. split; [exact Hc|]. split; [exact Hl|].
        split; [exact Hs|]. left. split; [reflexivity|]. right.
        split; [exact Ed|]. unfold len in D. cbn in D. lia.
      * assert (Hy : (0 < day_window self - (clock_now w0 - oldest))%Q).
        { apply RateLimiterFacts.day_head_young with (rest := rest).
          rewrite <- Hs. exact Ed. }
        unfold Qgtb in H. apply Qltb_lt in Hy. rewrite Hy in H.
        injection H as <- <- <-. split; [exact Hc|]. split; [exact Hl|].
        split; [exact Hs|]. right. exists oldest, rest.
        split; [exact Ed|]. split; [rewrite Ed; lia|reflexivity].
    + injection H as <- <- <-. split; [exact Hc|]. split; [exact Hl|].
      rewrite Hs in *. split; [reflexivity|]. split; [exact Hmin|lia].
  - destruct Hr as [-> [Hm Hz]]. injection H as <- <- <-.
    split; [exact Hc|]. split; [exact Hl|]. split; [exact Hs|].
    left. split; [reflexivity|]. left. split; [exact Hm|exact Hz].
Qed.

(** What a granted call leaves in the limiter. *)
Lemma acquire_return_effect (self : t) (w : Clock) (self' : t)
    (w' : Clock) :
  acquire self w = (Return tt, self', w') ->
  minute_requests self'
  = filter (fresh (minute_window self) (clock_now w')) (minute_requests self)
    ++ [clock_now w']
  /\ day_requests self'
     = filter (fresh (day_window self) (clock_now w')) (day_requests self)
       ++ [clock_now w']
  /\ len (minute_requests self') <= max_per_minute self'
  /\ len (day_requests self') <= max_per_day self'.
Proof.
  intros H. apply acquire_effect in H.
  destruct H as [_ [_ [-> [Hm Hd]]]].
  cbn [set_requests minute_requests day_requests max_per_minute max_per_day].
  rewrite cleanup_minute in *. rewrite cleanup_day in *.
  split; [reflexivity|]. split; [reflexivity|].
  unfold len in *. rewrite !length_app. cbn [List.length]. lia.
Qed.

(** X1.  When [acquire] returns, the limiter holds what a purge at the
    time of the return leaves, followed by that time, in both windows, and
    neither window exceeds its capacity. *)
Theorem acquire_return_records_within_limits (self : t) (w : Clock)
    (self' : t) (w' : Clock) :
  acquire self w = (Return tt, self', w') ->
  minute_requests self'
  = filter (fresh (minute_window self) (clock_now w')) (minute_requests self)
    ++ [clock_now w']
  /\ day_requests self'
     = filter (fresh (day_window self) (clock_now w')) (day_requests self)
       ++ [clock_now w']
  /\ len (minute_requests self') <= max_per_minute self'
  /\ len (day_requests self') <= max_per_day self'.
Proof.
  intros H. apply acquire_effect in H.
  destruct H as [_ [_ [E [Hm Hd]]]]. subst self'.
  cbn [set_requests minute_requests day_requests max_per_minute max_per_day].
  rewrite cleanup_minute in Hm |- *. rewrite cleanup_day in Hd |- *.
  repeat (split; [reflexivity|]).
  unfold len in *. rewrite !length_app. cbn [List.length]. lia.
Qed.

Lemma acquire_return_records_within_limits_witness :
  minute_requests (set_requests (init 2 5) [100%Q; 130%Q] [10%Q; 100%Q; 130%Q])
  = filter (fresh 60 130) [10%Q; 100%Q]
    ++ [130%Q]
  /\ day_requests (set_requests (init 2 5) [100%Q; 130%Q] [10%Q; 100%Q; 130%Q])
     = filter (fresh 86400 130) [10%Q; 100%Q] ++ [130%Q]
  /\ len [100%Q; 130%Q] <= 2
  /\ len [10%Q; 100%Q; 130%Q] <= 5.
Proof.
  apply (@acquire_return_records_within_limits
           (set_requests (init 2 5) [10%Q; 100%Q] [10%Q; 100%Q])
           (mkClock 130 [])
           (set_requests (init 2 5) [100%Q; 130%Q] [10%Q; 100%Q; 130%Q])
           (mkClock 130 [])).
  vm_compute. reflexivity.
Defined.

(** X2.  A limiter whose two limits are at least 1 never fails on an empty
    window: when [acquire] raises, it raises the daily-quota exception, the
    day window is at its capacity, and the limiter has only been purged. *)
Theorem acquire_raises_only_quota (self : t) (w : Clock) (e : exn)
    (self' : t) (w' : Clock) :
  1 <= max_per_minute self -> 1 <= max_per_day self ->
  acquire self w = (Raise e, self', w') ->
  self' = _cleanup_old_requests self (clock_now w')
  /\ max_per_day self <= len (day_requests self')
  /\ exists oldest rest,
       day_requests self' = oldest :: rest
       /\ e = QuotaExceeded (day_window self - (clock_now w' - oldest)).
Proof.
  intros Hm Hd H. apply acquire_effect in H.
  destruct H as [_ [_ [Hs [[_ [[_ Hz]|[_ Hz]]]|[oldest [rest [Ed [Hl He]]]]]]]];
    try lia.
  split; [exact Hs|]. split; [exact Hl|]. exists oldest, rest. auto.
Qed.

Lemma acquire_raises_only_quota_witness :
  set_requests (init 15 1) [] [100%Q]
  = _cleanup_old_requests (set_requests (init 15 1) [] [100%Q]) 160
  /\ max_per_day (set_requests (init 15 1) [] [100%Q])
     <= len (day_requests (set_requests (init 15 1) [] [100%Q]))
  /\ exists oldest rest,
       day_requests (set_requests (init 15 1) [] [100%Q]) = oldest :: rest
       /\ Exception_ "Daily API quota exceeded. Try again in 1439 minutes."
          = QuotaExceeded
              (day_window (set_requests (init 15 1) [] [100%Q])
               - (160 - oldest)).
Proof.
  apply (@acquire_raises_only_quota
           (set_requests (init 15 1) [] [100%Q]) (mkClock 160 [])
           (Exception_ "Daily API quota exceeded. Try again in 1439 minutes.")
           (set_requests (init 15 1) [] [100%Q]) (mkClock 160 []));
    [vm_compute; discriminate|vm_compute; discriminate|].
  vm_compute. reflexivity.
Defined.

Lemma acquire_keeps_settings (self : t) (w : Clock) :
  max_per_minute (snd (fst (acquire self w))) = max_per_minute self
  /\ max_per_day (snd (fst (acquire self w))) = max_per_day self
  /\ minute_window (snd (fst (acquire self w))) = minute_window self
  /\ day_window (snd (fst (acquire self w))) = day_window self.
Proof.
  destruct (acquire self w) as [[r self'] w'] eqn:E.
  apply acquire_effect in E. destruct E as [_ [_ E]]. cbn [fst snd].
  destruct r as [u|e].
  - destruct E as [-> _]. repeat split.
  - destruct E as [-> _]. repeat split.
Qed.

Lemma split_last {A : Type} (pre post g : list A) (a x : A) :
  pre ++ a :: post = g ++ [x] ->
  (post = [] /\ pre = g /\ a = x)
  \/ (exists post', post = post' ++ [x] /\ g = pre ++ a :: post').
Proof.
  destruct post as [|y post' _] using rev_ind; intros H.
  - left. apply app_inj_tail in H. destruct H as [-> ->]. auto.
  - right. exists post'.
    change (pre ++ a :: post' ++ [y]) with (pre ++ (a :: post') ++ [y]) in H.
    rewrite app_assoc in H. apply app_inj_tail in H.
    destruct H as [<- ->]. auto.
Qed.

Lemma len_filter_snoc (f : Q -> bool) (l : list Q) (x : Q) :
  len (filter f (l ++ [x])) <= len (filter f l) + 1.
Proof.
  rewrite filter_app. unfold len. rewrite length_app. cbn [filter].
  destruct (f x); cbn [List.length]; lia.
Qed.

(** One call of [acquire] by a caller who has kept the limits so far. *)
Lemma acquire_keeps_grants (self : t) (w : Clock) (granted : list Q)
    (d : Q) (r : py unit) (self' : t) (w' : Clock) :
  (0 <= d)%Q ->
  windows_agree self w granted -> grants_within self granted ->
  acquire self (tick d w) = (r, self', w') ->
  windows_agree self' w'
    (match r with Return _ => granted ++ [clock_now w'] | Raise _ => granted end)
  /\ grants_within self'
       (match r with Return _ => granted ++ [clock_now w'] | Raise _ => granted
        end).
Proof.
  intros Hd Hagree Hwithin H.
  pose proof (acquire_keeps_settings self (tick d w)) as Hset.
  rewrite H in Hset. cbn [fst snd] in Hset.
  destruct Hset as [Hmm [Hmd [Hwm Hwd]]].
  apply acquire_effect in H. destruct H as [Hc [_ H]].
  assert (Hc' : (clock_now w <= clock_now w')%Q) by (cbn in Hc; lra).
  destruct r as [u|e].
  - destruct H as [Hs [Hlm Hld]].
    rewrite cleanup_minute in Hlm. rewrite cleanup_day in Hld.
    destruct (Hagree _ Hc') as [Am Ad].
    split.
    + intros c Hcc. rewrite Hwm, Hwd. rewrite Hs.
      cbn [set_requests minute_requests day_requests].
      rewrite cleanup_minute, cleanup_day, !filter_app.
      rewrite !purge_later by exact Hcc.
      destruct (Hagree c ltac:(lra)) as [Bm Bd].
      rewrite Bm, Bd. split; reflexivity.
    + intros pre a post Hsplit. rewrite Hmm, Hmd, Hwm, Hwd.
      symmetry in Hsplit. apply split_last in Hsplit.
      destruct Hsplit as [[-> [-> ->]]|[post' [-> Hg]]].
      * rewrite Am in Hlm. rewrite Ad in Hld.
        pose proof (len_filter_snoc
                      (fresh (minute_window self) (clock_now w')) granted
                      (clock_now w')).
        pose proof (len_filter_snoc
                      (fresh (day_window self) (clock_now w')) granted
                      (clock_now w')).
        lia.
      * exact (Hwithin pre a post' Hg).
  - destruct H as [Hs _]. split.
    + intros c Hcc. rewrite Hwm, Hwd. rewrite Hs.
      rewrite cleanup_minute, cleanup_day.
      rewrite !purge_later by exact Hcc.
      exact (Hagree c ltac:(lra)).
    + intros pre a post Hsplit. rewrite Hmm, Hmd, Hwm, Hwd.
      exact (Hwithin pre a post Hsplit).
Qed.

Lemma acquire_all_settings (delays : list Q) :
  forall (self : t) (w : Clock) (granted : list Q),
    max_per_minute (fst (fst (acquire_all delays self w granted)))
    = max_per_minute self
    /\ max_per_day (fst (fst (acquire_all delays self w granted)))
       = max_per_day self
    /\ minute_window (fst (fst (acquire_all delays self w granted)))
       = minute_window self
    /\ day_window (fst (fst (acquire_all delays self w granted)))
       = day_window self.
Proof.
  induction delays as [|d delays IH]; intros self w granted;
    cbn [acquire_all]; [repeat split|].
  pose proof (acquire_keeps_settings self (tick d w)) as Hset.
  destruct (acquire self (tick d w)) as [[r self'] w'].
  cbn [fst snd] in Hset. destruct Hset as [Hmm [Hmd [Hwm Hwd]]].
  rewrite <- Hmm, <- Hmd, <- Hwm, <- Hwd. apply IH.
Qed.

Lemma acquire_all_keeps_grants (delays : list Q) :
  forall (self : t) (w : Clock) (granted : list Q),
    Forall (fun d => (0 <= d)%Q) delays ->
    windows_agree self w granted -> grants_within self granted ->
    grants_within (fst (fst (acquire_all delays self w granted)))
                  (snd (acquire_all delays self w granted)).
Proof.
  induction delays as [|d delays IH]; intros self w granted Hd Ha Hw;
    cbn [acquire_all]; [exact Hw|].
  inversion Hd as [|? ? Hd0 Hds]; subst.
  destruct (acquire self (tick d w)) as [[r self'] w'] eqn:E.
  destruct (@acquire_keeps_grants self w granted d r self' w' Hd0 Ha Hw E)
    as [Ha' Hw'].
  apply IH; assumption.
Qed.

(** X3.  Whatever the pauses between the calls, the calls that a limiter
    with the limits [n1] per minute and [n2] per day lets through respect
    both limits: at each granted call, the granted calls of the last 60
    seconds, itself included, are at most [n1], and those of the last 86400
    seconds at most [n2]. *)
Theorem granted_calls_respect_limits (n1 n2 : Z) (delays : list Q)
    (w : Clock) (pre post : list Q) (a : Q) :
  Forall (fun d => (0 <= d)%Q) delays ->
  snd (acquire_all delays (init n1 n2) w []) = pre ++ a :: post ->
  len (filter (fresh 60 a) (pre ++ [a])) <= n1
  /\ len (filter (fresh 86400 a) (pre ++ [a])) <= n2.
Proof.
  intros Hd Hsplit.
  assert (Hg : grants_within
                 (fst (fst (acquire_all delays (init n1 n2) w [])))
                 (snd (acquire_all delays (init n1 n2) w []))).
  { apply acquire_all_keeps_grants; [exact Hd| |].
    - intros c _. split; reflexivity.
    - intros p x q Hq. destruct p; discriminate. }
  specialize (Hg pre a post Hsplit).
  destruct (acquire_all_settings delays (init n1 n2) w [])
    as [Hmm [Hmd [Hwm Hwd]]].
  rewrite Hmm, Hmd, Hwm, Hwd in Hg. exact Hg.
Qed.

Lemma granted_calls_respect_limits_witness :
  len (filter (fresh 60 (701 # 10)) ([10%Q; 10%Q] ++ [701 # 10])) <= 2
  /\ len (filter (fresh 86400 (701 # 10)) ([10%Q; 10%Q] ++ [701 # 10])) <= 5.
Proof.
  apply (@granted_calls_respect_limits 2 5 [10%Q; 0%Q; 0%Q; 0%Q]
           (mkClock 0 []) [10%Q; 10%Q] [701 # 10] (701 # 10)).
  - repeat constructor; discriminate.
  - vm_compute. reflexivity.
Defined.

(** X4.  When the minute window is at its capacity (of at least one
    request) after the purge, [acquire] waits: its first wait lasts until
    the first request of the window is a minute old, and a tenth of a second
    more. *)
Theorem acquire_minute_full_waits (self : t) (w : Clock) :
  1 <= max_per_minute self ->
  max_per_minute self
    <= len (minute_requests (_cleanup_old_requests self (time_time w))) ->
  exists oldest rest more,
    minute_requests (_cleanup_old_requests self (time_time w))
    = oldest :: rest
    /\ (0 < minute_window self - (time_time w - oldest))%Q
    /\ clock_slept (snd (acquire self w))
       = clock_slept w
         ++ (minute_window self - (time_time w - oldest) + (1 # 10))%Q
            :: more.
Proof.
  intros Hpos Hfull.
  destruct (minute_requests (_cleanup_old_requests self (time_time w)))
    as [|oldest rest] eqn:E.
  { unfold len in Hfull. cbn in Hfull. lia. }
  assert (Hy : (0 < minute_window self - (time_time w - oldest))%Q).
  { pose proof (filter_gives_all_true
                  (fresh (minute_window self) (time_time w))
                  (minute_requests self)) as F.
    rewrite <- cleanup_minute, E in F.
    inversion F as [|? ? Ho _]; subst. unfold fresh in Ho.
    apply Qltb_lt in Ho. lra. }
  exists oldest, rest.
  unfold acquire. cbn [minute_loop]. rewrite E.
  replace (max_per_minute (_cleanup_old_requests self (time_time w)))
    with (max_per_minute self) by reflexivity.
  replace (minute_window (_cleanup_old_requests self (time_time w)))
    with (minute_window self) by reflexivity.
  destruct (len (oldest :: rest) >=? max_per_minute self) eqn:C; [|lia].
  cbv zeta. unfold Qgtb.
  pose proof Hy as Hy'. apply Qltb_lt in Hy'. rewrite Hy'.
  set (d := (minute_window self - (time_time w - oldest) + (1 # 10))%Q).
  set (s1 := _cleanup_old_requests (_cleanup_old_requests self (time_time w))
               (time_time (sleep d w))).
  destruct (minute_loop (List.length (oldest :: rest)) s1
              (time_time (sleep d w)) (sleep d w))
    as [[[r0 s0] w0]|] eqn:L.
  - apply minute_loop_effect in L;
      [|apply filter_gives_all_true|apply filter_gives_all_true].
    destruct L as [_ [_ [[more Hl] _]]].
    exists more. split; [reflexivity|]. split; [exact Hy|].
    assert (Hw0 : clock_slept w0 = clock_slept w ++ d :: more).
    { rewrite Hl. cbn [sleep clock_slept]. rewrite <- app_assoc.
      reflexivity. }
    destruct r0 as [now'|e]; [|exact Hw0].
    destruct (day_check_and_record s0 now') as [r s3]. exact Hw0.
  - exfalso. revert L. apply RateLimiterFacts.minute_loop_terminates.
    pose proof (@RateLimiterFacts.head_purged_after_wait
                  (_cleanup_old_requests self (time_time w)) w oldest rest E)
      as Hp.
    cbn [List.length]. unfold s1, d.
    replace (minute_window (_cleanup_old_requests self (time_time w)))
      with (minute_window self) in Hp by reflexivity.
    lia.
Qed.

Lemma acquire_minute_full_waits_witness :
  exists oldest rest more,
    minute_requests
      (_cleanup_old_requests (set_requests (init 1 5) [100%Q] [100%Q])
         (time_time (mkClock 130 [])))
    = oldest :: rest
    /\ (0 < 60 - (time_time (mkClock 130 []) - oldest))%Q
    /\ clock_slept
         (snd (acquire (set_requests (init 1 5) [100%Q] [100%Q])
                 (mkClock 130 [])))
       = [] ++ (60 - (time_time (mkClock 130 []) - oldest) + (1 # 10))%Q
               :: more.
Proof.
  apply (@acquire_minute_full_waits
           (set_requests (init 1 5) [100%Q] [100%Q]) (mkClock 130 []));
    vm_compute; discriminate.
Defined.

(** X5.  A limiter made with a limit per minute of zero (or less) grants
    nothing and does not report a quota either: every [acquire] ends with
    the [IndexError] of [minute_requests[0]] on the emptied window. *)
Theorem acquire_without_minute_limit_fails (self : t) (w : Clock) :
  max_per_minute self <= 0 ->
  fst (fst (acquire self w)) = Raise (IndexError "list index out of range")
  /\ minute_requests (snd (fst (acquire self w))) = [].
Proof.
  intros Hz. unfold acquire.
  destruct (RateLimiterFacts.acquire_loop_result self w) as [[[r0 s0] w0] E].
  rewrite E.
  apply minute_loop_effect in E;
    [|apply filter_gives_all_true|apply filter_gives_all_true].
  destruct E as [_ [_ [_ Hr]]].
  destruct r0 as [now'|e].
  - destruct Hr as [_ Hlt].
    replace (max_per_minute (_cleanup_old_requests self (time_time w)))
      with (max_per_minute self) in Hlt by reflexivity.
    pose proof (len_nonneg (minute_requests s0)). lia.
  - destruct Hr as [-> [Hm _]]. cbn [fst snd]. auto.
Qed.

Lemma acquire_without_minute_limit_fails_witness :
  fst (fst (acquire (set_requests (init 0 5) [100%Q] [100%Q])
              (mkClock 130 [])))
  = Raise (IndexError "list index out of range")
  /\ minute_requests
       (snd (fst (acquire (set_requests (init 0 5) [100%Q] [100%Q])
                    (mkClock 130 []))))
     = [].
Proof.
  apply (@acquire_without_minute_limit_fails
           (set_requests (init 0 5) [100%Q] [100%Q]) (mkClock 130 [])).
  vm_compute. discriminate.
Defined.

(** The limits hold for the lists of the limiter itself along any run. *)
Lemma acquire_all_within (delays : list Q) :
  forall (self : t) (w : Clock) (granted : list Q),
    len (minute_requests self) <= max_per_minute self ->
    len (day_requests self) <= max_per_day self ->
    len (minute_requests (fst (fst (acquire_all delays self w granted))))
      <= max_per_minute self
    /\ len (day_requests (fst (fst (acquire_all delays self w granted))))
       <= max_per_day self.
Proof.
  induction delays as [|d delays IH]; intros self w granted Hm Hd;
    cbn [acquire_all]; [auto|].
  pose proof (acquire_keeps_settings self (tick d w)) as Hset.
  destruct (acquire self (tick d w)) as [[r self'] w'] eqn:E.
  cbn [fst snd] in Hset. destruct Hset as [Hmm [Hmd _]].
  rewrite <- Hmm, <- Hmd.
  destruct r as [[]|e].
  - apply acquire_return_effect in E.
    destruct E as [_ [_ [Lm Ld]]]. apply IH; assumption.
  - apply acquire_effect in E. destruct E as [_ [_ [-> _]]].
    apply IH.
    + rewrite cleanup_minute.
      pose proof (len_filter_le
                    (fresh (minute_window self) (clock_now w'))
                    (minute_requests self)).
      cbn [max_per_minute _cleanup_old_requests set_requests]. lia.
    + rewrite cleanup_day.
      pose proof (len_filter_le
                    (fresh (day_window self) (clock_now w'))
                    (day_requests self)).
      cbn [max_per_day _cleanup_old_requests set_requests]. lia.
Qed.

(** X6.  After any run of calls on a limiter made with limits that are not
    negative, [get_requests_remaining] reports, for each window, a used
    count and a remaining count between 0 and the limit that add up to the
    limit. *)
Theorem remaining_between_zero_and_limit (n1 n2 : Z) (delays : list Q)
    (w w2 : Clock) :
  0 <= n1 -> 0 <= n2 ->
  match get_requests_remaining
          (fst (fst (acquire_all delays (init n1 n2) w []))) w2 with
  | ((used_m, remaining_m, limit_m), (used_d, remaining_d, limit_d), _) =>
      limit_m = n1 /\ limit_d = n2
      /\ 0 <= used_m /\ 0 <= remaining_m /\ used_m + remaining_m = n1
      /\ 0 <= used_d /\ 0 <= remaining_d /\ used_d + remaining_d = n2
  end.
Proof.
  intros H1 H2.
  destruct (@acquire_all_within delays (init n1 n2) w [])
    as [Lm Ld]; try (unfold len; cbn; lia).
  destruct (acquire_all_settings delays (init n1 n2) w [])
    as [Hmm [Hmd _]].
  cbn [max_per_minute max_per_day init] in *.
  set (self := fst (fst (acquire_all delays (init n1 n2) w []))) in *.
  unfold get_requests_remaining.
  replace (max_per_minute (_cleanup_old_requests self (time_time w2)))
    with (max_per_minute self) by reflexivity.
  replace (max_per_day (_cleanup_old_requests self (time_time w2)))
    with (max_per_day self) by reflexivity.
  rewrite cleanup_minute, cleanup_day.
  pose proof (len_filter_le (fresh (minute_window self) (time_time w2))
                (minute_requests self)).
  pose proof (len_filter_le (fresh (day_window self) (time_time w2))
                (day_requests self)).
  pose proof (len_nonneg (filter (fresh (minute_window self) (time_time w2))
                            (minute_requests self))).
  pose proof (len_nonneg (filter (fresh (day_window self) (time_time w2))
                            (day_requests self))).
  repeat split; lia.
Qed.

Lemma remaining_between_zero_and_limit_witness :
  match get_requests_remaining
          (fst (fst (acquire_all [10%Q; 0%Q; 0%Q] (init 2 5) (mkClock 0 []) [])))
          (mkClock 100 []) with
  | ((used_m, remaining_m, limit_m), (used_d, remaining_d, limit_d), _) =>
      limit_m = 2 /\ limit_d = 5
      /\ 0 <= used_m /\ 0 <= remaining_m /\ used_m + remaining_m = 2
      /\ 0 <= used_d /\ 0 <= remaining_d /\ used_d + remaining_d = 5
  end.
Proof.
  apply (@remaining_between_zero_and_limit 2 5 [10%Q; 0%Q; 0%Q]
           (mkClock 0 []) (mkClock 100 [])); lia.
Defined.

End RateLimiterMore.

(** ** The response cache, continued *)

Module AICacheMore.

Import AICache.

Section WithData.

Variable V : Type.

Lemma keys_of_del (k : string) (d : dict V) :
  dict_keys (dict_del k d)
  = filter (fun k' => negb (String.eqb k k')) (dict_keys d).
Proof.
  unfold dict_keys, dict_del. induction d as [|[k0 e0] d IH]; [reflexivity|].
  cbn [filter map fst]. destruct (String.eqb k k0); cbn [negb map fst];
    rewrite IH; reflexivity.
Qed.

Lemma dict_get_in_keys (k : string) (d : dict V) (e : entry V) :
  dict_get k d = Some e -> In k (dict_keys d).
Proof.
  unfold dict_keys. induction d as [|[k0 e0] d IH]; cbn; [discriminate|].
  destruct (String.eqb k k0) eqn:E; [|auto].
  apply String.eqb_eq in E. auto.
Qed.

Lemma dict_get_none_iff (k : string) (d : dict V) :
  dict_get k d = None <-> ~ In k (dict_keys d).
Proof.
  split; [|apply AICacheKeys.dict_get_not_in].
  intros H I. unfold dict_keys in I. induction d as [|[k0 e0] d IH];
    cbn in *; [tauto|].
  destruct (String.eqb k k0) eqn:E; [discriminate|].
  destruct I as [->|I]; [rewrite String.eqb_refl in E; discriminate|auto].
Qed.

(** X7.  What [set] stores, [get] returns until the entry expires: at any
    time up to [now + ttl] (with the default for a [ttl] of [None] or 0)
    the value comes back; after that time [get] returns nothing and the key
    is gone from the cache. *)
Theorem set_then_get (self : t V) (now later : Q) (k : string) (v : V)
    (ttl : option Z) :
  ((later <= now + inject_Z (ttl_or_default self ttl))%Q ->
     fst (get (set self now k v ttl) later k) = Some v)
  /\ ((now + inject_Z (ttl_or_default self ttl) < later)%Q ->
        fst (get (set self now k v ttl) later k) = None
        /\ dict_get k (cache (snd (get (set self now k v ttl) later k)))
           = None).
Proof.
  unfold get. rewrite AICacheFacts.set_stores_entry. cbn [expires_at data].
  unfold Qgtb. split; intros H.
  - apply Qltb_ge in H. rewrite H. reflexivity.
  - apply Qltb_lt in H. rewrite H. cbn [fst snd cache set_cache].
    split; [reflexivity|]. apply AICacheFacts.dict_get_del_same.
Qed.

(** X8.  [invalidate] answers whether the key was cached; afterwards the
    key is absent and every other key holds what it held. *)
Theorem invalidate_removes_only_the_key (self : t V) (k : string) :
  (fst (invalidate self k) = true <-> In k (dict_keys (cache self)))
  /\ dict_get k (cache (snd (invalidate self k))) = None
  /\ forall k', k' <> k ->
       dict_get k' (cache (snd (invalidate self k)))
       = dict_get k' (cache self).
Proof.
  unfold invalidate, dict_mem.
  destruct (dict_get k (cache self)) as [e|] eqn:G; cbn [fst snd cache set_cache].
  - split; [split; [intros _; exact (dict_get_in_keys _ _ G)|reflexivity]|].
    split; [apply AICacheFacts.dict_get_del_same|].
    intros k' N. apply AICacheFacts.dict_get_del_other. exact N.
  - split.
    + split; [discriminate|]. intros I. apply dict_get_none_iff in G. tauto.
    + split; [exact G|reflexivity].
Qed.

Lemma filter_twice {A : Type} (f g : A -> bool) (l : list A) :
  filter f (filter g l) = filter (fun x => g x && f x) l.
Proof.
  induction l as [|x l IH]; [reflexivity|]. cbn [filter].
  destruct (g x); cbn [filter andb]; rewrite IH; reflexivity.
Qed.

Lemma fold_del_is_filter (keys : list string) :
  forall d : dict V,
    fold_left (fun d key => dict_del key d) keys d
    = filter (fun p => negb (existsb (String.eqb (fst p)) keys)) d.
Proof.
  induction keys as [|k keys IH]; intros d; cbn [fold_left existsb].
  - symmetry. apply RateLimiterMore.filter_all_true.
    apply Forall_forall. reflexivity.
  - rewrite IH. unfold dict_del. rewrite filter_twice.
    apply filter_ext. intros [k0 e0]. cbn [fst].
    rewrite (String.eqb_sym k0 k).
    destruct (String.eqb k k0); destruct (existsb _ keys); reflexivity.
Qed.

(** X9.  [invalidate_pattern] removes exactly the entries whose key matches
    the pattern, keeps the others in their order, and returns by how much
    the cache has shrunk. *)
Theorem invalidate_pattern_removes_matches (self : t V) (pattern : string) :
  cache (snd (invalidate_pattern self pattern))
  = filter (fun p => negb (matches_pattern pattern (fst p))) (cache self)
  /\ fst (invalidate_pattern self pattern)
     = size self - size (snd (invalidate_pattern self pattern)).
Proof.
  unfold invalidate_pattern. cbn [fst snd cache set_cache].
  rewrite fold_del_is_filter.
  assert (E : filter
                (fun p : string * entry V =>
                   negb (existsb (String.eqb (fst p))
                           (filter (matches_pattern pattern)
                                   (dict_keys (cache self)))))
                (cache self)
              = filter (fun p => negb (matches_pattern pattern (fst p)))
                       (cache self)).
  { apply filter_ext_in. intros [k0 e0] I. cbn [fst]. f_equal.
    destruct (matches_pattern pattern k0) eqn:M.
    - apply existsb_exists. exists k0. split; [|apply String.eqb_refl].
      apply filter_In. split; [|exact M].
      unfold dict_keys. apply in_map_iff. exists (k0, e0). auto.
    - destruct (existsb _ _) eqn:X; [|reflexivity].
      apply existsb_exists in X. destruct X as [k1 [I1 E1]].
      apply String.eqb_eq in E1. subst k1.
      apply filter_In in I1. destruct I1 as [_ M1]. congruence. }
  rewrite E. split; [reflexivity|].
  unfold size, len, dict_keys. cbn [cache set_cache].
  generalize (cache self). intros d.
  induction d as [|[k0 e0] d IH]; [reflexivity|].
  cbn [map filter fst List.length].
  destruct (matches_pattern pattern k0); cbn [negb List.length]; lia.
Qed.

Lemma min_last_accessed_least (rest : dict V) :
  forall best : string * entry V,
    exists e,
      In (min_last_accessed best rest, e) (best :: rest)
      /\ forall p, In p (best :: rest) ->
           (last_accessed e <= last_accessed (snd p))%Q.
Proof.
  induction rest as [|q rest IH]; intros best; cbn [min_last_accessed].
  - exists (snd best). split; [left; destruct best; reflexivity|].
    intros p [<-|[]]. apply Qle_refl.
  - destruct (Qltb (last_accessed (snd q)) (last_accessed (snd best))) eqn:C.
    + apply Qltb_lt in C. destruct (IH q) as [e [I L]]. exists e. split.
      * right. exact I.
      * intros p [<-|H]; [|exact (L p H)].
        apply Qle_trans with (last_accessed (snd q)); [|lra].
        apply L. left. reflexivity.
    + apply Qltb_ge in C. destruct (IH best) as [e [I L]]. exists e. split.
      * destruct I as [I|I]; [left; exact I|right; right; exact I].
      * intros p [<-|[<-|H]].
        -- apply L. left. reflexivity.
        -- apply Qle_trans with (last_accessed (snd best)); [|exact C].
           apply L. left. reflexivity.
        -- apply L. right. exact H.
Qed.

Lemma del_unique_key_length (k : string) (d : dict V) :
  NoDup (dict_keys d) -> In k (dict_keys d) ->
  List.length (dict_del k d) = (List.length d - 1)%nat.
Proof.
  unfold dict_keys, dict_del.
  induction d as [|[k0 e0] d IH]; cbn [map fst filter List.length In];
    [tauto|].
  intros Hnd Hin. inversion Hnd as [|? ? Hk0 Hd]; subst.
  destruct (String.eqb k k0) eqn:E; cbn [negb List.length].
  - apply String.eqb_eq in E. subst k0.
    rewrite RateLimiterMore.filter_all_true; [lia|].
    apply Forall_forall. intros [k1 e1] I1. cbn [fst].
    destruct (String.eqb k k1) eqn:E1; [|reflexivity].
    apply String.eqb_eq in E1. subst k1. exfalso. apply Hk0.
    apply in_map_iff. exists (k, e1). auto.
  - destruct Hin as [->|Hin]; [rewrite String.eqb_refl in E; discriminate|].
    rewrite (IH Hd Hin).
    assert (0 < List.length d)%nat; [|lia].
    destruct d; [destruct Hin|cbn; lia].
Qed.

(** X10.  Setting a key that is not cached in a cache that has reached its
    capacity (of at least one entry) evicts the least recently used entry:
    the entry lost has a [last_accessed] that no entry of the cache
    undercuts, all other entries stay in their order, and the new entry
    comes last.  With keys that are distinct, the cache keeps its size. *)
Theorem set_evicts_least_recently_used (self : t V) (now : Q) (k : string)
    (v : V) (ttl : option Z) :
  1 <= max_size self ->
  max_size self <= size self ->
  dict_get k (cache self) = None ->
  exists victim e,
    In (victim, e) (cache self)
    /\ (forall p, In p (cache self) ->
          (last_accessed e <= last_accessed (snd p))%Q)
    /\ cache (set self now k v ttl)
       = dict_del victim (cache self)
         ++ [(k, {| data := v; created_at := now; last_accessed := now;
                    expires_at :=
                      (now + inject_Z (ttl_or_default self ttl))%Q |})]
    /\ (NoDup (dict_keys (cache self)) ->
        size (set self now k v ttl) = size self).
Proof.
  intros Hpos Hfull Habs. unfold set. fold (size self).
  destruct (size self >=? max_size self) eqn:C; [|lia].
  unfold _evict_lru.
  destruct (cache self) as [|first rest] eqn:E.
  { unfold size, len in Hfull. rewrite E in Hfull. cbn in Hfull. lia. }
  destruct (min_last_accessed_least rest first) as [e [I L]].
  exists (min_last_accessed first rest), e.
  split; [exact I|]. split; [exact L|].
  cbn [cache set_cache]. try rewrite E.
  assert (Hnone : dict_get k (dict_del (min_last_accessed first rest)
                                (first :: rest)) = None).
  { apply dict_get_none_iff. intros Hin.
    apply AICacheKeys.keys_del_incl in Hin.
    apply dict_get_none_iff in Habs. tauto. }
  unfold dict_set, dict_mem. rewrite Hnone.
  split; [reflexivity|].
  intros Hnd. unfold size, len. cbn [cache set_cache]. try rewrite E.
  rewrite length_app, del_unique_key_length.
  - cbn [List.length]. lia.
  - exact Hnd.
  - unfold dict_keys. apply in_map_iff.
    exists (min_last_accessed first rest, e). auto.
Qed.

(** The keys of a dictionary are distinct, and stay so. *)
Lemma nodup_del (k : string) (d : dict V) :
  NoDup (dict_keys d) -> NoDup (dict_keys (dict_del k d)).
Proof. intros H. rewrite keys_of_del. apply NoDup_filter. exact H. Qed.

Lemma nodup_dict_set (k : string) (e : entry V) (d : dict V) :
  NoDup (dict_keys d) -> NoDup (dict_keys (dict_set k e d)).
Proof.
  intros H. unfold dict_set, dict_mem.
  destruct (dict_get k d) as [e0|] eqn:G.
  - rewrite AICacheFacts.dict_keys_replace. exact H.
  - unfold dict_keys. rewrite map_app. cbn [map fst].
    apply NoDup_app; [exact H|repeat constructor; intros []|].
    intros x I [<-|[]]. apply dict_get_none_iff in G. exact (G I).
Qed.

Lemma nodup_step (self : t V) (o : op V) :
  NoDup (dict_keys (cache self)) -> NoDup (dict_keys (cache (step self o))).
Proof.
  intros H. destruct o as [now k|now k v ttl|k|p|]; cbn [step].
  - unfold get. destruct (dict_get k (cache self)) as [e|]; [|exact H].
    destruct (Qgtb now (expires_at e)); cbn [snd cache set_cache].
    + apply nodup_del. exact H.
    + rewrite AICacheFacts.dict_keys_replace. exact H.
  - unfold set. cbn [cache set_cache]. apply nodup_dict_set.
    destruct (_ >=? _); [|exact H].
    unfold _evict_lru. destruct (cache self) as [|first rest] eqn:E;
      [rewrite E; constructor|].
    cbn [cache set_cache]. apply nodup_del.
    first [exact H|rewrite E; exact H].
  - unfold invalidate. destruct (dict_mem k (cache self)); [|exact H].
    cbn [snd cache set_cache]. apply nodup_del. exact H.
  - unfold invalidate_pattern. cbn [snd cache set_cache].
    rewrite fold_del_is_filter.
    generalize (filter (matches_pattern p) (dict_keys (cache self))).
    intros keys. revert H. generalize (cache self). intros d H.
    assert (E : dict_keys
                  (filter (fun q : string * entry V =>
                             negb (existsb (String.eqb (fst q)) keys)) d)
                = filter (fun k' => negb (existsb (String.eqb k') keys))
                         (dict_keys d)).
    { unfold dict_keys. clear H. induction d as [|[k0 e0] d IH];
        [reflexivity|].
      cbn [filter map fst]. destruct (existsb _ keys); cbn [negb map fst];
        rewrite IH; reflexivity. }
    rewrite E. apply NoDup_filter. exact H.
  - constructor.
Qed.

(** Whatever sequence of operations a cache has gone through since
    it was made, no key occurs twice in it. *)
Lemma keys_stay_distinct (max_size_ default_ttl_ : Z) (ops : list (op V)) :
  NoDup (dict_keys (cache (run (init V max_size_ default_ttl_) ops))).
Proof.
  unfold run.
  assert (G : forall self : t V,
             NoDup (dict_keys (cache self)) ->
             NoDup (dict_keys (cache (fold_left (@step V) ops self)))).
  { induction ops as [|o ops IH]; intros self H; cbn [fold_left];
      [exact H|].
    apply IH. apply nodup_step. exact H. }
  apply G. constructor.
Qed.

End WithData.

Lemma set_evicts_least_recently_used_witness :
  exists victim e,
    In (victim, e) (cache full_cache)
    /\ (forall p, In p (cache full_cache) ->
          (last_accessed e <= last_accessed (snd p))%Q)
    /\ cache (set full_cache 10 "c" "C"%string (Some 60))
       = dict_del victim (cache full_cache)
         ++ [("c"%string,
              {| data := "C"%string; created_at := 10; last_accessed := 10;
                 expires_at :=
                   (10 + inject_Z (ttl_or_default full_cache (Some 60%Z)))%Q |})]
    /\ (NoDup (dict_keys (cache full_cache)) ->
        size (set full_cache 10 "c" "C"%string (Some 60)) = size full_cache).
Proof.
  apply (@set_evicts_least_recently_used string full_cache 10 "c"
           "C"%string (Some 60)).
  - vm_compute. discriminate.
  - vm_compute. discriminate.
  - reflexivity.
Defined.

End AICacheMore.

(** ** Patterns of [invalidate_pattern] *)

Lemma prefix_spec (p k : string) :
  String.prefix p k = true <-> exists b, k = (p ++ b)%string.
Proof.
  revert k. induction p as [|c p IH]; intros k.
  - split; [intros _; exists k; reflexivity|].
    intros _. destruct k; reflexivity.
  - destruct k as [|c' k]; cbn [String.prefix append].
    + split; [discriminate|]. intros [b H]. discriminate.
    + destruct (Ascii.ascii_dec c c') as [->|N].
      * rewrite IH. split; intros [b H]; exists b; [rewrite H; reflexivity|].
        injection H as H. exact H.
      * split; [discriminate|]. intros [b H]. injection H as H _. congruence.
Qed.

(** [part in key] holds exactly when [key] is some text, then [part], then
    some text. *)
Lemma is_substring_spec (part key : string) :
  is_substring part key = true
  <-> exists a b, key = (a ++ part ++ b)%string.
Proof.
  induction key as [|c key IH]; cbn [is_substring].
  - rewrite orb_false_r, prefix_spec. split.
    + intros [b H]. exists EmptyString, b. exact H.
    + intros [a [b H]]. destruct a; [exists b; exact H|discriminate].
  - rewrite orb_true_iff, prefix_spec, IH. split.
    + intros [[b H]|[a [b H]]].
      * exists EmptyString, b. exact H.
      * exists (String c a), b. cbn. rewrite H. reflexivity.
    + intros [[|c' a] [b H]].
      * left. exists b. exact H.
      * right. cbn in H. injection H as _ H. exists a, b. exact H.
Qed.

(** X11.  A key matches a pattern exactly when each piece of the pattern
    between two wildcards occurs somewhere in the key: neither the order of
    the pieces nor their place in the key plays a part. *)
Theorem pattern_matches_by_pieces (pattern key : string) :
  AICache.matches_pattern pattern key = true
  <-> forall part,
        In part (split_on "*" pattern) ->
        exists a b, key = (a ++ part ++ b)%string.
Proof.
  unfold AICache.matches_pattern. rewrite forallb_forall.
  split; intros H part I; apply is_substring_spec; auto.
Qed.

Lemma split_on_star_suffix (p : string) :
  ~ In "*"%char (list_ascii_of_string p) ->
  split_on "*" (p ++ "*") = [p; EmptyString].
Proof.
  induction p as [|c p IH]; intros N; [reflexivity|].
  cbn [append split_on]. cbn [list_ascii_of_string In] in N.
  destruct (Ascii.eqb c "*") eqn:E.
  - apply Ascii.eqb_eq in E. tauto.
  - rewrite IH by tauto. reflexivity.
Qed.

(** X12.  A pattern made of a text without wildcard followed by one
    wildcard, such as ["ai:summary:*"], matches every key that contains the
    text, wherever it stands, and not only the keys that begin with it; the
    pattern ["*"] matches every key. *)
Theorem prefix_pattern_is_containment (p key : string) :
  ~ In "*"%char (list_ascii_of_string p) ->
  AICache.matches_pattern (p ++ "*") key = true
  <-> exists a b, key = (a ++ p ++ b)%string.
Proof.
  intros N. unfold AICache.matches_pattern.
  rewrite (split_on_star_suffix p N). cbn [forallb].
  rewrite andb_true_r.
  assert (E : is_substring EmptyString key = true).
  { apply is_substring_spec. exists EmptyString, key. reflexivity. }
  rewrite E, andb_true_r. apply is_substring_spec.
Qed.

Lemma prefix_pattern_is_containment_witness :
  AICache.matches_pattern ("ai:summary:" ++ "*") "xai:summary:1" = true
  <-> exists a b, "xai:summary:1"%string = (a ++ "ai:summary:" ++ b)%string.
Proof.
  apply (@prefix_pattern_is_containment "ai:summary:" "xai:summary:1").
  cbn. intuition discriminate.
Defined.

(** ** The scoring engine, continued *)

Lemma map_score_one_returns (pool : list Property) (criteria : Criteria)
    (wm wl wv ws tw : Q) :
  city_preference criteria <> Null ->
  forall l, incl l pool ->
    exists scored,
      map_py (score_one pool criteria wm wl wv ws tw) l = Return scored
      /\ map property scored = l
      /\ Forall (fun s => score_one pool criteria wm wl wv ws tw (property s)
                          = Return s)
                scored.
Proof.
  intros N. induction l as [|p l IH]; intros Hincl.
  - exists []. repeat split. constructor.
  - destruct (@score_one_returns pool criteria wm wl wv ws tw p N
                (Hincl p (or_introl eq_refl))) as [s [Es Ps]].
    destruct IH as [scored [El [Pl Fl]]].
    { intros q Hq. apply Hincl. right. exact Hq. }
    exists (s :: scored). cbn [map_py]. rewrite Es, El. cbn [bind map].
    split; [reflexivity|]. split; [congruence|].
    constructor; [rewrite Ps; exact Es|exact Fl].
Qed.

Lemma insert_desc_descending (x : Scored) (l : list Scored) :
  descending l -> descending (insert_desc x l).
Proof.
  induction l as [|y l IH]; cbn [insert_desc descending].
  - intros _. split; [intros y []|exact I].
  - intros [Hy Hl]. destruct (Qgtb (score y) (score x)) eqn:C.
    + cbn [descending]. split; [|exact (IH Hl)].
      intros z Hz.
      apply (Permutation_in _ (insert_desc_perm x l)) in Hz.
      destruct Hz as [<-|Hz]; [|exact (Hy z Hz)].
      unfold Qgtb in C. apply Qltb_lt in C. lra.
    + unfold Qgtb in C. apply Qltb_ge in C. cbn [descending].
      split; [|split; [exact Hy|exact Hl]].
      intros z [<-|Hz]; [exact C|].
      apply Qle_trans with (score y); [exact (Hy z Hz)|exact C].
Qed.

Lemma sort_desc_descending (l : list Scored) : descending (sort_desc l).
Proof.
  unfold sort_desc. induction l as [|x l IH]; cbn [fold_right];
    [exact I|].
  apply insert_desc_descending. exact IH.
Qed.

(** X13.  Once the four weights are read, [_score_properties] raises in
    one case only: for a pool that is not empty when the preferred city is
    [None], with the [AttributeError] of [None.lower()].  In every other
    case it returns every candidate of the pool exactly once, each with the
    scores computed for it, ranked from the highest total score to the
    lowest. *)
Theorem score_properties_ranks_the_pool (pool : list Property)
    (criteria : Criteria) (wm wl wv ws : Q) :
  weight (priorities criteria) w_monthly_cost = Return wm ->
  weight (priorities criteria) w_location = Return wl ->
  weight (priorities criteria) w_value = Return wv ->
  weight (priorities criteria) w_space = Return ws ->
  (city_preference criteria = Null -> pool <> [] ->
   _score_properties pool criteria
   = Raise (AttributeError "'NoneType' object has no attribute 'lower'"))
  /\ (city_preference criteria <> Null \/ pool = [] ->
      exists scored,
        _score_properties pool criteria = Return scored
        /\ Permutation (map property scored) pool
        /\ Forall (fun s =>
                     score_one pool criteria wm wl wv ws
                       (total_weight wm wl wv ws) (property s) = Return s)
                  scored
        /\ descending scored).
Proof.
  intros Wm Wl Wv Ws. unfold _score_properties. cbv zeta.
  rewrite Wm, Wl, Wv, Ws. cbn [bind]. split.
  - intros Null_ Hne. destruct pool as [|p pool']; [contradiction|].
    cbn [map_py]. unfold score_one at 1.
    assert (I : In p (p :: pool')) by (left; reflexivity).
    destruct (dimension_returns (@monthly_cost_score_spec _ p I))
      as [mc ->].
    destruct (dimension_returns (@value_score_spec _ p I)) as [va ->].
    destruct (dimension_returns (@space_score_spec _ p I)) as [sp ->].
    rewrite (@location_score_null criteria p Null_). reflexivity.
  - intros Hok.
    assert (Hmap : exists scored,
              map_py (score_one pool criteria wm wl wv ws
                        (total_weight wm wl wv ws)) pool = Return scored
              /\ map property scored = pool
              /\ Forall (fun s =>
                           score_one pool criteria wm wl wv ws
                             (total_weight wm wl wv ws) (property s)
                           = Return s) scored).
    { destruct Hok as [N| ->].
      - exact (@map_score_one_returns pool criteria wm wl wv ws _ N pool
                 (incl_refl pool)).
      - exists []. repeat split. constructor. }
    destruct Hmap as [scored [E [P F]]].
    exists (sort_desc scored). rewrite E. cbn [bind].
    split; [reflexivity|]. split.
    + rewrite <- P. apply Permutation_map. apply sort_desc_perm.
    + split; [|apply sort_desc_descending].
      apply Forall_forall. intros s Hs.
      apply (Permutation_in _ (sort_desc_perm scored)) in Hs.
      rewrite Forall_forall in F. exact (F s Hs).
Qed.

Lemma score_properties_ranks_the_pool_witness :
  exists scored,
    _score_properties pool_of_three equal_weights = Return scored
    /\ Permutation (map property scored) pool_of_three
    /\ Forall (fun s =>
                 score_one pool_of_three equal_weights 25 25 25 25
                   (total_weight 25 25 25 25) (property s) = Return s)
              scored
    /\ descending scored.
Proof.
  destruct (@score_properties_ranks_the_pool pool_of_three equal_weights
              25 25 25 25 eq_refl eq_refl eq_refl eq_refl) as [_ H].
  apply H. left. discriminate.
Defined.

(** The bounds of the scores. *)

Lemma normalised_in_range (b : bool) (x mn mx : Q) :
  (mn <= x)%Q -> (x <= mx)%Q -> (mn < mx)%Q ->
  (0 <= normalised b x mn mx <= 100)%Q.
Proof.
  intros H1 H2 H3.
  assert (Hc : (0 < mx - mn)%Q) by lra.
  assert (L0 : (0 <= (x - mn) / (mx - mn))%Q).
  { apply Qle_shift_div_l; [exact Hc|]. lra. }
  assert (L1 : ((x - mn) / (mx - mn) <= 1)%Q).
  { apply Qle_shift_div_r; [exact Hc|]. lra. }
  unfold normalised. destruct b.
  - lra.
  - assert (E : (100 * (x - mn) / (mx - mn)
                 == 100 * ((x - mn) / (mx - mn)))%Q).
    { unfold Qdiv. ring. }
    rewrite E. lra.
Qed.

Lemma dimension_in_range (b : bool) (f : Property -> option Q)
    (pool : list Property) (prop : Property) (r : py (option Q)) :
  In prop pool -> dimension_spec b f pool prop r ->
  exists v, r = Return v /\ in_range v.
Proof.
  intros I [Hv [Hn Hz]].
  destruct (f prop) as [x|] eqn:F.
  - destruct (Qeq_dec x 0) as [Z|N].
    + exists (Some 50%Q). split; [exact (Hz x eq_refl Z)|].
      exists 50%Q. split; [reflexivity|lra].
    + assert (Hx : has_value f prop x) by (split; assumption).
      destruct (Hv x Hx) as [mn [mx [Hmn [Hmx [Hlt Heq]]]]].
      destruct Hmn as [_ Hmn]. destruct Hmx as [_ Hmx].
      pose proof (Hmn prop x I Hx) as L1.
      pose proof (Hmx prop x I Hx) as L2.
      destruct (Qlt_le_dec mn mx) as [L|G].
      * exists (Some (normalised b x mn mx)). split; [exact (Hlt L)|].
        eexists. split; [reflexivity|].
        apply normalised_in_range; assumption.
      * exists (Some 100%Q). split.
        -- apply Heq. apply Qle_antisym; [exact G|lra].
        -- exists 100%Q. split; [reflexivity|lra].
  - exists (Some 50%Q). split; [exact (Hn eq_refl)|].
    exists 50%Q. split; [reflexivity|lra].
Qed.

Lemma location_in_range (criteria : Criteria) (prop : Property) (lo : Q) :
  location_score criteria prop = Return lo -> (0 <= lo <= 100)%Q.
Proof.
  unfold location_score.
  destruct (match city_preference criteria with
            | Absent => _ | Null => _ | Value s => _ end) as [pref|e];
    cbn [bind]; [|discriminate].
  destruct (city prop) as [c|]; [|intros H; injection H as <-; lra].
  destruct (_ && _); [intros H; injection H as <-; lra|].
  destruct (truthy_str (Some c)); intros H; injection H as <-; lra.
Qed.

Lemma round_half_even_range (x : Q) (k : Z) :
  0 <= k -> (0 <= x)%Q -> (x <= inject_Z k)%Q ->
  0 <= round_half_even x <= k.
Proof.
  intros Hk H0 H1. unfold round_half_even.
  destruct x as [n d]. unfold Qle in *. cbn [Qnum Qden inject_Z] in *.
  assert (Hd : 0 < Z.pos d) by lia.
  pose proof (Z.div_mod n (Z.pos d) ltac:(lia)) as Hdm.
  pose proof (Z.mod_pos_bound n (Z.pos d) Hd) as Hmod.
  assert (Hn : 0 <= n) by lia.
  assert (Hq0 : 0 <= n / Z.pos d) by (apply Z.div_pos; lia).
  assert (Hnk : n <= k * Z.pos d) by lia.
  assert (Hq1 : n / Z.pos d <= k).
  { apply Z.div_le_upper_bound; lia. }
  assert (Hfull : n / Z.pos d = k -> n mod Z.pos d = 0) by nia.
  destruct (2 * (n mod Z.pos d) ?= Z.pos d) eqn:C.
  - apply Z.compare_eq in C.
    destruct (Z.even (n / Z.pos d)); [lia|].
    destruct (Z.eq_dec (n / Z.pos d) k) as [E|E]; [|lia].
    specialize (Hfull E). lia.
  - lia.
  - apply Z.compare_gt_iff in C.
    destruct (Z.eq_dec (n / Z.pos d) k) as [E|E]; [|lia].
    specialize (Hfull E). lia.
Qed.

Lemma round1_in_range (x : Q) :
  (0 <= x <= 100)%Q -> (0 <= round1 x <= 100)%Q.
Proof.
  intros [H0 H1]. unfold round1.
  assert (R : 0 <= round_half_even (x * 10) <= 1000).
  { apply round_half_even_range; [lia|lra|].
    change (inject_Z 1000) with 1000%Q. lra. }
  unfold Qle. cbn [Qnum Qden]. lia.
Qed.

Lemma weighted_mean_in_range (a b c d wa wb wc wd t : Q) :
  (0 <= a <= 100)%Q -> (0 <= b <= 100)%Q -> (0 <= c <= 100)%Q ->
  (0 <= d <= 100)%Q ->
  (0 <= wa)%Q -> (0 <= wb)%Q -> (0 <= wc)%Q -> (0 <= wd)%Q ->
  (t == wa + wd + wb + wc)%Q -> (0 < t)%Q ->
  (0 <= a * (wa / t) + b * (wb / t) + c * (wc / t) + d * (wd / t) <= 100)%Q.
Proof.
  intros Ha Hb Hc Hd Ia Ib Ic Id Ht Hpos.
  assert (Ra : (0 <= wa / t)%Q) by (apply Qle_shift_div_l; lra).
  assert (Rb : (0 <= wb / t)%Q) by (apply Qle_shift_div_l; lra).
  assert (Rc : (0 <= wc / t)%Q) by (apply Qle_shift_div_l; lra).
  assert (Rd : (0 <= wd / t)%Q) by (apply Qle_shift_div_l; lra).
  assert (S : (wa / t + wb / t + wc / t + wd / t == 1)%Q).
  { assert (N : ~ (t == 0)%Q) by lra.
    transitivity ((wa + wd + wb + wc) / t)%Q; [field; exact N|].
    rewrite <- Ht. field. exact N. }
  set (ra := (wa / t)%Q) in *. set (rb := (wb / t)%Q) in *.
  set (rc := (wc / t)%Q) in *. set (rd := (wd / t)%Q) in *.
  split; nra.
Qed.

Lemma total_weight_sum (wm wl wv ws : Q) :
  ~ (wm + wl + wv + ws == 0)%Q ->
  (total_weight wm wl wv ws == wm + wl + wv + ws)%Q.
Proof.
  intros N. unfold total_weight.
  destruct (Qeq_bool _ 0) eqn:E; [|reflexivity].
  apply Qeq_bool_eq in E. contradiction.
Qed.

Lemma score_one_in_range (pool : list Property) (criteria : Criteria)
    (wm wl wv ws : Q) (prop : Property) (s : Scored) :
  (0 <= wm)%Q -> (0 <= wl)%Q -> (0 <= wv)%Q -> (0 <= ws)%Q ->
  ~ (wm + wl + wv + ws == 0)%Q ->
  In prop pool ->
  score_one pool criteria wm wl wv ws (total_weight wm wl wv ws) prop
  = Return s ->
  (0 <= score s <= 100)%Q
  /\ in_range (s_monthly_cost (scores s))
  /\ in_range (s_value (scores s))
  /\ in_range (s_space (scores s))
  /\ in_range (s_location (scores s)).
Proof.
  intros Wm Wl Wv Ws N I E.
  destruct (dimension_in_range I (@monthly_cost_score_spec pool prop I))
    as [mc [Emc [a [-> Ra]]]].
  destruct (dimension_in_range I (@value_score_spec pool prop I))
    as [va [Eva [b [-> Rb]]]].
  destruct (dimension_in_range I (@space_score_spec pool prop I))
    as [sp [Esp [c [-> Rc]]]].
  unfold score_one in E. rewrite Emc, Eva, Esp in E. cbn [bind] in E.
  destruct (location_score criteria prop) as [lo|e] eqn:Elo;
    cbn [bind] in E; [|discriminate].
  pose proof (@location_in_range criteria prop lo Elo) as Rd.
  cbn [bind scores_get s_monthly_cost s_value s_space s_location] in E.
  injection E as <-. cbn [score scores s_monthly_cost s_value s_space
                            s_location].
  split.
  - apply round1_in_range.
    apply weighted_mean_in_range; try assumption.
    + apply total_weight_sum. exact N.
    + rewrite (@total_weight_sum wm wl wv ws N).
      destruct (Qlt_le_dec 0 (wm + wl + wv + ws)) as [L|G]; [exact L|].
      exfalso. apply N. lra.
  - repeat split; eexists; (split; [reflexivity|assumption]).
Qed.

(** X14.  When the four weights read by the scoring engine (a missing one
    counts 25) are non-negative and do not sum to zero, every total score
    that [_score_properties] returns lies between 0 and 100, and so does
    each of the four dimension scores, all of which are set. *)
Theorem scores_lie_between_0_and_100 (pool : list Property)
    (criteria : Criteria) (scored : list Scored) (s : Scored)
    (wm wl wv ws : Q) :
  weight (priorities criteria) w_monthly_cost = Return wm ->
  weight (priorities criteria) w_location = Return wl ->
  weight (priorities criteria) w_value = Return wv ->
  weight (priorities criteria) w_space = Return ws ->
  (0 <= wm)%Q -> (0 <= wl)%Q -> (0 <= wv)%Q -> (0 <= ws)%Q ->
  ~ (wm + wl + wv + ws == 0)%Q ->
  _score_properties pool criteria = Return scored ->
  In s scored ->
  (0 <= score s <= 100)%Q
  /\ in_range (s_monthly_cost (scores s))
  /\ in_range (s_value (scores s))
  /\ in_range (s_space (scores s))
  /\ in_range (s_location (scores s)).
Proof.
  intros Em El Ev Es Wm Wl Wv Ws N E Hs.
  destruct (score_properties_inv _ _ E)
    as [wm' [wl' [wv' [ws' [Em' [El' [Ev' [Es' [_ Hel]]]]]]]]].
  rewrite Em in Em'. rewrite El in El'. rewrite Ev in Ev'.
  rewrite Es in Es'.
  injection Em' as <-. injection El' as <-. injection Ev' as <-.
  injection Es' as <-.
  destruct (Hel s Hs) as [I E1].
  exact (@score_one_in_range pool criteria wm wl wv ws (property s) s
           Wm Wl Wv Ws N I E1).
Qed.

Lemma scores_lie_between_0_and_100_witness :
  exists scored s,
    _score_properties pool_of_three equal_weights = Return scored
    /\ In s scored
    /\ (0 <= score s <= 100)%Q
    /\ in_range (s_monthly_cost (scores s))
    /\ in_range (s_value (scores s))
    /\ in_range (s_space (scores s))
    /\ in_range (s_location (scores s)).
Proof.
  eexists. eexists.
  split; [vm_compute; reflexivity|].
  split; [left; reflexivity|].
  eapply (@scores_lie_between_0_and_100 pool_of_three equal_weights _ _
            25 25 25 25).
  - reflexivity.
  - reflexivity.
  - reflexivity.
  - reflexivity.
  - vm_compute. discriminate.
  - vm_compute. discriminate.
  - vm_compute. discriminate.
  - vm_compute. discriminate.
  - vm_compute. discriminate.
  - vm_compute. reflexivity.
  - left. reflexivity.
Defined.

(** Two candidates of one pool compared on one dimension. *)

Lemma pool_min_unique (f : Property -> option Q) (pool : list Property)
    (m1 m2 : Q) :
  pool_min f pool m1 -> pool_min f pool m2 -> (m1 == m2)%Q.
Proof.
  intros [[p1 [I1 H1]] L1] [[p2 [I2 H2]] L2].
  apply Qle_antisym; [exact (L1 p2 m2 I2 H2)|exact (L2 p1 m1 I1 H1)].
Qed.

Lemma pool_max_unique (f : Property -> option Q) (pool : list Property)
    (m1 m2 : Q) :
  pool_max f pool m1 -> pool_max f pool m2 -> (m1 == m2)%Q.
Proof.
  intros [[p1 [I1 H1]] L1] [[p2 [I2 H2]] L2].
  apply Qle_antisym; [exact (L2 p1 m1 I1 H1)|exact (L1 p2 m2 I2 H2)].
Qed.

Lemma normalised_monotone (b : bool) (x y mn mx mn' mx' : Q) :
  (mn == mn')%Q -> (mx == mx')%Q -> (mn < mx)%Q -> (x <= y)%Q ->
  if b then (normalised b y mn' mx' <= normalised b x mn mx)%Q
  else (normalised b x mn mx <= normalised b y mn' mx')%Q.
Proof.
  intros Emn Emx L Hxy.
  assert (Hc : (0 < mx - mn)%Q) by lra.
  assert (Hi : (0 <= / (mx - mn))%Q).
  { apply Qlt_le_weak. apply Qinv_lt_0_compat. exact Hc. }
  assert (M : ((x - mn) / (mx - mn) <= (y - mn) / (mx - mn))%Q).
  { unfold Qdiv. apply Qmult_le_compat_r; [lra|exact Hi]. }
  destruct b; unfold normalised; rewrite <- Emn, <- Emx.
  - lra.
  - assert (E : forall z, (100 * (z - mn) / (mx - mn)
                           == 100 * ((z - mn) / (mx - mn)))%Q).
    { intros z. unfold Qdiv. ring. }
    rewrite (E x), (E y). lra.
Qed.

Lemma dimension_monotone (b : bool) (f : Property -> option Q)
    (pool : list Property) (p q : Property) (rp rq : py (option Q))
    (x y : Q) :
  dimension_spec b f pool p rp -> dimension_spec b f pool q rq ->
  has_value f p x -> has_value f q y -> (x <= y)%Q ->
  exists sp sq,
    rp = Return (Some sp) /\ rq = Return (Some sq)
    /\ if b then (sq <= sp)%Q else (sp <= sq)%Q.
Proof.
  intros [Hp _] [Hq _] Hx Hy Hxy.
  destruct (Hp x Hx) as [mn [mx [Hmn [Hmx [Hlt Heq]]]]].
  destruct (Hq y Hy) as [mn' [mx' [Hmn' [Hmx' [Hlt' Heq']]]]].
  pose proof (pool_min_unique Hmn Hmn') as Emn.
  pose proof (pool_max_unique Hmx Hmx') as Emx.
  pose proof (pool_min_le_max Hmn Hmx) as Hle.
  destruct (Qlt_le_dec mn mx) as [L|G].
  - exists (normalised b x mn mx), (normalised b y mn' mx').
    split; [exact (Hlt L)|]. split; [apply Hlt'; lra|].
    apply normalised_monotone; assumption.
  - exists 100%Q, 100%Q.
    split; [apply Heq; lra|]. split; [apply Heq'; lra|].
    destruct b; lra.
Qed.

(** X15.  Within one pool the dimension scores follow the values: of two
    candidates with a monthly cost the cheaper one never gets the lower
    monthly-cost score, likewise for the price per square foot, and of two
    candidates with an area the larger one never gets the lower space
    score. *)
Theorem better_value_never_scores_lower (pool : list Property)
    (p q : Property) :
  In p pool -> In q pool ->
  (forall x y, has_value total_monthly_cost p x ->
     has_value total_monthly_cost q y -> (x <= y)%Q ->
     exists sp sq,
       monthly_cost_score pool p = Return (Some sp)
       /\ monthly_cost_score pool q = Return (Some sq) /\ (sq <= sp)%Q)
  /\ (forall x y, has_value price_per_sqft p x ->
        has_value price_per_sqft q y -> (x <= y)%Q ->
        exists sp sq,
          value_score pool p = Return (Some sp)
          /\ value_score pool q = Return (Some sq) /\ (sq <= sp)%Q)
  /\ (forall x y, has_value (fun c => float_Z (sqft c)) p x ->
        has_value (fun c => float_Z (sqft c)) q y -> (x <= y)%Q ->
        exists sp sq,
          space_score pool p = Return (Some sp)
          /\ space_score pool q = Return (Some sq) /\ (sp <= sq)%Q).
Proof.
  intros Ip Iq. split; [|split]; intros x y Hx Hy Hxy.
  - exact (dimension_monotone (@monthly_cost_score_spec pool p Ip)
             (@monthly_cost_score_spec pool q Iq) Hx Hy Hxy).
  - exact (dimension_monotone (@value_score_spec pool p Ip)
             (@value_score_spec pool q Iq) Hx Hy Hxy).
  - exact (dimension_monotone (@space_score_spec pool p Ip)
             (@space_score_spec pool q Iq) Hx Hy Hxy).
Qed.

Lemma better_value_never_scores_lower_witness :
  exists sp sq,
    monthly_cost_score pool_of_three cheapest = Return (Some sp)
    /\ monthly_cost_score pool_of_three dearest = Return (Some sq)
    /\ (sq <= sp)%Q.
Proof.
  destruct (@better_value_never_scores_lower pool_of_three cheapest dearest)
    as [H _].
  - simpl. right. right. left. reflexivity.
  - simpl. left. reflexivity.
  - apply (H 1000%Q 2000%Q).
    + split; [reflexivity|discriminate].
    + split; [reflexivity|discriminate].
    + discriminate.
Defined.

(** ** The fallback comparison *)

Lemma lt_inf_irrefl (a : option Q) : lt_inf a a = false.
Proof. destruct a as [x|]; [|reflexivity]. apply Qltb_ge. lra. Qed.

Lemma lt_inf_below (a b w : option Q) :
  lt_inf a b = true -> lt_inf a w = false -> lt_inf b w = false.
Proof.
  destruct a as [x|], b as [y|], w as [z|]; cbn [lt_inf];
    try discriminate; try reflexivity.
  intros H1 H2. apply Qltb_lt in H1. apply Qltb_ge in H2. apply Qltb_ge. lra.
Qed.

Lemma lt_inf_le_trans (y b w : option Q) :
  lt_inf y b = false -> lt_inf b w = false -> lt_inf y w = false.
Proof.
  destruct y as [x|], b as [c|], w as [z|]; cbn [lt_inf];
    try discriminate; try reflexivity.
  intros H1 H2. apply Qltb_ge in H1. apply Qltb_ge in H2. apply Qltb_ge. lra.
Qed.

(** [min] with a key returns an item below which there is none. *)
Lemma fold_min_least (key : Property -> option Q)
    (rest : list (nat * Property)) :
  forall best,
    In (fold_left
          (fun best x =>
             if lt_inf (key (snd x)) (key (snd best)) then x else best)
          rest best) (best :: rest)
    /\ forall x, In x (best :: rest) ->
         lt_inf (key (snd x))
                (key (snd (fold_left
                             (fun best x =>
                                if lt_inf (key (snd x)) (key (snd best))
                                then x else best)
                             rest best))) = false.
Proof.
  induction rest as [|y rest IH]; intros best; cbn [fold_left].
  - split; [left; reflexivity|]. intros x [E|[]]. subst x.
    apply lt_inf_irrefl.
  - destruct (lt_inf (key (snd y)) (key (snd best))) eqn:C.
    + destruct (IH y) as [Hin Hle]. split.
      * destruct Hin as [E|Hin]; [right; left; exact E|right; right;
                                                        exact Hin].
      * intros x [E|Hx]; [|exact (Hle x Hx)]. subst x.
        exact (lt_inf_below _ _ _ C (Hle y (or_introl eq_refl))).
    + destruct (IH best) as [Hin Hle]. split.
      * destruct Hin as [E|Hin]; [left; exact E|right; right; exact Hin].
      * intros x [E|[E|Hx]].
        -- subst x. exact (Hle _ (or_introl eq_refl)).
        -- subst x.
           exact (lt_inf_le_trans _ _ _ C (Hle best (or_introl eq_refl))).
        -- exact (Hle x (or_intror Hx)).
Qed.

(** With no key that counts, [min] returns the first item; and it returns
    an item without a key only then. *)
Lemma fold_min_none (key : Property -> option Q)
    (rest : list (nat * Property)) :
  forall best,
    key (snd (fold_left
                (fun best x =>
                   if lt_inf (key (snd x)) (key (snd best)) then x else best)
                rest best)) = None ->
    fold_left
      (fun best x =>
         if lt_inf (key (snd x)) (key (snd best)) then x else best)
      rest best = best
    /\ forall x, In x rest -> key (snd x) = None.
Proof.
  induction rest as [|y rest IH]; intros best; cbn [fold_left].
  - intros _. split; [reflexivity|]. intros x [].
  - destruct (lt_inf (key (snd y)) (key (snd best))) eqn:C; intros N.
    + destruct (IH y N) as [E _]. rewrite E in N. rewrite N in C.
      discriminate.
    + destruct (IH best N) as [E Hall]. split; [exact E|].
      rewrite E in N. rewrite N in C.
      intros x [<-|Hx]; [|exact (Hall x Hx)].
      destruct (key (snd y)); [discriminate|reflexivity].
Qed.

Lemma fold_min_all_none (key : Property -> option Q)
    (rest : list (nat * Property)) :
  forall best,
    (forall x, In x rest -> key (snd x) = None) ->
    fold_left
      (fun best x =>
         if lt_inf (key (snd x)) (key (snd best)) then x else best)
      rest best = best.
Proof.
  induction rest as [|y rest IH]; intros best Hall; cbn [fold_left];
    [reflexivity|].
  rewrite (Hall y (or_introl eq_refl)). cbn [lt_inf].
  apply IH. intros x Hx. apply Hall. right. exact Hx.
Qed.

Lemma in_combine_seq {A : Type} (l : list A) :
  forall a i x,
    In (i, x) (combine (seq a (List.length l)) l) ->
    (a <= i)%nat /\ nth_error l (i - a) = Some x.
Proof.
  induction l as [|y l IH]; intros a i x; cbn [List.length seq combine];
    [intros []|].
  intros [E|H].
  - injection E as <- <-. split; [lia|]. rewrite Nat.sub_diag. reflexivity.
  - destruct (IH (S a) i x H) as [L N]. split; [lia|].
    replace (i - a)%nat with (S (i - S a)) by lia. exact N.
Qed.

Lemma combine_seq_covers {A : Type} (l : list A) :
  forall a x, In x l -> exists i, In (i, x) (combine (seq a (List.length l)) l).
Proof.
  induction l as [|y l IH]; intros a x; [intros []|].
  cbn [List.length seq combine]. intros [<-|H].
  - exists a. left. reflexivity.
  - destruct (IH (S a) x H) as [i Hi]. exists i. right. exact Hi.
Qed.

Lemma or_inf_none_field (x : option Q) : x = None -> or_inf x = None.
Proof. intros ->. reflexivity. Qed.

Lemma or_inf_some (x : option Q) (v : Q) :
  or_inf x = Some v -> x = Some v /\ ~ (v == 0)%Q.
Proof.
  unfold or_inf, float_if_truthy. destruct (truthy_Q x) eqn:T;
    [|discriminate].
  intros ->. split; [reflexivity|]. apply truthy_Q_true. exact T.
Qed.

Lemma or_inf_of_value (x : option Q) (v : Q) :
  x = Some v -> ~ (v == 0)%Q -> or_inf x = Some v.
Proof.
  intros -> N. unfold or_inf, float_if_truthy.
  rewrite (proj2 (truthy_Q_true v) N). reflexivity.
Qed.

(** The winner of one category, as the generator finds it. *)
Lemma winner_spec (f : Property -> option Q) (p : Property)
    (rest : list Property) :
  exists w,
    min_by_key (fun c => or_inf (f c)) (enumerate (p :: rest)) = Return w
    /\ nth_error (p :: rest) (fst w) = Some (snd w)
    /\ (forall q x, In q (p :: rest) -> has_value f q x ->
          exists y, has_value f (snd w) y /\ (y <= x)%Q)
    /\ (f (snd w) = None <-> no_number f (p :: rest)).
Proof.
  unfold enumerate. cbn [List.length seq combine min_by_key].
  set (step := fun best x : nat * Property =>
                 if lt_inf (or_inf (f (snd x))) (or_inf (f (snd best)))
                 then x else best).
  set (items := combine (seq 1 (List.length rest)) rest).
  exists (fold_left step items (0%nat, p)).
  destruct (@fold_min_least (fun c => or_inf (f c)) items (0%nat, p))
    as [Hin Hle].
  fold step in Hin, Hle.
  set (w := fold_left step items (0%nat, p)) in *.
  split; [reflexivity|]. split; [|split].
  - destruct Hin as [E|Hin]; [rewrite <- E; reflexivity|].
    destruct w as [i c]. apply in_combine_seq in Hin. cbn [fst snd].
    destruct Hin as [L N]. destruct i as [|i]; [lia|].
    cbn [nth_error]. rewrite Nat.sub_succ, Nat.sub_0_r in N. exact N.
  - intros q x Hq [Fq Nq].
    assert (Hitem : exists i, In (i, q) ((0%nat, p) :: items)).
    { destruct Hq as [<-|Hq]; [exists 0%nat; left; reflexivity|].
      destruct (@combine_seq_covers _ rest 1%nat q Hq) as [i Hi].
      exists i. right. exact Hi. }
    destruct Hitem as [i Hi]. specialize (Hle (i, q) Hi). cbn [snd] in Hle.
    rewrite (or_inf_of_value Fq Nq) in Hle.
    destruct (or_inf (f (snd w))) as [y|] eqn:Kw; [|discriminate].
    apply or_inf_some in Kw. destruct Kw as [Fw Nw].
    exists y. split; [split; assumption|].
    cbn [lt_inf] in Hle. apply Qltb_ge in Hle. exact Hle.
  - cbn [no_number]. split.
    + intros N.
      destruct (@fold_min_none (fun c => or_inf (f c)) items (0%nat, p))
        as [E Hall].
      { fold step. fold w. apply or_inf_none_field. exact N. }
      fold step in E. fold w in E. rewrite E in N. cbn [snd] in N.
      split; [exact N|]. intros q Hq.
      destruct (@combine_seq_covers _ rest 1%nat q Hq) as [i Hi].
      exact (Hall (i, q) Hi).
    + intros [N Hall].
      assert (E : w = (0%nat, p)).
      { unfold w, step.
        apply (@fold_min_all_none (fun c => or_inf (f c)) items (0%nat, p)).
        intros [i q] Hx.
        cbn [snd]. apply Hall. unfold items in Hx.
        apply in_combine_r in Hx. exact Hx. }
      rewrite E. exact N.
Qed.

Section FallbackComparison.

Variable lib : Library.

(** Why the fallback comparison fails, when it does. *)
Lemma fallback_comparison_no_number (properties_ : list Property) (e : exn) :
  properties_ <> [] ->
  _generate_fallback_comparison lib properties_ = Raise e ->
  e = TypeError "unsupported format string passed to NoneType.__format__"
  /\ (no_number total_monthly_cost properties_
      \/ no_number price_per_sqft properties_).
Proof.
  intros Hne. destruct properties_ as [|p rest]; [contradiction|].
  destruct (winner_spec total_monthly_cost p rest)
    as [w1 [E1 [_ [_ N1]]]].
  destruct (winner_spec price_per_sqft p rest) as [w2 [E2 [_ [_ N2]]]].
  unfold _generate_fallback_comparison. rewrite E1, E2. cbn [bind].
  unfold format_spec.
  destruct (total_monthly_cost (snd w1)) as [m|] eqn:F1; cbn [bind].
  - destruct (price_per_sqft (snd w2)) as [v|] eqn:F2; cbn [bind];
      [discriminate|].
    intros H. injection H as <-. split; [reflexivity|].
    right. apply N2. reflexivity.
  - intros H. injection H as <-. split; [reflexivity|].
    left. apply N1. reflexivity.
Qed.

(** X20.  The fallback comparison of a non-empty list fails exactly when
    it has no number to print for one of its two winners, that is, when
    the first property has no monthly cost and no other has one that
    counts, or likewise for the price per square foot; it then raises the
    [TypeError] of the format.  In every other case it returns a result of
    low confidence. *)
Theorem fallback_comparison_fails_without_number (p : Property)
    (rest : list Property) :
  (no_number total_monthly_cost (p :: rest)
   \/ no_number price_per_sqft (p :: rest) ->
   _generate_fallback_comparison lib (p :: rest)
   = Raise (TypeError
              "unsupported format string passed to NoneType.__format__"))
  /\ (~ (no_number total_monthly_cost (p :: rest)
         \/ no_number price_per_sqft (p :: rest)) ->
      exists r,
        _generate_fallback_comparison lib (p :: rest) = Return r
        /\ confidence r = "low"%string
        /\ properties r = Some (property_details_from 0 (p :: rest))).
Proof.
  destruct (winner_spec total_monthly_cost p rest)
    as [w1 [E1 [_ [_ N1]]]].
  destruct (winner_spec price_per_sqft p rest) as [w2 [E2 [_ [_ N2]]]].
  unfold _generate_fallback_comparison. rewrite E1, E2. cbn [bind].
  unfold format_spec.
  destruct (total_monthly_cost (snd w1)) as [m|] eqn:F1; cbn [bind].
  - destruct (price_per_sqft (snd w2)) as [v|] eqn:F2; cbn [bind].
    + split.
      * intros [H|H]; [apply N1 in H|apply N2 in H]; discriminate.
      * intros _. eexists. split; [reflexivity|]. split; reflexivity.
    + split; [reflexivity|].
      intros H. exfalso. apply H. right. apply N2. reflexivity.
  - split; [reflexivity|].
    intros H. exfalso. apply H. left. apply N1. reflexivity.
Qed.


End FallbackComparison.


(** ** The pipelines: the cache, the rate limiter and the model *)

Lemma dict_get_mutate (V : Type) (c : AICache.t V) (k : string)
    (f : V -> V) :
  AICache.dict_get k (AICache.cache (AICache.mutate_data c k f))
  = option_map
      (fun e => {| AICache.data := f (AICache.data e);
                   AICache.created_at := AICache.created_at e;
                   AICache.last_accessed := AICache.last_accessed e;
                   AICache.expires_at := AICache.expires_at e |})
      (AICache.dict_get k (AICache.cache c)).
Proof.
  unfold AICache.mutate_data. cbn [AICache.cache AICache.set_cache].
  induction (AICache.cache c) as [|[k' e'] d IH]; [reflexivity|].
  cbn [map fst snd AICache.dict_get].
  destruct (String.eqb k k') eqn:E; cbn [AICache.dict_get fst snd];
    rewrite E; [reflexivity|exact IH].
Qed.

Lemma with_cache_same (s : Service) : with_cache s (cache s) = s.
Proof. destruct s. reflexivity. Qed.

Lemma cached_or_absent (key : string) (miss : M Result) (s : Service) :
  AICache.dict_get key (AICache.cache (cache s)) = None ->
  cached_or key miss s = miss s.
Proof.
  intros H. unfold cached_or, bindM, cache_get, AICache.get.
  rewrite H. rewrite with_cache_same. reflexivity.
Qed.

Lemma cached_or_expired (key : string) (miss : M Result) (s : Service)
    (e : AICache.entry Result) :
  AICache.dict_get key (AICache.cache (cache s)) = Some e ->
  Qgtb (clock_now (clock s)) (AICache.expires_at e) = true ->
  cached_or key miss s
  = miss (with_cache s
            (AICache.set_cache (cache s)
               (AICache.dict_del key (AICache.cache (cache s))))).
Proof.
  intros H X. unfold cached_or, bindM, cache_get, AICache.get, time_time.
  rewrite H, X. reflexivity.
Qed.

Lemma cached_or_hit (key : string) (miss : M Result) (s : Service)
    (e : AICache.entry Result) :
  AICache.dict_get key (AICache.cache (cache s)) = Some e ->
  Qgtb (clock_now (clock s)) (AICache.expires_at e) = false ->
  fst (cached_or key miss s) = Return (set_from_cache true (AICache.data e))
  /\ acquired (snd (cached_or key miss s)) = acquired s
  /\ rate_limiter (snd (cached_or key miss s)) = rate_limiter s
  /\ clock (snd (cached_or key miss s)) = clock s.
Proof.
  intros H X.
  unfold cached_or, bindM, cache_get, AICache.get, time_time,
    alias_from_cache, ret.
  rewrite H, X. repeat split.
Qed.

(** The lookup either answers, without a word to the limiter, or hands
    over to the rest of the method with nothing changed but the cache. *)
Lemma cached_or_cases (key : string) (miss : M Result) (s : Service) :
  (exists r,
     fst (cached_or key miss s) = Return (set_from_cache true r)
     /\ acquired (snd (cached_or key miss s)) = acquired s
     /\ rate_limiter (snd (cached_or key miss s)) = rate_limiter s
     /\ clock (snd (cached_or key miss s)) = clock s)
  \/ (exists c, cached_or key miss s = miss (with_cache s c)).
Proof.
  destruct (AICache.dict_get key (AICache.cache (cache s))) as [e|] eqn:G.
  - destruct (Qgtb (clock_now (clock s)) (AICache.expires_at e)) eqn:X.
    + right. eexists. exact (@cached_or_expired key miss s e G X).
    + left. exists (AICache.data e). exact (@cached_or_hit key miss s e G X).
  - right. exists (cache s). rewrite with_cache_same.
    exact (@cached_or_absent key miss s G).
Qed.

Section PipelinesMore.

Variable lib : Library.

Lemma after_lookup_ret (env : Env) (req : Request) (r : Result) :
  from_cache r = Some false -> after_lookup lib env req (ret r).
Proof.
  intros H s. left. split; [reflexivity|].
  intros r' E. injection E as <-. exact H.
Qed.

Lemma after_lookup_raise (env : Env) (req : Request) (e : exn) :
  after_lookup lib env req (raise e).
Proof. intros s. left. split; [reflexivity|]. intros r' E. discriminate. Qed.

Lemma after_lookup_bind_lift {A : Type} (env : Env) (req : Request)
    (m : py A) (k : A -> M Result) :
  (forall a, m = Return a -> after_lookup lib env req (k a)) ->
  after_lookup lib env req (bindM (lift m) k).
Proof.
  intros Hk s. unfold bindM, lift. destruct m as [a|e].
  - exact (Hk a eq_refl s).
  - left. split; [reflexivity|]. intros r E. discriminate.
Qed.

Lemma stored_after_set (key : string) (result : Result) (ttl : Z)
    (s : Service) :
  ttl <> 0 ->
  stored key ttl (set_from_cache false result)
    (with_cache s
       (AICache.mutate_data
          (AICache.set (cache s) (time_time (clock s)) key result (Some ttl))
          key (set_from_cache false))).
Proof.
  intros N. unfold stored. cbn [cache with_cache clock].
  rewrite dict_get_mutate, AICacheFacts.set_stores_entry.
  cbn [option_map]. eexists. split; [reflexivity|].
  cbn [AICache.data AICache.expires_at AICache.ttl_or_default].
  destruct (ttl =? 0) eqn:Z; [apply Z.eqb_eq in Z; contradiction|].
  split; reflexivity.
Qed.

(** The [try] block, its [except] clause and the lines after them, for a
    request whose prompt and whose deterministic answer are those the
    method was given. *)
Lemma after_lookup_call_or_fallback (env : Env) (req : Request)
    (prompt : string) (parse : string -> py Result) (fallback : py Result) :
  ttl_of req <> 0 ->
  prompt_of lib env req = Return prompt ->
  (forall e,
     absorbed lib env req e
       (r <- fallback ;;
        Return (set_from_cache false (set_error (str e) r)))) ->
  after_lookup lib env req
    (call_or_fallback env (request_key lib req) prompt parse fallback
       (ttl_of req)).
Proof.
  intros N Hprompt Hfb s. right.
  pose proof (acquire_logged s) as Hlog.
  destruct (call_or_fallback env (request_key lib req) prompt parse fallback
              (ttl_of req) s) as [out s'] eqn:E.
  cbv beta iota delta [call_or_fallback bindM try_except lift ret cache_set
                         alias_from_cache] in E.
  destruct (rate_limiter_acquire s) as [a s1]; cbn [fst snd] in Hlog.
  exists a. cbn [fst snd].
  assert (Hdone : forall result,
            (out, s')
            = (Return (set_from_cache false result),
               with_cache
                 (with_cache s1
                    (AICache.set (cache s1) (time_time (clock s1))
                       (request_key lib req) result (Some (ttl_of req))))
                 (AICache.mutate_data
                    (cache
                       (with_cache s1
                          (AICache.set (cache s1) (time_time (clock s1))
                             (request_key lib req) result
                             (Some (ttl_of req)))))
                    (request_key lib req) (set_from_cache false))) ->
            acquired s' = acquired s ++ [a]
            /\ (forall r, out = Return r ->
                  stored (request_key lib req) (ttl_of req) r s'
                  /\ from_cache r = Some false)).
  { intros result X. injection X as -> ->. split; [exact Hlog|].
    intros r R. injection R as <-. split; [|reflexivity].
    pose proof (@stored_after_set (request_key lib req) result (ttl_of req)
                  s1 N) as St.
    destruct s1. exact St. }
  assert (Hfail : forall e3,
            (out, s') = (@Raise Result e3, s1) ->
            acquired s' = acquired s ++ [a]
            /\ (forall r, out = Return r ->
                  stored (request_key lib req) (ttl_of req) r s'
                  /\ from_cache r = Some false)).
  { intros e3 X. injection X as -> ->. split; [exact Hlog|].
    intros r R. discriminate. }
  assert (Hmodel : forall ai_text,
            generate_content env prompt = Return ai_text ->
            forall prompt' e,
              prompt_of lib env req = Return prompt' ->
              generate_content env prompt' = Raise e ->
              absorbed lib env req e out).
  { intros ai_text G prompt' e Hp' G'. rewrite Hprompt in Hp'.
    injection Hp' as <-. rewrite G in G'. discriminate. }
  destruct a as [[]|e].
  - destruct (generate_content env prompt) as [ai_text|e1] eqn:G.
    + destruct (parse ai_text) as [r|e2].
      * destruct (Hdone r (eq_sym E)) as [H1 H2].
        split; [exact H1|]. split; [exact H2|].
        split; [discriminate|]. intros _. exact (Hmodel ai_text eq_refl).
      * destruct fallback as [r'|e3].
        -- destruct (Hdone (set_error (str e2) r') (eq_sym E)) as [H1 H2].
           split; [exact H1|]. split; [exact H2|].
           split; [discriminate|]. intros _. exact (Hmodel ai_text eq_refl).
        -- destruct (Hfail e3 (eq_sym E)) as [H1 H2].
           split; [exact H1|]. split; [exact H2|].
           split; [discriminate|]. intros _. exact (Hmodel ai_text eq_refl).
    + assert (Hout : out = (r <- fallback ;;
                            Return (set_from_cache false
                                      (set_error (str e1) r)))).
      { destruct fallback as [r'|e3]; injection E as <- _; reflexivity. }
      assert (Hrest : acquired s' = acquired s ++ [Return tt]
                      /\ (forall r, out = Return r ->
                            stored (request_key lib req) (ttl_of req) r s'
                            /\ from_cache r = Some false)).
      { destruct fallback as [r'|e3];
          [exact (Hdone (set_error (str e1) r') (eq_sym E))
          |exact (Hfail e3 (eq_sym E))]. }
      destruct Hrest as [H1 H2].
      split; [exact H1|]. split; [exact H2|].
      split; [discriminate|]. intros _ prompt' e Hp' G'.
      rewrite Hprompt in Hp'. injection Hp' as <-.
      rewrite G in G'. injection G' as <-.
      rewrite Hout. apply Hfb.
  - assert (Hout : out = (r <- fallback ;;
                          Return (set_from_cache false
                                    (set_error (str e) r)))).
    { destruct fallback as [r'|e3]; injection E as <- _; reflexivity. }
    assert (Hrest : acquired s' = acquired s ++ [Raise e]
                    /\ (forall r, out = Return r ->
                          stored (request_key lib req) (ttl_of req) r s'
                          /\ from_cache r = Some false)).
    { destruct fallback as [r'|e3];
        [exact (Hdone (set_error (str e) r') (eq_sym E))
        |exact (Hfail e3 (eq_sym E))]. }
    destruct Hrest as [H1 H2].
    split; [exact H1|]. split; [exact H2|].
    split; [|discriminate]. intros e0 X. injection X as <-.
    rewrite Hout. apply Hfb.
Qed.

Lemma handle_shape (req : Request) :
  (exists e, forall env, handle lib env req = raise e)
  \/ (forall env, exists miss,
        handle lib env req = cached_or (request_key lib req) miss
        /\ after_lookup lib env req miss).
Proof.
  destruct req as [filters max_properties|criteria max_recommendations
                   |property_ids aspects|region time_period focus];
    cbn [handle].
  - right. intros env. eexists. split;
      [unfold summarize_properties; reflexivity|].
    cbv zeta.
    destruct (fetch_properties env _ max_properties) as [|p ps] eqn:F.
    + apply after_lookup_ret. reflexivity.
    + apply after_lookup_bind_lift. intros statistics Hst.
      apply after_lookup_bind_lift. intros context Hc.
      apply after_lookup_bind_lift. intros prompt Hp.
      apply (@after_lookup_call_or_fallback env
               (Summarize filters max_properties) prompt).
      * cbn [ttl_of]. lia.
      * unfold prompt_of, selection. cbn [bind].
        rewrite F, Hst. cbn [bind]. rewrite Hc. cbn [bind]. exact Hp.
      * intros e. left. eexists. split; [|reflexivity].
        unfold fallback_of, selection. cbn [bind]. rewrite F, Hst.
        reflexivity.
  - right. intros env. eexists. split;
      [unfold recommend_properties; reflexivity|].
    cbv zeta. destruct (fetch_properties env _ 20) as [|p ps] eqn:F.
    + apply after_lookup_ret. reflexivity.
    + apply after_lookup_bind_lift. intros scored Hsc.
      apply after_lookup_bind_lift. intros context Hc.
      apply after_lookup_bind_lift. intros prompt Hp.
      apply (@after_lookup_call_or_fallback env
               (Recommend criteria max_recommendations) prompt).
      * cbn [ttl_of]. lia.
      * unfold prompt_of, selection. cbn [bind].
        rewrite F, Hsc. cbn [bind]. rewrite Hc. cbn [bind]. exact Hp.
      * intros e. left. eexists. split; [|reflexivity].
        unfold fallback_of, selection. cbn [bind]. rewrite F, Hsc.
        reflexivity.
  - destruct (len property_ids <? 2) eqn:L2.
    { left. eexists. intros env. unfold compare_properties. rewrite L2.
      reflexivity. }
    destruct (len property_ids >? 5) eqn:L5.
    { left. eexists. intros env. unfold compare_properties. rewrite L2, L5.
      reflexivity. }
    right. intros env. eexists. split;
      [unfold compare_properties; rewrite L2, L5; reflexivity|].
    cbv zeta. destruct (negb _) eqn:Hn; [apply after_lookup_raise|].
    apply after_lookup_bind_lift. intros properties_ Hrows.
    apply after_lookup_bind_lift. intros context Hc.
    apply after_lookup_bind_lift. intros prompt Hp.
    assert (Hsel : selection env (Compare property_ids aspects)
                   = Return properties_).
    { unfold selection. rewrite Hn. exact Hrows. }
    apply (@after_lookup_call_or_fallback env
             (Compare property_ids aspects) prompt).
    + cbn [ttl_of]. lia.
    + unfold prompt_of. rewrite Hsel. cbn [bind]. rewrite Hc. cbn [bind].
      exact Hp.
    + intros e.
      destruct (_generate_fallback_comparison lib properties_)
        as [r|e3] eqn:Fb; cbn [bind].
      * left. exists r. split; [|reflexivity].
        unfold fallback_of. rewrite Hsel. cbn [bind]. exact Fb.
      * right. exists property_ids, aspects, properties_.
        assert (Hne : properties_ <> []).
        { apply map_py_length in Hrows. intros ->. unfold len in L2.
          simpl in Hrows. lia. }
        destruct (fallback_comparison_no_number lib Hne Fb) as [-> Hno].
        split; [reflexivity|]. split; [exact Hsel|].
        split; [exact Hno|reflexivity].
  - right. intros env. eexists. split;
      [unfold analyze_market_trends; reflexivity|].
    cbv zeta. destruct (fetch_properties env _ 200) as [|p ps] eqn:F.
    + apply after_lookup_ret. reflexivity.
    + apply after_lookup_bind_lift. intros stats Hst.
      apply after_lookup_bind_lift. intros context Hc.
      apply after_lookup_bind_lift. intros prompt Hp.
      apply (@after_lookup_call_or_fallback env
               (AnalyzeMarket region time_period focus) prompt).
      * cbn [ttl_of]. lia.
      * unfold prompt_of, selection. cbn [bind].
        rewrite F, Hst. cbn [bind]. rewrite Hc. cbn [bind]. exact Hp.
      * intros e. left. eexists. split; [|reflexivity].
        unfold fallback_of, selection. cbn [bind]. rewrite F, Hst.
        reflexivity.
Qed.

(** What a request adds to the log of the calls of the limiter: nothing,
    or the outcome of one call. *)
Lemma handle_log (env : Env) (req : Request) (s : Service) :
  (acquired (snd (handle lib env req s)) = acquired s
   /\ rate_limiter (snd (handle lib env req s)) = rate_limiter s
   /\ clock (snd (handle lib env req s)) = clock s)
  \/ (exists a,
        acquired (snd (handle lib env req s)) = acquired s ++ [a]
        /\ (forall r, fst (handle lib env req s) = Return r ->
              stored (request_key lib req) (ttl_of req) r
                (snd (handle lib env req s)))
        /\ (forall e, a = Raise e ->
              absorbed lib env req e (fst (handle lib env req s)))
        /\ (a = Return tt ->
            forall prompt e,
              prompt_of lib env req = Return prompt ->
              generate_content env prompt = Raise e ->
              absorbed lib env req e (fst (handle lib env req s)))).
Proof.
  destruct (handle_shape req) as [[e He]|Hs].
  - left. rewrite He. repeat split.
  - destruct (Hs env) as [miss [Eq Hm]]. rewrite Eq.
    destruct (cached_or_cases (request_key lib req) miss s)
      as [[r0 [_ H]]|[c Ec]]; [left; exact H|].
    rewrite Ec.
    destruct (Hm (with_cache s c)) as [[Same _]|[a [Ha [St [Hq Hg]]]]].
    + left. rewrite Same. repeat split.
    + right. exists a. split; [exact Ha|].
      split; [intros r R; exact (proj1 (St r R))|].
      split; [exact Hq|exact Hg].
Qed.

(** A request that went to the limiter and returned has its result in the
    cache, under its key and for its time to live. *)
Lemma handle_stores (env : Env) (req : Request) (s : Service) (r : Result) :
  fst (handle lib env req s) = Return r ->
  acquired (snd (handle lib env req s)) <> acquired s ->
  stored (request_key lib req) (ttl_of req) r (snd (handle lib env req s)).
Proof.
  intros R A.
  destruct (handle_log env req s) as [[Same _]|[a [_ [St _]]]].
  - contradiction.
  - exact (St r R).
Qed.

(** X16.  A request that went to the limiter and returned a result is
    answered from the cache when it is repeated within the time to live of
    its kind (3600 s for a summary, 1800 s for recommendations, 7200 s for a
    comparison, 14400 s for a market analysis): the same result comes back
    with [from_cache] set to [True], whatever the table and the model have
    become, and neither the limiter nor the clock is touched. *)
Theorem repeated_request_is_served_from_cache (env env' : Env)
    (req : Request) (s : Service) (r : Result) (d : Q) :
  fst (handle lib env req s) = Return r ->
  acquired (snd (handle lib env req s)) <> acquired s ->
  (d <= inject_Z (ttl_of req))%Q ->
  fst (handle lib env' req (later d (snd (handle lib env req s))))
  = Return (set_from_cache true r)
  /\ acquired (snd (handle lib env' req
                      (later d (snd (handle lib env req s)))))
     = acquired (snd (handle lib env req s))
  /\ rate_limiter (snd (handle lib env' req
                          (later d (snd (handle lib env req s)))))
     = rate_limiter (snd (handle lib env req s))
  /\ clock (snd (handle lib env' req
                   (later d (snd (handle lib env req s)))))
     = tick d (clock (snd (handle lib env req s))).
Proof.
  intros R A D.
  destruct (handle_stores env req s R A) as [e [G [Ed Ex]]].
  set (s1 := snd (handle lib env req s)) in *.
  destruct (handle_shape req) as [[e0 He]|Hs].
  - rewrite He in R. discriminate.
  - destruct (Hs env') as [miss [Eq _]]. rewrite Eq.
    assert (X : Qgtb (clock_now (clock (later d s1))) (AICache.expires_at e)
                = false).
    { unfold Qgtb. apply Qltb_ge. rewrite Ex.
      cbn [later clock tick clock_now]. lra. }
    destruct (@cached_or_hit (request_key lib req) miss (later d s1) e G X)
      as [H1 [H2 [H3 H4]]].
    rewrite H1, H2, H3, H4, Ed. repeat split.
Qed.

(** X17.  Past its time to live a stored result is not served again: a
    request repeated later than that is worked out anew, and what it returns
    is marked as not from the cache. *)
Theorem expired_result_is_not_served (env env' : Env) (req : Request)
    (s : Service) (r r' : Result) (d : Q) :
  fst (handle lib env req s) = Return r ->
  acquired (snd (handle lib env req s)) <> acquired s ->
  (inject_Z (ttl_of req) < d)%Q ->
  fst (handle lib env' req (later d (snd (handle lib env req s))))
  = Return r' ->
  from_cache r' = Some false.
Proof.
  intros R A D R'.
  destruct (handle_stores env req s R A) as [e [G [Ed Ex]]].
  set (s1 := snd (handle lib env req s)) in *.
  destruct (handle_shape req) as [[e0 He]|Hs].
  - rewrite He in R. discriminate.
  - destruct (Hs env') as [miss [Eq Hm]]. rewrite Eq in R'.
    assert (X : Qgtb (clock_now (clock (later d s1))) (AICache.expires_at e)
                = true).
    { unfold Qgtb. apply Qltb_lt. rewrite Ex.
      cbn [later clock tick clock_now]. lra. }
    rewrite (@cached_or_expired (request_key lib req) miss (later d s1) e
               G X) in R'.
    destruct (Hm (with_cache (later d s1)
                    (AICache.set_cache (cache (later d s1))
                       (AICache.dict_del (request_key lib req)
                          (AICache.cache (cache (later d s1)))))))
      as [[_ F]|[a [_ [St _]]]].
    + exact (F r' R').
    + exact (proj2 (St r' R')).
Qed.

(** X18.  A request calls the limiter at most once; and a request that
    does not call it (a hit in the cache, an empty selection, a refused
    comparison) leaves the limiter and the clock as they were. *)
Theorem request_calls_limiter_at_most_once (env : Env) (req : Request)
    (s : Service) :
  exists new,
    acquired (snd (handle lib env req s)) = acquired s ++ new
    /\ (List.length new <= 1)%nat
    /\ (new = [] ->
        rate_limiter (snd (handle lib env req s)) = rate_limiter s
        /\ clock (snd (handle lib env req s)) = clock s).
Proof.
  destruct (handle_log env req s) as [[Ha [Hr Hc]]|[a [Ha _]]].
  - exists []. rewrite app_nil_r.
    split; [exact Ha|]. split; [cbn [List.length]; lia|].
    intros _. split; assumption.
  - exists [a]. split; [exact Ha|].
    split; [cbn [List.length]; lia|]. discriminate.
Qed.

(** C1 (as amended).  Whenever [acquire] raises during a request, be it a
    summary, a recommendation, a comparison or a market analysis, and so in
    particular when it raises for the exhausted daily quota, the pipeline
    catches the exception: the request returns the deterministic answer of
    its own method for the rows it works on, with the message of the
    exception under [error] and [False] under [from_cache], and the
    exception is not passed on to the caller.  The only failure left is that
    of a comparison whose fallback generator has no number to print for one
    of its winners, and raises [TypeError]. *)
Theorem acquire_error_is_absorbed (env : Env) (req : Request) (s : Service)
    (new : list (py unit)) (e : exn) :
  acquired (snd (handle lib env req s)) = acquired s ++ new ->
  In (Raise e) new ->
  absorbed lib env req e (fst (handle lib env req s)).
Proof.
  intros Hlog Hin.
  destruct (handle_log env req s) as [[Ha _]|[a [Ha [_ [Hq _]]]]].
  - rewrite Ha in Hlog. rewrite <- (app_nil_r (acquired s)) in Hlog at 1.
    apply app_inv_head in Hlog. subst new. destruct Hin.
  - rewrite Ha in Hlog. apply app_inv_head in Hlog. subst new.
    destruct Hin as [E|[]]. exact (Hq e E).
Qed.

(** X19.  When the limiter lets the call through and the model raises on
    the prompt of the request, the request does not fail with that error: it
    returns the deterministic answer of its own method with the message of
    the error under [error] and [False] under [from_cache] (a comparison
    whose fallback generator has no number to print fails with its
    [TypeError]). *)
Theorem model_error_is_absorbed (env : Env) (req : Request) (s : Service)
    (prompt : string) (e : exn) :
  prompt_of lib env req = Return prompt ->
  generate_content env prompt = Raise e ->
  acquired (snd (handle lib env req s)) = acquired s ++ [Return tt] ->
  absorbed lib env req e (fst (handle lib env req s)).
Proof.
  intros Hp Hg A.
  destruct (handle_log env req s) as [[Ha _]|[a [Ha [_ [_ Hm]]]]].
  - rewrite Ha in A. rewrite <- (app_nil_r (acquired s)) in A at 1.
    apply app_inv_head in A. discriminate.
  - rewrite Ha in A. apply app_inv_head in A. injection A as ->.
    exact (Hm eq_refl prompt e Hp Hg).
Qed.

End PipelinesMore.

Lemma acquire_error_is_absorbed_witness :
  absorbed demo_lib demo_env (Summarize None 50)
    (Exception_ "Daily API quota exceeded. Try again in 1338 minutes.")
    (fst (handle demo_lib demo_env (Summarize None 50) (busy_service 6100))).
Proof.
  apply (@acquire_error_is_absorbed demo_lib demo_env (Summarize None 50)
           (busy_service 6100)
           [Raise (Exception_
                     "Daily API quota exceeded. Try again in 1338 minutes.")]).
  - vm_compute. reflexivity.
  - left. reflexivity.
Defined.

(** C1, the claim as written fails.  With the 1500 requests of the day
    used up, [acquire] raises the quota exception; the summary request that
    meets it does not fail: it returns the fallback result, of low
    confidence, with the message under [error]. *)
Lemma quota_error_becomes_fallback_summary :
  fst (fst (RateLimiter.acquire (rate_limiter (busy_service 6100))
              (clock (busy_service 6100))))
  = Raise (Exception_ "Daily API quota exceeded. Try again in 1338 minutes.")
  /\ fst (summarize_properties demo_lib demo_env None 50 (busy_service 6100))
     = Return
         {| fields := [];
            properties := None;
            confidence := "low";
            error :=
              Some "Daily API quota exceeded. Try again in 1338 minutes."%string;
            from_cache := Some false |}
  /\ acquired
       (snd (summarize_properties demo_lib demo_env None 50
               (busy_service 6100)))
     = [Raise (Exception_
                 "Daily API quota exceeded. Try again in 1338 minutes.")].
Proof. repeat split; vm_compute; reflexivity. Qed.
Lemma repeated_request_is_served_from_cache_witness :
  fst (handle demo_lib empty_env (Summarize None 50)
         (later 3600
            (snd (handle demo_lib demo_env (Summarize None 50)
                    (new_service 0)))))
  = Return (set_from_cache true
              (set_from_cache false (demo_result "high"))).
Proof.
  apply (@repeated_request_is_served_from_cache demo_lib demo_env empty_env
           (Summarize None 50) (new_service 0)
           (set_from_cache false (demo_result "high")) 3600).
  - vm_compute. reflexivity.
  - vm_compute. discriminate.
  - vm_compute. discriminate.
Defined.

Lemma expired_result_is_not_served_witness :
  from_cache (set_from_cache false (demo_result "high")) = Some false.
Proof.
  apply (@expired_result_is_not_served demo_lib demo_env demo_env
           (Summarize None 50) (new_service 0)
           (set_from_cache false (demo_result "high"))
           (set_from_cache false (demo_result "high")) 3601).
  - vm_compute. reflexivity.
  - vm_compute. discriminate.
  - vm_compute. reflexivity.
  - vm_compute. reflexivity.
Defined.

Lemma model_error_is_absorbed_witness :
  absorbed demo_lib (failing_env (Exception_ "503 Service Unavailable"))
    (Summarize None 50) (Exception_ "503 Service Unavailable")
    (fst (handle demo_lib
            (failing_env (Exception_ "503 Service Unavailable"))
            (Summarize None 50) (new_service 0))).
Proof.
  apply (@model_error_is_absorbed demo_lib
           (failing_env (Exception_ "503 Service Unavailable"))
           (Summarize None 50) (new_service 0) "summarize").
  - reflexivity.
  - reflexivity.
  - vm_compute. reflexivity.
Defined.

(** ** Refused and empty requests *)

Lemma return_eq {A : Type} (a b : A) : Return a = Return b -> a = b.
Proof. intros H. injection H as ->. reflexivity. Qed.

Lemma fetched_fewer_when_id_unknown (db : list Property) (ids : list Z)
    (i : Z) :
  NoDup (map id db) -> In i ids ->
  (forall p, In p db -> id p <> i) ->
  len (filter (fun p => existsb (Z.eqb (id p)) ids) db) < len ids.
Proof.
  intros Hdb Hi Hno.
  set (fetched := filter (fun p => existsb (Z.eqb (id p)) ids) db).
  assert (Hnd : NoDup (map id fetched))
    by (apply selected_ids_distinct; exact Hdb).
  assert (Hincl : incl (map id fetched) (remove Z.eq_dec i ids)).
  { intros x Hx. apply in_map_iff in Hx. destruct Hx as [p [E Hp]].
    apply filter_In in Hp. destruct Hp as [Hp He].
    apply existsb_exists in He. destruct He as [y [Hy Ey]].
    apply Z.eqb_eq in Ey. apply in_in_remove.
    - rewrite <- E. apply Hno. exact Hp.
    - congruence. }
  pose proof (NoDup_incl_length Hnd Hincl) as L1.
  pose proof (remove_length_lt Z.eq_dec ids i Hi) as L2.
  rewrite length_map in L1. unfold len. lia.
Qed.

Section Refusals.

Variable lib : Library.

(** X22.  A comparison of two to five ids of which one is not in the table
    (whose ids are unique), and for which the cache has no live entry, is
    refused with [ValueError("One or more properties not found")] before
    the limiter or the model is called. *)
Theorem compare_unknown_id_not_found (env : Env) (property_ids : list Z)
    (aspects : option (list string)) (s : Service) (i : Z) :
  2 <= len property_ids <= 5 ->
  NoDup (map id (db_properties env)) ->
  In i property_ids ->
  (forall p, In p (db_properties env) -> id p <> i) ->
  fst (cache_get (request_key lib (Compare property_ids aspects)) s)
  = Return None ->
  fst (compare_properties lib env property_ids aspects s)
  = Raise (ValueError "One or more properties not found")
  /\ acquired (snd (compare_properties lib env property_ids aspects s))
     = acquired s
  /\ rate_limiter (snd (compare_properties lib env property_ids aspects s))
     = rate_limiter s.
Proof.
  intros [L2 L5] Hdb Hi Hno Hmiss.
  pose proof (@fetched_fewer_when_id_unknown (db_properties env)
                property_ids i Hdb Hi Hno) as Hlt.
  cbn [request_key] in Hmiss.
  assert (Hsame : forall k,
            acquired (snd (cache_get k s)) = acquired s
            /\ rate_limiter (snd (cache_get k s)) = rate_limiter s).
  { intros k. unfold cache_get.
    destruct (AICache.get (cache s) (time_time (clock s)) k).
    split; reflexivity. }
  specialize (Hsame (generate_key lib "compare"
            (CompareParams (sorted property_ids)
               (match aspects with Some (a :: l) => a :: l | _ => [] end)))).
  destruct (compare_properties lib env property_ids aspects s)
    as [out s'] eqn:E.
  unfold compare_properties in E.
  destruct (len property_ids <? 2) eqn:C2; [lia|].
  destruct (len property_ids >? 5) eqn:C5; [lia|].
  unfold cached_or in E. unfold bindM at 1 in E.
  destruct (cache_get _ s) as [[c|e] s0]; cbn [fst snd] in Hmiss, Hsame;
    [|discriminate].
  injection Hmiss as ->.
  destruct (len _ =? len property_ids) eqn:L; [lia|].
  cbn [negb] in E. unfold raise in E. injection E as <- <-.
  cbn [fst snd]. destruct Hsame as [Ha Hr].
  split; [reflexivity|]. split; assumption.
Qed.

(** X23.  A summary, a recommendation or a market analysis whose selection
    of properties is empty, and for which the cache has no live entry, is
    answered at once with a result of low confidence marked as not from the
    cache: the limiter is not called, and the answer is not stored. *)
Theorem empty_selection_is_answered_at_once (env : Env) (req : Request)
    (s : Service) :
  selection env req = Return [] ->
  (forall property_ids aspects, req <> Compare property_ids aspects) ->
  fst (cache_get (request_key lib req) s) = Return None ->
  exists r,
    fst (handle lib env req s) = Return r
    /\ confidence r = "low"%string
    /\ error r = None
    /\ from_cache r = Some false
    /\ acquired (snd (handle lib env req s)) = acquired s
    /\ rate_limiter (snd (handle lib env req s)) = rate_limiter s
    /\ AICache.dict_get (request_key lib req)
         (AICache.cache (cache (snd (handle lib env req s)))) = None.
Proof.
  intros Hempty Hreq Hmiss.
  assert (Hget : forall miss,
            exists c,
              cached_or (request_key lib req) miss s = miss (with_cache s c)
              /\ AICache.dict_get (request_key lib req) (AICache.cache c)
                 = None).
  { intros miss.
    destruct (AICache.dict_get (request_key lib req)
                (AICache.cache (cache s))) as [e|] eqn:G.
    - destruct (Qgtb (clock_now (clock s)) (AICache.expires_at e)) eqn:X.
      + eexists. split;
          [exact (@cached_or_expired (request_key lib req) miss s e G X)|].
        cbn [AICache.cache AICache.set_cache].
        apply AICacheFacts.dict_get_del_same.
      + exfalso. unfold cache_get, AICache.get, time_time in Hmiss.
        rewrite G, X in Hmiss. discriminate.
    - exists (cache s). rewrite with_cache_same.
      split; [exact (@cached_or_absent (request_key lib req) miss s G)|].
      exact G. }
  destruct req as [filters max_properties|criteria max_recommendations
                   |property_ids aspects|region time_period focus].
  - cbn [handle]. unfold summarize_properties. cbv zeta.
    unfold selection in Hempty. apply return_eq in Hempty.
    rewrite Hempty. cbn [request_key] in Hget |- *.
    match goal with |- context [cached_or _ ?m s] =>
      destruct (Hget m) as [c [-> G]] end.
    eexists. cbn [ret fst snd with_cache cache acquired rate_limiter
                  confidence error from_cache].
    repeat split. exact G.
  - cbn [handle]. unfold recommend_properties. cbv zeta.
    unfold selection in Hempty. apply return_eq in Hempty.
    rewrite Hempty. cbn [request_key] in Hget |- *.
    match goal with |- context [cached_or _ ?m s] =>
      destruct (Hget m) as [c [-> G]] end.
    eexists. cbn [ret fst snd with_cache cache acquired rate_limiter
                  confidence error from_cache].
    repeat split. exact G.
  - exfalso. exact (Hreq property_ids aspects eq_refl).
  - cbn [handle]. unfold analyze_market_trends. cbv zeta.
    unfold selection in Hempty. apply return_eq in Hempty.
    rewrite Hempty. cbn [request_key] in Hget |- *.
    match goal with |- context [cached_or _ ?m s] =>
      destruct (Hget m) as [c [-> G]] end.
    eexists. cbn [ret fst snd with_cache cache acquired rate_limiter
                  confidence error from_cache].
    repeat split. exact G.
Qed.

End Refusals.

Lemma compare_unknown_id_not_found_witness :
  fst (compare_properties demo_lib demo_env [7; 8] None (new_service 0))
  = Raise (ValueError "One or more properties not found")
  /\ acquired (snd (compare_properties demo_lib demo_env [7; 8] None
                      (new_service 0)))
     = acquired (new_service 0)
  /\ rate_limiter (snd (compare_properties demo_lib demo_env [7; 8] None
                          (new_service 0)))
     = rate_limiter (new_service 0).
Proof.
  apply (@compare_unknown_id_not_found demo_lib demo_env [7; 8] None
           (new_service 0) 8).
  - vm_compute. split; discriminate.
  - vm_compute. repeat constructor; simpl; intuition discriminate.
  - right. left. reflexivity.
  - intros p [<-|[<-|[]]]; vm_compute; discriminate.
  - vm_compute. reflexivity.
Defined.

Lemma empty_selection_is_answered_at_once_witness :
  exists r,
    fst (handle demo_lib city_env (AnalyzeMarket (Some "Provo"%string) "30d" None)
           (new_service 0)) = Return r
    /\ confidence r = "low"%string
    /\ error r = None
    /\ from_cache r = Some false
    /\ acquired (snd (handle demo_lib city_env
                        (AnalyzeMarket (Some "Provo"%string) "30d" None)
                        (new_service 0)))
       = acquired (new_service 0)
    /\ rate_limiter (snd (handle demo_lib city_env
                            (AnalyzeMarket (Some "Provo"%string) "30d" None)
                            (new_service 0)))
       = rate_limiter (new_service 0)
    /\ AICache.dict_get
         (request_key demo_lib (AnalyzeMarket (Some "Provo"%string) "30d" None))
         (AICache.cache
            (cache (snd (handle demo_lib city_env
                           (AnalyzeMarket (Some "Provo"%string) "30d" None)
                           (new_service 0))))) = None.
Proof.
  apply (@empty_selection_is_answered_at_once demo_lib city_env
           (AnalyzeMarket (Some "Provo"%string) "30d" None) (new_service 0)).
  - vm_compute. reflexivity.
  - intros property_ids aspects. discriminate.
  - vm_compute. reflexivity.
Defined.

(** ** The statistics of a selection *)

Module StatisticsFacts.

Import Statistics.

Lemma insert_Q_perm (x : Q) (l : list Q) : Permutation (insert_Q x l) (x :: l).
Proof.
  induction l as [|y l IH]; cbn [insert_Q]; [reflexivity|].
  destruct (Qltb y x); [|reflexivity].
  rewrite IH. apply perm_swap.
Qed.

Lemma sorted_Q_perm (l : list Q) : Permutation (sorted_Q l) l.
Proof.
  unfold sorted_Q. induction l as [|x l IH]; cbn [fold_right];
    [reflexivity|].
  rewrite insert_Q_perm. constructor. exact IH.
Qed.

(** The middle index of a list that is not empty is one of its
    indices. *)
Lemma getitem_middle {A : Type} (l0 l : list A) :
  l <> [] -> Permutation l0 l ->
  exists x, getitem l0 (len l / 2) = Return x /\ In x l.
Proof.
  intros Hne Hp. pose proof (Permutation_length Hp) as Hl.
  assert (Hpos : 0 < len l).
  { unfold len. destruct l; [contradiction|]. cbn [List.length]. lia. }
  assert (Hhalf : 0 <= len l / 2 < len l).
  { split; [apply Z.div_pos; lia|apply Z.div_lt_upper_bound; lia]. }
  unfold getitem.
  destruct (len l / 2 <? 0) eqn:C1; [lia|]. rewrite C1.
  destruct (nth_error l0 (Z.to_nat (len l / 2))) as [x|] eqn:N.
  - exists x. split; [reflexivity|].
    apply (Permutation_in _ Hp). exact (nth_error_In _ _ N).
  - apply nth_error_None in N. unfold len in *. lia.
Qed.

(** The three figures drawn from a list of values that is not empty. *)
Lemma figures (l : list Q) :
  l <> [] ->
  exists mn md mx,
    min_or_0 l = Return mn /\ median l = Return md /\ max_or_0 l = Return mx
    /\ In mn l /\ In md l /\ In mx l
    /\ (forall v, In v l -> (mn <= v <= mx)%Q).
Proof.
  intros Hne.
  destruct (@getitem_middle _ (sorted_Q l) l Hne (sorted_Q_perm l))
    as [md [Emd Imd]].
  destruct l as [|x l']; [contradiction|].
  destruct (fold_min_spec l' x) as [Imn Bmn].
  destruct (fold_max_spec l' x) as [Imx Bmx].
  eexists. exists md. eexists.
  split; [reflexivity|]. split; [exact Emd|]. split; [reflexivity|].
  split; [exact Imn|]. split; [exact Imd|]. split; [exact Imx|].
  intros v Hv. split; [exact (Bmn v Hv)|exact (Bmx v Hv)].
Qed.

(** The figures of the prices, as they stand in the two dictionaries. *)
Lemma price_figures (properties_ : list Property) :
  exists mn md mx,
    min_or_0 (prices_of properties_) = Return mn
    /\ median (prices_of properties_) = Return md
    /\ max_or_0 (prices_of properties_) = Return mx
    /\ fit_prices properties_ mn md mx.
Proof.
  unfold prices_of, fit_prices.
  destruct (truthy_values (fun p => Some (price p)) properties_)
    as [|x l'] eqn:E.
  - exists 0%Q, 0%Q, 0%Q. repeat (split; [reflexivity|]). left.
    split; [|repeat split].
    intros p Hp. destruct (Qeq_dec (price p) 0) as [Z|N]; [exact Z|].
    exfalso.
    assert (H : In (price p)
                  (truthy_values (fun p => Some (price p)) properties_)).
    { apply truthy_values_spec. exists p. split; [exact Hp|].
      split; [reflexivity|exact N]. }
    rewrite E in H. destruct H.
  - destruct (@figures (x :: l') ltac:(discriminate))
      as [mn [md [mx [E1 [E2 [E3 [I1 [I2 [I3 B]]]]]]]]].
    exists mn, md, mx.
    split; [exact E1|]. split; [exact E2|]. split; [exact E3|]. right.
    rewrite <- E in I1, I2, I3, B.
    split; [|split; [|split]].
    + split; [apply truthy_values_spec; exact I1|].
      intros p v Hp Hv. apply B. apply truthy_values_spec. eauto.
    + split; [apply truthy_values_spec; exact I3|].
      intros p v Hp Hv. apply B. apply truthy_values_spec. eauto.
    + apply truthy_values_spec. exact I2.
    + exact (B md I2).
Qed.

(** The dictionary of counts. *)

Lemma len_cons {A : Type} (x : A) (l : list A) : len (x :: l) = len l + 1.
Proof. unfold len. cbn [List.length]. lia. Qed.

Lemma sum_Z_cons (x : Z) (l : list Z) : sum_Z (x :: l) = x + sum_Z l.
Proof.
  unfold sum_Z. cbn [fold_left].
  assert (H : forall a b, fold_left Z.add l (a + b) = a + fold_left Z.add l b).
  { induction l as [|y l IH]; intros a b; cbn [fold_left]; [reflexivity|].
    rewrite <- Z.add_assoc. apply IH. }
  rewrite <- (H x 0). rewrite Z.add_0_r. reflexivity.
Qed.

Lemma count_of_count_up_same (k : string) (d : list (string * Z)) :
  count_of k (count_up k d) = count_of k d + 1.
Proof.
  induction d as [|[k' n] d IH]; cbn [count_up count_of].
  - rewrite String.eqb_refl. reflexivity.
  - destruct (String.eqb k k') eqn:E; cbn [count_of]; rewrite E;
      [reflexivity|exact IH].
Qed.

Lemma count_of_count_up_other (k c : string) (d : list (string * Z)) :
  c <> k -> count_of c (count_up k d) = count_of c d.
Proof.
  intros N. induction d as [|[k' n] d IH]; cbn [count_up count_of].
  - destruct (String.eqb c k) eqn:E; [|reflexivity].
    apply String.eqb_eq in E. contradiction.
  - destruct (String.eqb k k') eqn:E; cbn [count_of].
    + apply String.eqb_eq in E. subst k'.
      destruct (String.eqb c k) eqn:F; [|reflexivity].
      apply String.eqb_eq in F. contradiction.
    + destruct (String.eqb c k'); [reflexivity|exact IH].
Qed.

Lemma in_keys_count_up (k c : string) (d : list (string * Z)) :
  In c (map fst (count_up k d)) <-> c = k \/ In c (map fst d).
Proof.
  induction d as [|[k' n] d IH]; cbn [count_up map fst In].
  - split; [intros [H|[]]; left; congruence|intros [H|[]]; left; congruence].
  - destruct (String.eqb k k') eqn:E; cbn [map fst In].
    + apply String.eqb_eq in E. subst k'. split; [tauto|].
      intros [H|H]; [left; congruence|exact H].
    + rewrite IH. tauto.
Qed.

Lemma nodup_count_up (k : string) (d : list (string * Z)) :
  NoDup (map fst d) -> NoDup (map fst (count_up k d)).
Proof.
  induction d as [|[k' n] d IH]; cbn [count_up map fst]; intros H.
  - constructor; [intros []|constructor].
  - apply NoDup_cons_iff in H. destruct H as [Hk Hd].
    destruct (String.eqb k k') eqn:E; cbn [map fst].
    + apply NoDup_cons; assumption.
    + apply NoDup_cons; [|exact (IH Hd)].
      rewrite in_keys_count_up. intros [H|H]; [|contradiction].
      subst k'. rewrite String.eqb_refl in E. discriminate.
Qed.

Lemma positive_count_up (k : string) (d : list (string * Z)) :
  (forall kn, In kn d -> 0 < snd kn) ->
  forall kn, In kn (count_up k d) -> 0 < snd kn.
Proof.
  induction d as [|[k' n] d IH]; cbn [count_up]; intros H kn.
  - intros [<-|[]]. cbn [snd]. lia.
  - pose proof (H (k', n) (or_introl eq_refl)) as Hn. cbn [snd] in Hn.
    destruct (String.eqb k k').
    + intros [<-|Hin]; [cbn [snd]; lia|apply H; right; exact Hin].
    + intros [<-|Hin]; [exact Hn|].
      apply IH; [|exact Hin]. intros x Hx. apply H. right. exact Hx.
Qed.

Lemma sum_count_up (k : string) (d : list (string * Z)) :
  sum_Z (map snd (count_up k d)) = sum_Z (map snd d) + 1.
Proof.
  induction d as [|[k' n] d IH]; cbn [count_up map snd]; [reflexivity|].
  destruct (String.eqb k k'); cbn [map snd]; rewrite !sum_Z_cons;
    [lia|rewrite IH; lia].
Qed.

(** An item of the dictionary is a key with its count. *)
Lemma in_iff_count_of (d : list (string * Z)) :
  NoDup (map fst d) -> (forall kn, In kn d -> 0 < snd kn) ->
  forall c n, In (c, n) d <-> (count_of c d = n /\ 0 < n).
Proof.
  induction d as [|[k' m] d IH]; cbn [map fst count_of In]; intros Hnd Hpos c n.
  - split; [intros []|intros [E P]; lia].
  - apply NoDup_cons_iff in Hnd. destruct Hnd as [Hk Hd].
    assert (Hpos' : forall kn, In kn d -> 0 < snd kn)
      by (intros kn Hin; apply Hpos; right; exact Hin).
    pose proof (Hpos (k', m) (or_introl eq_refl)) as Hm. cbn [snd] in Hm.
    destruct (String.eqb c k') eqn:E.
    + apply String.eqb_eq in E. subst k'. split.
      * intros [H|H]; [injection H as <-; split; [reflexivity|exact Hm]|].
        exfalso. apply Hk. apply in_map_iff. exists (c, n). split;
          [reflexivity|exact H].
      * intros [-> _]. left. reflexivity.
    + rewrite <- (IH Hd Hpos' c n). split; [|tauto].
      intros [H|H]; [|exact H]. injection H as -> _.
      rewrite String.eqb_refl in E. discriminate.
Qed.

(** The loop that counts, whatever it counts under: [label] says under
    which key a property is counted, if under any. *)
Lemma counts_fold (label : Property -> option string)
    (step : list (string * Z) -> Property -> list (string * Z)) :
  (forall d p, step d p = match label p with
                          | Some k => count_up k d
                          | None => d
                          end) ->
  forall l d0,
    NoDup (map fst d0) -> (forall kn, In kn d0 -> 0 < snd kn) ->
    NoDup (map fst (fold_left step l d0))
    /\ (forall kn, In kn (fold_left step l d0) -> 0 < snd kn)
    /\ (forall c,
          count_of c (fold_left step l d0)
          = count_of c d0
            + len (filter (fun p => match label p with
                                    | Some k => String.eqb k c
                                    | None => false
                                    end) l))
    /\ sum_Z (map snd (fold_left step l d0))
       = sum_Z (map snd d0)
         + len (filter (fun p => match label p with
                                 | Some _ => true
                                 | None => false
                                 end) l).
Proof.
  intros Hstep. induction l as [|p l IH]; intros d0 Hnd Hpos;
    cbn [fold_left filter].
  - split; [exact Hnd|]. split; [exact Hpos|].
    split; [intros c|]; unfold len; cbn [List.length Z.of_nat]; lia.
  - rewrite Hstep. destruct (label p) as [k|] eqn:L.
    + destruct (IH (count_up k d0) (@nodup_count_up k d0 Hnd)
                  (@positive_count_up k d0 Hpos)) as [H1 [H2 [H3 H4]]].
      split; [exact H1|]. split; [exact H2|]. split.
      * intros c. rewrite H3. destruct (String.eqb k c) eqn:E.
        -- apply String.eqb_eq in E. subst c.
           rewrite count_of_count_up_same, len_cons. lia.
        -- rewrite count_of_count_up_other; [reflexivity|].
           intros ->. rewrite String.eqb_refl in E. discriminate.
      * rewrite H4, sum_count_up, len_cons. lia.
    + exact (IH d0 Hnd Hpos).
Qed.

(** [max] by count returns an item of the greatest count. *)
Lemma max_by_count_spec (first : string * Z) (rest : list (string * Z)) :
  exists w,
    max_by_count (first :: rest) = Return w
    /\ In w (first :: rest)
    /\ forall x, In x (first :: rest) -> snd x <= snd w.
Proof.
  cbn [max_by_count]. eexists. split; [reflexivity|].
  revert first. induction rest as [|y rest IH]; intros first;
    cbn [fold_left].
  - split; [left; reflexivity|]. intros x [<-|[]]. lia.
  - destruct (snd y >? snd first) eqn:C.
    + destruct (IH y) as [Hin Hle]. split.
      * destruct Hin as [E|Hin]; [right; left; exact E|right; right; exact Hin].
      * intros x [E|Hx]; [|exact (Hle x Hx)]. subst x.
        pose proof (Hle y (or_introl eq_refl)). lia.
    + destruct (IH first) as [Hin Hle]. split.
      * destruct Hin as [E|Hin]; [left; exact E|right; right; exact Hin].
      * intros x [E|[E|Hx]].
        -- subst x. exact (Hle _ (or_introl eq_refl)).
        -- subst x. pose proof (Hle first (or_introl eq_refl)). lia.
        -- exact (Hle x (or_intror Hx)).
Qed.

Lemma market_stats_run (properties_ : list Property) :
  exists st,
    MarketStatistics._calculate_market_stats properties_ = Return st
    /\ MarketStatistics.total_properties st = len properties_
    /\ min_or_0 (prices_of properties_)
       = Return (MarketStatistics.min_price st)
    /\ median (prices_of properties_)
       = Return (MarketStatistics.median_price st)
    /\ max_or_0 (prices_of properties_)
       = Return (MarketStatistics.max_price st)
    /\ MarketStatistics.city_distribution st
       = fold_left
           (fun d prop => count_up (str_or (city prop) "Unknown") d)
           properties_ [].
Proof.
  destruct (price_figures properties_) as [mn [md [mx [E1 [E2 [E3 _]]]]]].
  unfold MarketStatistics._calculate_market_stats.
  rewrite E1, E2, E3. cbn [bind].
  destruct (dom_values_of properties_) as [|z dom'] eqn:D.
  - cbn [bind]. eexists. repeat split.
  - destruct (@getitem_middle _ (sorted (z :: dom')) (z :: dom')
                ltac:(discriminate) (sorted_perm _)) as [mdd [Em _]].
    rewrite Em. cbn [bind]. eexists. repeat split.
Qed.

Lemma statistics_run (p : Property) (rest : list Property) :
  exists st,
    _calculate_statistics (p :: rest) = Return (Some st)
    /\ count st = len (p :: rest)
    /\ min_or_0 (prices_of (p :: rest)) = Return (min_price st)
    /\ median (prices_of (p :: rest)) = Return (median_price st)
    /\ max_or_0 (prices_of (p :: rest)) = Return (max_price st)
    /\ cities st = map fst (city_counts_of (p :: rest))
    /\ match city_counts_of (p :: rest) with
       | [] => most_common_city st = None
       | first :: others =>
           exists w, max_by_count (first :: others) = Return w
                     /\ most_common_city st = Some (fst w)
       end.
Proof.
  destruct (price_figures (p :: rest)) as [mn [md [mx [E1 [E2 [E3 _]]]]]].
  unfold _calculate_statistics.
  destruct (city_counts_of (p :: rest)) as [|first others] eqn:C.
  - rewrite E1, E2, E3. cbn [bind]. eexists. repeat split.
  - destruct (max_by_count_spec first others) as [w [Ew _]].
    rewrite Ew, E1, E2, E3. cbn [bind]. eexists.
    repeat (split; [reflexivity|]). exists w. split; reflexivity.
Qed.

(** X24.  Neither dictionary of statistics fails to be built, each counts
    the properties of the selection, and in both the least, the middle and
    the greatest price fit the selection: with no price that counts they are
    all zero; otherwise [min_price] and [max_price] are the least and the
    greatest price of the selection and [median_price] is one of its
    prices, between the two. *)
Theorem price_figures_fit_the_selection (properties_ : list Property) :
  (exists st,
     MarketStatistics._calculate_market_stats properties_ = Return st
     /\ MarketStatistics.total_properties st = len properties_
     /\ fit_prices properties_
          (MarketStatistics.min_price st) (MarketStatistics.median_price st)
          (MarketStatistics.max_price st))
  /\ match properties_ with
     | [] => _calculate_statistics properties_ = Return None
     | _ :: _ =>
         exists st,
           _calculate_statistics properties_ = Return (Some st)
           /\ count st = len properties_
           /\ fit_prices properties_ (min_price st) (median_price st)
                (max_price st)
     end.
Proof.
  destruct (price_figures properties_) as [mn [md [mx [E1 [E2 [E3 F]]]]]].
  split.
  - destruct (market_stats_run properties_)
      as [st [R [T [M1 [M2 [M3 _]]]]]].
    exists st. split; [exact R|]. split; [exact T|].
    rewrite E1 in M1. rewrite E2 in M2. rewrite E3 in M3.
    injection M1 as <-. injection M2 as <-. injection M3 as <-.
    exact F.
  - destruct properties_ as [|p rest]; [reflexivity|].
    destruct (statistics_run p rest) as [st [R [T [M1 [M2 [M3 _]]]]]].
    exists st. split; [exact R|]. split; [exact T|].
    rewrite E1 in M1. rewrite E2 in M2. rewrite E3 in M3.
    injection M1 as <-. injection M2 as <-. injection M3 as <-.
    exact F.
Qed.

(** X25.  The [city_distribution] of the market statistics files every
    property of the selection under one label, its city or ["Unknown"]:
    the labels are distinct, each stands with the number of properties
    filed under it, none with zero, and the numbers add up to the size of
    the selection. *)
Theorem city_distribution_counts_every_property
    (properties_ : list Property) :
  exists st,
    MarketStatistics._calculate_market_stats properties_ = Return st
    /\ NoDup (map fst (MarketStatistics.city_distribution st))
    /\ (forall c n,
          In (c, n) (MarketStatistics.city_distribution st)
          <-> (n = MarketStatistics.filed_under c properties_ /\ 0 < n))
    /\ sum_Z (map snd (MarketStatistics.city_distribution st))
       = len properties_.
Proof.
  destruct (market_stats_run properties_) as [st [R [_ [_ [_ [_ C]]]]]].
  exists st. split; [exact R|]. rewrite C.
  destruct (@counts_fold
              (fun p => Some (str_or (city p) "Unknown"))
              (fun d prop => count_up (str_or (city prop) "Unknown") d)
              ltac:(reflexivity) properties_ []
              ltac:(constructor) ltac:(intros kn []))
    as [H1 [H2 [H3 H4]]].
  split; [exact H1|]. split.
  - intros c n. rewrite (@in_iff_count_of _ H1 H2 c n), H3.
    cbn [count_of]. unfold MarketStatistics.filed_under. split.
    + intros [E P]. split; [lia|exact P].
    + intros [E P]. split; [lia|exact P].
  - rewrite H4. cbn [map sum_Z]. unfold sum_Z. cbn [fold_left].
    rewrite (@forallb_filter_id _ (fun _ : Property => true) properties_);
      [reflexivity|].
    apply forallb_forall. reflexivity.
Qed.

(** The counts of [_calculate_statistics] are those of the cities. *)
Lemma city_counts_spec (properties_ : list Property) :
  NoDup (map fst (city_counts_of properties_))
  /\ (forall kn, In kn (city_counts_of properties_) -> 0 < snd kn)
  /\ (forall c, c <> EmptyString ->
        count_of c (city_counts_of properties_) = in_city c properties_)
  /\ count_of EmptyString (city_counts_of properties_) = 0
  /\ ((forall q, In q properties_ -> truthy_str (city q) = false) ->
      city_counts_of properties_ = []).
Proof.
  set (label := fun p : Property =>
                  match city p with
                  | Some c => if truthy_str (Some c) then Some c else None
                  | None => None
                  end).
  destruct (@counts_fold label
              (fun d p =>
                 match city p with
                 | Some c => if truthy_str (Some c) then count_up c d else d
                 | None => d
                 end)) with (l := properties_) (d0 := @nil (string * Z))
    as [H1 [H2 [H3 H4]]].
  { intros d p. unfold label. destruct (city p) as [c|]; [|reflexivity].
    destruct (truthy_str (Some c)); reflexivity. }
  { constructor. }
  { intros kn []. }
  fold (city_counts_of properties_) in H1, H2, H3, H4.
  split; [exact H1|]. split; [exact H2|]. split; [|split].
  - intros c N. rewrite H3. cbn [count_of]. unfold in_city.
    rewrite Z.add_0_l. f_equal. apply filter_ext. intros p. unfold label.
    destruct (city p) as [c'|]; [|reflexivity].
    destruct c' as [|a c']; cbn [truthy_str]; [|reflexivity].
    destruct c; [contradiction|reflexivity].
  - rewrite H3. cbn [count_of].
    assert (E : filter (fun p => match label p with
                                 | Some k => String.eqb k EmptyString
                                 | None => false
                                 end) properties_ = []).
    { clear H1 H2 H3 H4.
      induction properties_ as [|p l IH]; [reflexivity|].
      cbn [filter]. unfold label at 1.
      destruct (city p) as [[|a c']|]; cbn [truthy_str String.eqb];
        exact IH. }
    rewrite E. reflexivity.
  - intros Hall.
    destruct (city_counts_of properties_) as [|[k n] d'] eqn:D;
      [reflexivity|]. exfalso.
    pose proof (H2 (k, n) (or_introl eq_refl)) as Hn. cbn [snd] in Hn.
    pose proof (H3 k) as Hk. cbn [count_of] in Hk.
    rewrite String.eqb_refl in Hk.
    destruct (filter (fun p => match label p with
                               | Some k0 => String.eqb k0 k
                               | None => false
                               end) properties_) as [|q l'] eqn:F.
    + unfold len in Hk. cbn [List.length Z.of_nat] in Hk. lia.
    + assert (Hq : In q (q :: l')) by (left; reflexivity).
      rewrite <- F in Hq. apply filter_In in Hq. destruct Hq as [Hq Hl].
      specialize (Hall q Hq). unfold label in Hl.
      destruct (city q) as [c|]; [|discriminate].
      rewrite Hall in Hl. discriminate.
Qed.

(** X26.  For a selection that is not empty [_calculate_statistics] lists
    under [cities] the cities of the selection, each once.  Its
    [most_common_city] is one of them in which no fewer properties of the
    selection lie than in any other; it is [None] exactly when no property
    has a city. *)
Theorem most_common_city_has_most_properties (p : Property)
    (rest : list Property) :
  exists st,
    _calculate_statistics (p :: rest) = Return (Some st)
    /\ NoDup (cities st)
    /\ (forall c, In c (cities st)
                  <-> (c <> EmptyString /\ 0 < in_city c (p :: rest)))
    /\ (most_common_city st = None
        <-> forall q, In q (p :: rest) -> truthy_str (city q) = false)
    /\ (forall c, most_common_city st = Some c ->
          In c (cities st)
          /\ forall c', c' <> EmptyString ->
               in_city c' (p :: rest) <= in_city c (p :: rest)).
Proof.
  destruct (statistics_run p rest) as [st [R [_ [_ [_ [_ [C M]]]]]]].
  destruct (city_counts_spec (p :: rest)) as [H1 [H2 [H3 [H0 Hnone]]]].
  exists st. split; [exact R|]. rewrite C.
  set (d := city_counts_of (p :: rest)) in *.
  assert (Hkeys : forall c, In c (map fst d)
                            <-> (c <> EmptyString
                                 /\ 0 < in_city c (p :: rest))).
  { intros c. split.
    - intros Hin. apply in_map_iff in Hin. destruct Hin as [[c0 n] [E Hin]].
      cbn [fst] in E. subst c0.
      apply (@in_iff_count_of d H1 H2 c n) in Hin. destruct Hin as [E P].
      assert (N : c <> EmptyString) by (intros ->; lia).
      split; [exact N|]. rewrite <- (H3 c N). lia.
    - intros [N P]. rewrite <- (H3 c N) in P. apply in_map_iff.
      exists (c, count_of c d). split; [reflexivity|].
      apply (@in_iff_count_of d H1 H2). split; [reflexivity|exact P]. }
  split; [exact H1|]. split; [exact Hkeys|]. split.
  - split.
    + intros Hm q Hq. destruct d as [|first others] eqn:D.
      * destruct (truthy_str (city q)) eqn:T; [|reflexivity]. exfalso.
        destruct (city q) as [c|] eqn:Cq; [|discriminate].
        assert (N : c <> EmptyString) by (intros ->; discriminate).
        pose proof (H3 c N) as Hc. cbn [count_of] in Hc.
        unfold in_city in Hc.
        destruct (filter _ (p :: rest)) as [|x l'] eqn:F.
        -- assert (Hin : In q (filter
                     (fun p0 => match city p0 with
                                | Some c' => String.eqb c' c
                                | None => false
                                end) (p :: rest))).
           { apply filter_In. split; [exact Hq|]. rewrite Cq.
             apply String.eqb_refl. }
           rewrite F in Hin. destruct Hin.
        -- rewrite len_cons in Hc. pose proof (len_nonneg l'). lia.
      * destruct M as [w [_ Mw]]. rewrite Mw in Hm. discriminate.
    + intros Hall. rewrite (Hnone Hall) in M. exact M.
  - intros c Hc. destruct d as [|first others] eqn:D.
    + rewrite M in Hc. discriminate.
    + destruct M as [w [Ew Mw]]. rewrite Mw in Hc. injection Hc as <-.
      destruct (max_by_count_spec first others) as [w' [Ew' [Hin Hle]]].
      rewrite Ew in Ew'. injection Ew' as <-.
      assert (Hk : In (fst w) (map fst (first :: others)))
        by (apply in_map; exact Hin).
      split; [exact Hk|]. intros c' N'.
      apply Hkeys in Hk. destruct Hk as [N P].
      rewrite <- (H3 c' N'), <- (H3 (fst w) N).
      assert (Ew' : count_of (fst w) (first :: others) = snd w).
      { apply (@in_iff_count_of (first :: others) H1 H2 (fst w) (snd w)).
        destruct w. exact Hin. }
      rewrite Ew'.
      destruct (Z_lt_le_dec 0 (count_of c' (first :: others))) as [L|G].
      * apply (Hle (c', count_of c' (first :: others))).
        apply (@in_iff_count_of (first :: others) H1 H2). split;
          [reflexivity|exact L].
      * rewrite <- (H3 (fst w) N) in P. lia.
Qed.

End StatisticsFacts.

(** ** The text read by the parser of the comparison *)

Lemma from_first_open_none (text : string) :
  ~ In "{"%char (list_ascii_of_string text) -> from_first_open text = None.
Proof.
  induction text as [|c text IH]; cbn [from_first_open list_ascii_of_string];
    [reflexivity|].
  intros H. destruct (Ascii.eqb c "{") eqn:E.
  - apply Ascii.eqb_eq in E. exfalso. apply H. left. exact E.
  - apply IH. intros Hin. apply H. right. exact Hin.
Qed.

Lemma from_first_open_app (pre rest : string) :
  ~ In "{"%char (list_ascii_of_string pre) ->
  from_first_open (pre ++ String "{" rest) = Some (String "{" rest).
Proof.
  induction pre as [|c pre IH];
    cbn [from_first_open list_ascii_of_string String.append]; intros H.
  - reflexivity.
  - destruct (Ascii.eqb c "{") eqn:E.
    + apply Ascii.eqb_eq in E. exfalso. apply H. left. exact E.
    + apply IH. intros Hin. apply H. right. exact Hin.
Qed.

Lemma upto_last_close_none (post : string) :
  ~ In "}"%char (list_ascii_of_string post) -> upto_last_close post = None.
Proof.
  induction post as [|c post IH];
    cbn [upto_last_close list_ascii_of_string]; [reflexivity|].
  intros H. rewrite IH by (intros Hin; apply H; right; exact Hin).
  destruct (Ascii.eqb c "}") eqn:E; [|reflexivity].
  apply Ascii.eqb_eq in E. exfalso. apply H. left. exact E.
Qed.

Lemma upto_last_close_app (s post : string) :
  ~ In "}"%char (list_ascii_of_string post) ->
  upto_last_close (s ++ String "}" post) = Some (s ++ "}")%string.
Proof.
  intros H. induction s as [|c s IH]; cbn [String.append upto_last_close].
  - rewrite (@upto_last_close_none post H). reflexivity.
  - rewrite IH. reflexivity.
Qed.

Lemma search_braces_outermost (pre body post : string) :
  ~ In "{"%char (list_ascii_of_string pre) ->
  ~ In "}"%char (list_ascii_of_string post) ->
  search_braces (pre ++ "{" ++ body ++ "}" ++ post)
  = Some ("{" ++ body ++ "}")%string.
Proof.
  intros Hpre Hpost. unfold search_braces.
  cbn [String.append].
  rewrite (@from_first_open_app pre _ Hpre).
  change (String "{" (body ++ String "}" post))
    with (String "{" body ++ String "}" post)%string.
  rewrite (@upto_last_close_app _ post Hpost). reflexivity.
Qed.

Section ParseComparison.

Variable lib : Library.

(** X27.  Of the answer of the model the parser of the comparison reads
    what stands from the first opening brace to the last closing brace,
    whatever surrounds it.  If that is JSON, the result takes its summary
    and winners from it, with confidence high when it has winners and medium
    otherwise; if it is not, the fallback comparison is returned.  An answer
    without an opening brace gives the default summary with confidence
    medium. *)
Theorem parse_comparison_reads_outermost_braces (pre body post : string)
    (properties_ : list Property) :
  ~ In "{"%char (list_ascii_of_string pre) ->
  ~ In "}"%char (list_ascii_of_string post) ->
  (forall parsed,
     json_loads lib ("{" ++ body ++ "}") = Some parsed ->
     exists r,
       _parse_comparison_response lib (pre ++ "{" ++ body ++ "}" ++ post)
         properties_ = Return r
       /\ confidence r
          = (if json_mem "winners" parsed then "high" else "medium")%string
       /\ json_get "summary" (fields r) JNull
          = json_get "summary" parsed
              (JStr "Comparison of selected properties")
       /\ json_get "winners" (fields r) JNull
          = json_get "winners" parsed (JObj [])
       /\ properties r = Some (property_details_from 0 properties_))
  /\ (json_loads lib ("{" ++ body ++ "}") = None ->
      _parse_comparison_response lib (pre ++ "{" ++ body ++ "}" ++ post)
        properties_
      = _generate_fallback_comparison lib properties_)
  /\ exists r,
       _parse_comparison_response lib pre properties_ = Return r
       /\ confidence r = "medium"%string
       /\ json_get "summary" (fields r) JNull
          = JStr "Comparison of selected properties".
Proof.
  intros Hpre Hpost. unfold _parse_comparison_response.
  rewrite (@search_braces_outermost pre body post Hpre Hpost).
  split; [|split].
  - intros parsed E. rewrite E. eexists. split; [reflexivity|].
    repeat split.
  - intros E. rewrite E. reflexivity.
  - unfold search_braces. rewrite (@from_first_open_none pre Hpre).
    eexists. split; [reflexivity|]. split; reflexivity.
Qed.

End ParseComparison.

Lemma parse_comparison_reads_outermost_braces_witness :
  exists r,
    _parse_comparison_response demo_lib "Here it is: {} I hope it helps."
      (db_properties demo_env) = Return r
    /\ confidence r = "medium"%string.
Proof.
  destruct (@parse_comparison_reads_outermost_braces demo_lib
              "Here it is: " "" " I hope it helps." (db_properties demo_env))
    as [H _].
  - cbn. intuition discriminate.
  - cbn. intuition discriminate.
  - destruct (H [] eq_refl) as [r [E [C _]]]. exists r. split; [exact E|].
    exact C.
Defined.
